(** * NamespaceClass controller: a shallow embedding of the reconciler

    The development follows [internal/controller/namespaceclass_controller.go].
    The reconciler talks to the Kubernetes API server through [client.Client];
    here the server is an in-memory object store, every client call is
    recorded in a trace, and a fault plan decides which calls fail with an
    error that does not come from the store's contents.

    Library code the controller calls (crypto/sha256, encoding/json, the
    accessors of [unstructured.Unstructured], [retry.RetryOnConflict],
    [controllerutil]) is modelled in the first part of the file; the
    functions of the controller itself keep their Go names. *)

From Stdlib Require Import ZArith Ascii String.
From stdpp Require Import gmap strings list fin_maps sorting.

Set Warnings "-register-all".

Open Scope Z_scope.

(** ** crypto/sha256 *)

Module Sha256.
Definition w32 (x : Z) : Z := x mod 2 ^ 32.
Definition add32 (x y : Z) : Z := w32 (x + y).
Definition rotr (n x : Z) : Z :=
  Z.lor (Z.shiftr x n) (w32 (Z.shiftl x (32 - n))).
Definition Ch (x y z : Z) : Z :=
  Z.lxor (Z.land x y) (Z.land (Z.lxor x 0xffffffff) z).
Definition Maj (x y z : Z) : Z :=
  Z.lxor (Z.lxor (Z.land x y) (Z.land x z)) (Z.land y z).
Definition bsig0 (x : Z) : Z := Z.lxor (Z.lxor (rotr 2 x) (rotr 13 x)) (rotr 22 x).
Definition bsig1 (x : Z) : Z := Z.lxor (Z.lxor (rotr 6 x) (rotr 11 x)) (rotr 25 x).
Definition ssig0 (x : Z) : Z := Z.lxor (Z.lxor (rotr 7 x) (rotr 18 x)) (Z.shiftr x 3).
Definition ssig1 (x : Z) : Z := Z.lxor (Z.lxor (rotr 17 x) (rotr 19 x)) (Z.shiftr x 10).

(** The round constants are the first 32 bits of the fractional parts of the
    cube roots of the first 64 primes, the initial state those of the square
    roots of the first 8. *)
Definition is_prime (n : nat) : bool :=
  forallb (fun d => negb (n mod d =? 0)%nat) (seq 2 (n - 2)).

Definition primes : list Z := Z.of_nat <$> filter (fun n => is_prime n = true) (seq 2 310).

(** The integer cube root, bit by bit from bit [b - 1] down. *)
Fixpoint cbrt_bits (b : nat) (n r : Z) : Z :=
  match b with
  | O => r
  | S k =>
      let c := r + 2 ^ Z.of_nat k in
      cbrt_bits k n (if c * c * c <=? n then c else r)
  end.

Definition K : list Z := (fun p => w32 (cbrt_bits 36 (p * 2 ^ 96) 0)) <$> primes.

Definition H0 : list Z := (fun p => w32 (Z.sqrt (p * 2 ^ 64))) <$> take 8 primes.

(** The [n] low bytes of [x], most significant first. *)
Fixpoint be_bytes (n : nat) (x : Z) : list Z :=
  match n with
  | O => []
  | S k => (Z.shiftr x (8 * Z.of_nat k)) mod 256 :: be_bytes k x
  end.

Definition pad (msg : list Z) : list Z :=
  let len := Z.of_nat (length msg) in
  let zeros := Z.to_nat ((55 - len) mod 64) in
  msg ++ [0x80] ++ replicate zeros 0 ++ be_bytes 8 (8 * len).

Fixpoint words (fuel : nat) (bs : list Z) : list Z :=
  match fuel, bs with
  | S k, a :: b :: c :: d :: rest =>
      (Z.shiftl a 24 + Z.shiftl b 16 + Z.shiftl c 8 + d) :: words k rest
  | _, _ => []
  end.

(** The message schedule is built newest first: the head is W[t-1]. *)
Fixpoint extend (n : nat) (rw : list Z) : list Z :=
  match n with
  | O => rw
  | S k =>
      let w := add32 (add32 (ssig1 (nth 1 rw 0)) (nth 6 rw 0))
                     (add32 (ssig0 (nth 14 rw 0)) (nth 15 rw 0)) in
      extend k (w :: rw)
  end.

Definition schedule (block : list Z) : list Z := rev (extend 48 (rev block)).

Definition round (st : list Z) (kw : Z * Z) : list Z :=
  match st with
  | [a; b; c; d; e; f; g; h] =>
      let t1 := add32 (add32 (add32 h (bsig1 e)) (add32 (Ch e f g) kw.1)) kw.2 in
      let t2 := add32 (bsig0 a) (Maj a b c) in
      [add32 t1 t2; a; b; c; add32 d t1; e; f; g]
  | _ => st
  end.

Definition compress (h : list Z) (block : list Z) : list Z :=
  zip_with add32 h (foldl round h (zip K (schedule block))).

Fixpoint blocks (fuel : nat) (ws : list Z) (h : list Z) : list Z :=
  match fuel, ws with
  | S k, _ :: _ => blocks k (drop 16 ws) (compress h (take 16 ws))
  | _, _ => h
  end.

(** [sha256.Sum256]: the 32 bytes of the digest. *)
Definition Sum256 (msg : list Z) : list Z :=
  let p := pad msg in
  let ws := words (length p) p in
  mjoin (be_bytes 4 <$> blocks (length ws) ws H0).
End Sha256.

(** A Go string is a sequence of bytes, and so is a Rocq [string]. *)
Definition bytes_of_string (s : string) : list Z :=
  (fun a => Z.of_N (N_of_ascii a)) <$> list_ascii_of_string s.

Definition byte_of_Z (b : Z) : ascii := ascii_of_N (Z.to_N b).

Definition hex_digit (d : Z) : ascii :=
  byte_of_Z (if d <? 10 then 48 + d else 87 + d).

(** [fmt.Sprintf("%x", bs)] on a byte array: two lower-case digits a byte. *)
Fixpoint hex_of_bytes (bs : list Z) : string :=
  match bs with
  | [] => EmptyString
  | b :: rest =>
      String (hex_digit (b / 16)) (String (hex_digit (b mod 16)) (hex_of_bytes rest))
  end.

(** ** Numbers

    The decoder of [unstructured.Unstructured] turns a number into an int64
    when [strconv.ParseInt] takes its literal and into a float64 otherwise;
    [json.Marshal] prints an int64 in decimal and a float64 with the fewest
    digits that read back as the same float64.  [Num.canon] is the
    composition: the text [json.Marshal] gives for the decoded literal, or
    nothing when the literal is beyond the float64 range, which the decoder
    refuses. *)

Module Num.
Definition digit (c : ascii) : Z := Z.of_N (N_of_ascii c) - 48.
Definition is_digit (c : ascii) : bool := (0 <=? digit c) && (digit c <=? 9).
Definition is_char (c : ascii) (n : Z) : bool := Z.of_N (N_of_ascii c) =? n.

Definition digits_value (l : list ascii) : Z :=
  foldl (fun acc c => 10 * acc + digit c) 0 l.

Fixpoint take_digits (s : list ascii) : list ascii * list ascii :=
  match s with
  | c :: r => if is_digit c then let '(a, b) := take_digits r in (c :: a, b) else ([], s)
  | [] => ([], [])
  end.

(** The decimal digits of a natural number, at least one. *)
Fixpoint digits_of (fuel : nat) (n : Z) (acc : list ascii) : list ascii :=
  match fuel with
  | O => acc
  | S k =>
      let acc := byte_of_Z (48 + n mod 10) :: acc in
      if n / 10 =? 0 then acc else digits_of k (n / 10) acc
  end.

Definition decimal (n : Z) : list ascii := digits_of (S (Z.to_nat (Z.log2 n))) n [].

(** [strconv.FormatInt(z, 10)] *)
Definition int_text (z : Z) : list ascii :=
  if z <? 0 then byte_of_Z 45 :: decimal (- z) else decimal z.

(** A literal of the JSON grammar in its parts: sign, digits before and
    after the point, exponent. *)
Record Literal := {
  negative : bool;
  whole : list ascii;
  fraction : list ascii;
  has_point : bool;
  has_exponent : bool;
  exponent : Z
}.

Definition read (s : list ascii) : Literal :=
  let '(neg, s1) :=
    match s with
    | c :: r => if is_char c 45 then (true, r) else (false, s)
    | [] => (false, s)
    end in
  let '(ip, s2) := take_digits s1 in
  let '(point, fp, s3) :=
    match s2 with
    | c :: r => if is_char c 46 then let '(ds, r') := take_digits r in (true, ds, r')
                else (false, [], s2)
    | [] => (false, [], s2)
    end in
  let '(has_e, e) :=
    match s3 with
    | c :: r =>
        if is_char c 101 || is_char c 69 then
          match r with
          | d :: r' =>
              if is_char d 45 then (true, - digits_value (take_digits r').1)
              else if is_char d 43 then (true, digits_value (take_digits r').1)
              else (true, digits_value (take_digits r).1)
          | [] => (true, 0)
          end
        else (false, 0)
    | [] => (false, 0)
    end in
  {| negative := neg; whole := ip; fraction := fp; has_point := point;
     has_exponent := has_e; exponent := e |}.

(** [n / d >= 2 ^ k] *)
Definition reaches (n d k : Z) : bool :=
  if 0 <=? k then d * 2 ^ k <=? n else d <=? n * 2 ^ (- k).

(** A positive float64 is [q * 2 ^ e] with [q < 2 ^ 53] and [-1074 <= e];
    [q] has 53 bits unless [e] is -1074. *)
Inductive Float64 :=
| Zero
| Finite (q e : Z)
| Overflow.

(** [strconv.ParseFloat] on [m * 10 ^ E] with [m] positive: the nearest
    float64, ties to the even mantissa. *)
Definition nearest (m E : Z) : Float64 :=
  let n := if 0 <=? E then m * 10 ^ E else m in
  let d := if 0 <=? E then 1 else 10 ^ (- E) in
  let k := Z.log2 n - Z.log2 d in
  let L := if reaches n d k then k else k - 1 in
  let e := Z.max (L - 52) (-1074) in
  let num := if 0 <=? e then n else n * 2 ^ (- e) in
  let den := if 0 <=? e then d * 2 ^ e else d in
  let q0 := num / den in
  let r := num mod den in
  let q := if 2 * r <? den then q0
           else if den <? 2 * r then q0 + 1
           else if Z.even q0 then q0 else q0 + 1 in
  let '(q, e) := if q =? 2 ^ 53 then (2 ^ 52, e + 1) else (q, e) in
  if q =? 0 then Zero
  else if 1024 <=? Z.log2 q + e then Overflow
  else Finite q e.

(** [x * 10 ^ u] against [y * 2 ^ v], all four integers: both sides are
    brought to integers by [A] and [B]. *)
Definition lift10 (u v : Z) : Z := 10 ^ Z.max u 0 * 2 ^ Z.max (- v) 0.
Definition lift2 (u v : Z) : Z := 2 ^ Z.max v 0 * 10 ^ Z.max (- u) 0.

(** The decimal exponent of [q * 2 ^ e]: [10 ^ P <= q * 2 ^ e < 10 ^ (P + 1)]. *)
Definition below (P q e : Z) : bool :=
  (* 10 ^ P <= q * 2 ^ e *)
  lift10 P e <=? q * lift2 P e.

Definition magnitude (q e : Z) : Z :=
  let P0 := (Z.log2 q + e) * 30103 / 100000 in
  let P1 := if below (P0 + 1) q e then P0 + 1 else P0 in
  let P2 := if below (P1 + 1) q e then P1 + 1 else P1 in
  let P3 := if below P2 q e then P2 else P2 - 1 in
  if below P3 q e then P3 else P3 - 1.

(** The shortest decimal that reads back as [q * 2 ^ e], as an integer [c]
    and a decimal exponent [u]: tried with 1, 2, ... digits. *)
Fixpoint shortest_from (fuel : nat) (q e u : Z) : Z * Z :=
  let boundary := (q =? 2 ^ 52) && (-1074 <? e) in
  let lo := if boundary then 4 * q - 1 else 4 * q - 2 in
  let up := 4 * q + 2 in
  let inclusive := Z.even q in
  let A := lift2 u (e - 2) in
  let B := lift10 u (e - 2) in
  let c := 4 * q * A / B in
  let exact := (4 * q * A) mod B =? 0 in
  let okdown := exact || (if inclusive then lo * A <=? c * B else lo * A <? c * B) in
  let okup := negb exact
              && (if inclusive then (c + 1) * B <=? up * A else (c + 1) * B <? up * A) in
  let r2 := 2 * (4 * q * A - c * B) in
  let pick :=
    if okdown && okup then
      if r2 <? B then c else if B <? r2 then c + 1 else if Z.even c then c else c + 1
    else if okdown then c else c + 1 in
  match fuel with
  | O => (pick, u)
  | S k => if okdown || okup then (pick, u) else shortest_from k q e (u - 1)
  end.

Definition shortest (q e : Z) : Z * Z := shortest_from 20 q e (magnitude q e).

Fixpoint strip_zeros (fuel : nat) (c u : Z) : Z * Z :=
  match fuel with
  | O => (c, u)
  | S k => if (c mod 10 =? 0) && negb (c =? 0) then strip_zeros k (c / 10) (u + 1) else (c, u)
  end.

Definition zeros (n : Z) : list ascii := replicate (Z.to_nat n) (byte_of_Z 48).

(** The two layouts of [strconv.AppendFloat] with the shortest digits [ds],
    the value being [0.ds * 10 ^ dp]. *)
Definition layout_f (ds : list ascii) (dp : Z) : list ascii :=
  let nd := Z.of_nat (length ds) in
  (if 0 <? dp then take (Z.to_nat dp) ds ++ zeros (dp - nd) else [byte_of_Z 48])
  ++ (if dp <? nd then byte_of_Z 46 :: zeros (- dp) ++ drop (Z.to_nat dp) ds else []).

(** The exponent has two digits at least; the encoder then takes the zero
    out of [e-0d] and [e+0d]. *)
Definition layout_e (ds : list ascii) (dp : Z) : list ascii :=
  let x := dp - 1 in
  take 1 ds
  ++ (match drop 1 ds with [] => [] | rest => byte_of_Z 46 :: rest end)
  ++ [byte_of_Z 101; byte_of_Z (if x <? 0 then 45 else 43)]
  ++ decimal (Z.abs x).

Definition float_text (neg : bool) (f : Float64) : option (list ascii) :=
  let sign := if neg then [byte_of_Z 45] else [] in
  match f with
  | Overflow => None
  | Zero => Some (sign ++ [byte_of_Z 48])
  | Finite q e =>
      let '(c0, u0) := shortest q e in
      let '(c, u) := strip_zeros 20 c0 u0 in
      let ds := decimal c in
      let dp := Z.of_nat (length ds) + u in
      Some (sign ++ (if (dp <? -5) || (21 <? dp) then layout_e ds dp else layout_f ds dp))
  end.

Fixpoint strip_leading (s : list ascii) : list ascii :=
  match s with
  | c :: r => if is_char c 48 then strip_leading r else s
  | [] => []
  end.

Definition canon (lit : string) : option string :=
  let l := read (list_ascii_of_string lit) in
  let z := digits_value (whole l) in
  let z := if negative l then - z else z in
  if negb (has_point l) && negb (has_exponent l) && (- 2 ^ 63 <=? z) && (z <? 2 ^ 63)
  then Some (string_of_list_ascii (int_text z))
  else
    let sig := strip_leading (whole l ++ fraction l) in
    let m := digits_value sig in
    let E := exponent l - Z.of_nat (length (fraction l)) in
    let top := Z.of_nat (length sig) + E in
    string_of_list_ascii <$>
      float_text (negative l)
        (if m =? 0 then Zero
         else if 400 <? top then Overflow
         else if top <? -400 then Zero
         else nearest m E).
End Num.

Open Scope string_scope.

(** ** encoding/json

    [JText] is a parsed JSON text: the members of an object keep their order
    and their duplicates, which is what a decoder sees.  [JSON] is a decoded
    value, the Go [interface{}] tree under [map[string]interface{}].  A
    decoded number, an int64 or a float64, is carried as the text the encoder
    prints for it, which is all the controller ever does with a number.
    Bytes above 127 are taken as they are. *)

Inductive JText :=
| TNull
| TBool (b : bool)
| TNum (lit : string)
| TStr (s : string)
| TArr (l : list JText)
| TObj (ms : list (string * JText)).

Inductive JSON :=
| JNull
| JBool (b : bool)
| JNum (lit : string)
| JStr (s : string)
| JArr (l : list JSON)
| JObj (m : gmap string JSON).

Module Json.
Local Open Scope Z_scope.
Local Open Scope list_scope.

Definition code (c : ascii) : Z := Z.of_N (N_of_ascii c).
Definition isc (c : ascii) (d : string) : bool :=
  match d with
  | String d0 EmptyString => Ascii.eqb c d0
  | _ => false
  end.

(** The double quote, as a character test and as a string. *)
Definition is_dquote (c : ascii) : bool := code c =? 34.
Definition dquote : string := String (byte_of_Z 34) EmptyString.

Definition is_ws (c : ascii) : bool :=
  let n := code c in (n =? 32) || (n =? 9) || (n =? 10) || (n =? 13).
Definition is_digit (c : ascii) : bool := (48 <=? code c) && (code c <=? 57).

Fixpoint skip_ws (s : list ascii) : list ascii :=
  match s with
  | c :: r => if is_ws c then skip_ws r else s
  | [] => []
  end.

Fixpoint span (p : ascii -> bool) (s : list ascii) : list ascii * list ascii :=
  match s with
  | c :: r => if p c then let '(a, b) := span p r in (c :: a, b) else ([], s)
  | [] => ([], [])
  end.

(** A number: an optional minus, then 0 or a digit string that does not
    start with 0, then an optional fraction, then an optional exponent. *)
Definition scan_number (s : list ascii) : option (string * list ascii) :=
  let '(sign, s1) :=
    match s with
    | c :: r => if isc c "-" then ([c], r) else ([], s)
    | [] => ([], s)
    end in
  '(ip, s2) ← match s1 with
               | c :: r =>
                   if isc c "0" then Some ([c], r)
                   else if is_digit c then let '(ds, r') := span is_digit r in Some (c :: ds, r')
                   else None
               | [] => None
               end;
  '(fp, s3) ← match s2 with
               | c :: r =>
                   if isc c "." then
                     let '(ds, r') := span is_digit r in
                     match ds with [] => None | _ => Some (c :: ds, r') end
                   else Some ([], s2)
               | [] => Some ([], s2)
               end;
  '(ep, s4) ← match s3 with
               | c :: r =>
                   if isc c "e" || isc c "E" then
                     let '(sg, r1) :=
                       match r with
                       | d :: r' => if isc d "+" || isc d "-" then ([d], r') else ([], r)
                       | [] => ([], r)
                       end in
                     let '(ds, r2) := span is_digit r1 in
                     match ds with [] => None | _ => Some (c :: sg ++ ds, r2) end
                   else Some ([], s3)
               | [] => Some ([], s3)
               end;
  Some (string_of_list_ascii (sign ++ ip ++ fp ++ ep), s4).

Definition hex_val (c : ascii) : option Z :=
  let n := code c in
  if (48 <=? n) && (n <=? 57) then Some (n - 48)
  else if (97 <=? n) && (n <=? 102) then Some (n - 87)
  else if (65 <=? n) && (n <=? 70) then Some (n - 55)
  else None.

Definition hex4 (a b c d : ascii) : option Z :=
  x ← hex_val a; y ← hex_val b; z ← hex_val c; w ← hex_val d;
  Some (4096 * x + 256 * y + 16 * z + w).

(** [utf8.AppendRune], the bytes newest first. *)
Definition utf8_rev (cp : Z) : list ascii :=
  if cp <? 0x80 then [byte_of_Z cp]
  else if cp <? 0x800 then
    [byte_of_Z (0x80 + cp mod 64); byte_of_Z (0xC0 + cp / 64)]
  else if cp <? 0x10000 then
    [byte_of_Z (0x80 + cp mod 64); byte_of_Z (0x80 + (cp / 64) mod 64);
     byte_of_Z (0xE0 + cp / 4096)]
  else
    [byte_of_Z (0x80 + cp mod 64); byte_of_Z (0x80 + (cp / 64) mod 64);
     byte_of_Z (0x80 + (cp / 4096) mod 64); byte_of_Z (0xF0 + cp / 262144)].

Definition is_surrogate (cp : Z) : bool := (0xD800 <=? cp) && (cp <? 0xE000).

(** The low half that completes the high surrogate [hi], when the text goes
    on with one. *)
Definition low_half (hi : Z) (s : list ascii) : option (Z * list ascii) :=
  match s with
  | b :: u :: a1 :: a2 :: a3 :: a4 :: r =>
      if isc b "\" && isc u "u" && (hi <? 0xDC00) then
        match hex4 a1 a2 a3 a4 with
        | Some lo =>
            if (0xDC00 <=? lo) && (lo <? 0xE000)
            then Some (0x10000 + (hi - 0xD800) * 1024 + (lo - 0xDC00), r)
            else None
        | None => None
        end
      else None
  | _ => None
  end.

(** The text after an opening quote, up to the closing one. *)
Fixpoint scan_string (fuel : nat) (s acc : list ascii) : option (string * list ascii) :=
  match fuel with
  | O => None
  | S k =>
      match s with
      | [] => None
      | c :: r =>
          if is_dquote c then Some (string_of_list_ascii (rev acc), r)
          else if isc c "\" then
            match r with
            | e :: r' =>
                if is_dquote e || isc e "\" || isc e "/" then scan_string k r' (e :: acc)
                else if isc e "b" then scan_string k r' (byte_of_Z 8 :: acc)
                else if isc e "f" then scan_string k r' (byte_of_Z 12 :: acc)
                else if isc e "n" then scan_string k r' (byte_of_Z 10 :: acc)
                else if isc e "r" then scan_string k r' (byte_of_Z 13 :: acc)
                else if isc e "t" then scan_string k r' (byte_of_Z 9 :: acc)
                else if isc e "u" then
                  match r' with
                  | a1 :: a2 :: a3 :: a4 :: r'' =>
                      match hex4 a1 a2 a3 a4 with
                      | Some cp =>
                          if is_surrogate cp then
                            match low_half cp r'' with
                            | Some (full, r3) => scan_string k r3 (utf8_rev full ++ acc)
                            | None => scan_string k r'' (utf8_rev 0xFFFD ++ acc)
                            end
                          else scan_string k r'' (utf8_rev cp ++ acc)
                      | None => None
                      end
                  | _ => None
                  end
                else None
            | [] => None
            end
          else if code c <? 32 then None
          else scan_string k r (c :: acc)
      end
  end.

Definition expect (w : string) (v : JText) (s : list ascii) : option (JText * list ascii) :=
  let l := list_ascii_of_string w in
  if bool_decide (take (length l) s = l) then Some (v, drop (length l) s) else None.

Fixpoint parse_value (fuel : nat) (s : list ascii) : option (JText * list ascii) :=
  match fuel with
  | O => None
  | S k =>
      match skip_ws s with
      | [] => None
      | c :: r =>
          if isc c "{" then
            match skip_ws r with
            | c2 :: r2 => if isc c2 "}" then Some (TObj [], r2) else parse_members k [] (c2 :: r2)
            | [] => None
            end
          else if isc c "[" then
            match skip_ws r with
            | c2 :: r2 => if isc c2 "]" then Some (TArr [], r2) else parse_elems k [] (c2 :: r2)
            | [] => None
            end
          else if is_dquote c then
            '(str, r') ← scan_string (S (length r)) r []; Some (TStr str, r')
          else if isc c "t" then expect "true" (TBool true) (c :: r)
          else if isc c "f" then expect "false" (TBool false) (c :: r)
          else if isc c "n" then expect "null" TNull (c :: r)
          else '(lit, r') ← scan_number (c :: r); Some (TNum lit, r')
      end
  end
with parse_elems (fuel : nat) (acc : list JText) (s : list ascii) : option (JText * list ascii) :=
  match fuel with
  | O => None
  | S k =>
      match parse_value k s with
      | Some (v, r) =>
          match skip_ws r with
          | c :: r' =>
              if isc c "," then parse_elems k (v :: acc) r'
              else if isc c "]" then Some (TArr (rev (v :: acc)), r')
              else None
          | [] => None
          end
      | None => None
      end
  end
with parse_members (fuel : nat) (acc : list (string * JText)) (s : list ascii)
    : option (JText * list ascii) :=
  match fuel with
  | O => None
  | S k =>
      match skip_ws s with
      | c :: r =>
          if is_dquote c then
            match scan_string (S (length r)) r [] with
            | Some (key, r1) =>
                match skip_ws r1 with
                | c1 :: r2 =>
                    if isc c1 ":" then
                      match parse_value k r2 with
                      | Some (v, r3) =>
                          match skip_ws r3 with
                          | c3 :: r4 =>
                              if isc c3 "," then parse_members k ((key, v) :: acc) r4
                              else if isc c3 "}" then Some (TObj (rev ((key, v) :: acc)), r4)
                              else None
                          | [] => None
                          end
                      | None => None
                      end
                    else None
                | [] => None
                end
            | None => None
            end
          else None
      | [] => None
      end
  end.

(** A whole text is one value between optional white space. *)
Definition parse (s : string) : option JText :=
  let l := list_ascii_of_string s in
  match parse_value (2 * length l + 2) l with
  | Some (v, r) => match skip_ws r with [] => Some v | _ => None end
  | None => None
  end.

(** Every number of the text is within the float64 range; the decoder
    reports a number that is not, wherever it stands. *)
Fixpoint in_range (t : JText) : bool :=
  match t with
  | TNum lit => bool_decide (is_Some (Num.canon lit))
  | TArr l => forallb in_range l
  | TObj ms => forallb (fun kv : string * JText => in_range kv.2) ms
  | _ => true
  end.

(** Decoding into [interface{}]: a later member replaces an earlier one of
    the same name. *)
Fixpoint value_of (t : JText) : JSON :=
  match t with
  | TNull => JNull
  | TBool b => JBool b
  | TNum lit => JNum (default lit (Num.canon lit))
  | TStr s => JStr s
  | TArr l => JArr (value_of <$> l)
  | TObj ms =>
      JObj ((fix members (ms : list (string * JText)) (m : gmap string JSON) :=
               match ms with
               | [] => m
               | (k, v) :: rest => members rest (<[k := value_of v]> m)
               end) ms ∅)
  end.

(** The encoder's string form (Go 1.22, HTML escaping on). *)
Definition escape_byte (c : ascii) : list ascii :=
  let n := code c in
  let u00 := list_ascii_of_string "\u00" ++ [hex_digit (n / 16); hex_digit (n mod 16)] in
  if isc c "\" || is_dquote c then [byte_of_Z 92; c]
  else if n =? 8 then list_ascii_of_string "\b"
  else if n =? 12 then list_ascii_of_string "\f"
  else if n =? 10 then list_ascii_of_string "\n"
  else if n =? 13 then list_ascii_of_string "\r"
  else if n =? 9 then list_ascii_of_string "\t"
  else if (n <? 32) || isc c "<" || isc c ">" || isc c "&" then u00
  else [c].

Fixpoint escape (s : list ascii) : list ascii :=
  match s with
  | [] => []
  | c :: r =>
      match r with
      | c2 :: c3 :: r' =>
          if (code c =? 0xE2) && (code c2 =? 0x80) && ((code c3 =? 0xA8) || (code c3 =? 0xA9))
          then list_ascii_of_string "\u202" ++ [hex_digit (code c3 - 0xA0)] ++ escape r'
          else escape_byte c ++ escape r
      | _ => escape_byte c ++ escape r
      end
  end.

Definition quote (s : string) : string :=
  (dquote ++ string_of_list_ascii (escape (list_ascii_of_string s)) ++ dquote)%string.

Definition key_le (a b : string * string) : Prop := Is_true (String.leb a.1 b.1).

Definition join (sep : string) (l : list string) : string := String.concat sep l.

(** [json.Marshal] of a decoded value: object members sorted by key. *)
Fixpoint encode (j : JSON) : string :=
  match j with
  | JNull => "null"
  | JBool true => "true"
  | JBool false => "false"
  | JNum lit => lit
  | JStr s => quote s
  | JArr l => ("[" ++ join "," (encode <$> l) ++ "]")%string
  | JObj m =>
      ("{" ++ join "," ((fun kv : string * string => quote kv.1 ++ ":" ++ kv.2)
                          <$> merge_sort key_le (map_to_list (encode <$> m))) ++ "}")%string
  end.
End Json.

(** [json.Marshal] of an [interface{}]: a nil interface encodes as null.  The
    encoder has no failing case on a decoded value. *)
Definition json_Marshal (v : option JSON) : option string :=
  Some (Json.encode (default JNull v)).

(** ** unstructured.Unstructured

    The [Object] field, a [map[string]interface{}]; a nil map reads as the
    empty one.  The setters drop the error of [SetNestedField], which leaves
    the object as it is when [metadata] is not a map. *)

Abbreviation Unstructured := (gmap string JSON).

Module Unstr.
Definition as_string (j : JSON) : option string :=
  match j with JStr s => Some s | _ => None end.

(** [NestedString] on one field: the empty string unless a string is there. *)
Definition field_string (m : gmap string JSON) (f : string) : string :=
  match m !! f with
  | Some (JStr s) => s
  | _ => ""
  end.

Definition metadata (u : Unstructured) : option (gmap string JSON) :=
  match u !! "metadata" with
  | Some (JObj m) => Some m
  | _ => None
  end.

Definition metadata_string (u : Unstructured) (f : string) : string :=
  match metadata u with
  | Some m => field_string m f
  | None => ""
  end.

(** [SetNestedField(obj, v, "metadata", f)] *)
Definition set_metadata (u : Unstructured) (f : string) (v : JSON) : Unstructured :=
  match u !! "metadata" with
  | None => <["metadata" := JObj {[f := v]}]> u
  | Some (JObj m) => <["metadata" := JObj (<[f := v]> m)]> u
  | Some _ => u
  end.

(** [RemoveNestedField(obj, "metadata", f)] *)
Definition remove_metadata (u : Unstructured) (f : string) : Unstructured :=
  match u !! "metadata" with
  | Some (JObj m) => <["metadata" := JObj (delete f m)]> u
  | _ => u
  end.

Definition set_metadata_string (u : Unstructured) (f s : string) : Unstructured :=
  if decide (s = "") then remove_metadata u f else set_metadata u f (JStr s).

Definition GetAPIVersion (u : Unstructured) : string := field_string u "apiVersion".
Definition GetKind (u : Unstructured) : string := field_string u "kind".
Definition GetName (u : Unstructured) : string := metadata_string u "name".
Definition GetNamespace (u : Unstructured) : string := metadata_string u "namespace".
Definition GetResourceVersion (u : Unstructured) : string :=
  metadata_string u "resourceVersion".

Definition SetAPIVersion (u : Unstructured) (v : string) : Unstructured :=
  <["apiVersion" := JStr v]> u.
Definition SetKind (u : Unstructured) (k : string) : Unstructured :=
  <["kind" := JStr k]> u.
Definition SetName (u : Unstructured) (n : string) : Unstructured :=
  set_metadata_string u "name" n.
Definition SetNamespace (u : Unstructured) (n : string) : Unstructured :=
  set_metadata_string u "namespace" n.
Definition SetResourceVersion (u : Unstructured) (v : string) : Unstructured :=
  set_metadata_string u "resourceVersion" v.

(** [NestedStringMap]: nil when a value is not a string. *)
Definition string_map (m : gmap string JSON) : option (gmap string string) :=
  if decide (map_Forall (fun _ v => is_Some (as_string v)) m)
  then Some (omap as_string m) else None.

(** [GetAnnotations]: [None] is the nil map. *)
Definition GetAnnotations (u : Unstructured) : option (gmap string string) :=
  match metadata u with
  | Some m =>
      match m !! "annotations" with
      | Some (JObj a) => string_map a
      | _ => None
      end
  | None => None
  end.

(** [SetAnnotations] with a map that is not nil. *)
Definition SetAnnotations (u : Unstructured) (a : gmap string string) : Unstructured :=
  set_metadata u "annotations" (JObj (JStr <$> a)).

(** Reading a key of a map that may be nil. *)
Definition index (a : option (gmap string string)) (k : string) : string :=
  default "" (default ∅ a !! k).

(** [SetGroupVersionKind(u.GroupVersionKind())] on an empty object: the
    apiVersion is taken as the name of the type, which is what the two
    calls give back for an apiVersion of the form version or group/version. *)
Definition same_type_as (u : Unstructured) : Unstructured :=
  SetKind (SetAPIVersion ∅ (GetAPIVersion u)) (GetKind u).
End Unstr.

(** ** The objects of the API *)

(** [metav1.Time]: the distance to Go's zero instant. *)
Definition Time := Z.

(** The [IsZero] method of a [metav1.Time] pointer: nil counts as zero. *)
Definition IsZero (t : option Time) : bool :=
  match t with
  | None => true
  | Some x => x =? 0
  end%Z.

Record Namespace := {
  ns_name : string;
  ns_labels : gmap string string;
  ns_annotations : gmap string string;
  ns_finalizers : list string;
  ns_deletionTimestamp : option Time
}.

Record NamespaceClass := {
  nsc_name : string;
  (** Spec.Resources: the raw bytes of each manifest *)
  nsc_resources : list string;
  nsc_managedNamespaces : list string;
  nsc_lastUpdateTime : Time
}.

Definition set_finalizers (ns : Namespace) (f : list string) : Namespace :=
  {| ns_name := ns_name ns; ns_labels := ns_labels ns;
     ns_annotations := ns_annotations ns; ns_finalizers := f;
     ns_deletionTimestamp := ns_deletionTimestamp ns |}.

Definition set_annotations (ns : Namespace) (a : gmap string string) : Namespace :=
  {| ns_name := ns_name ns; ns_labels := ns_labels ns;
     ns_annotations := a; ns_finalizers := ns_finalizers ns;
     ns_deletionTimestamp := ns_deletionTimestamp ns |}.

Definition set_status (c : NamespaceClass) (l : list string) (t : Time) : NamespaceClass :=
  {| nsc_name := nsc_name c; nsc_resources := nsc_resources c;
     nsc_managedNamespaces := l; nsc_lastUpdateTime := t |}.

(** ManagedResource tracks resources applied to a namespace. *)
Record ManagedResource := {
  APIVersion : string;
  Kind : string;
  Name : string;
  Hash : string
}.

Definition LabelKey := "namespaceclass.akuity.io/name".
Definition AnnotationKey := "namespaceclass.akuity.io/managed-resources".
Definition ManagedByAnnotation := "namespaceclass.akuity.io/managed-by".
Definition ResourceHashAnnotation := "namespaceclass.akuity.io/resource-hash".
Definition CreatedByClassAnnotation := "namespaceclass.akuity.io/created-by-class".
Definition NamespaceFinalizer := "namespaceclass.akuity.io/finalizer".

(** *** The ledger's JSON form *)

Module Ledger.
Definition lower (c : ascii) : ascii :=
  let n := Json.code c in
  if ((65 <=? n) && (n <=? 90))%Z then byte_of_Z (n + 32) else c.

(** The decoder matches a member to a field under Unicode simple case
    folding.  Two characters beyond ASCII fold to an ASCII letter: the
    Kelvin sign U+212A, in UTF-8 E2 84 AA, to k, and the long s U+017F,
    C5 BF, to s.  Every other byte above 127 stays, so that no name with one
    matches a field; the four field names stay apart under the folding. *)
Fixpoint fold_bytes (s : list ascii) : list ascii :=
  match s with
  | [] => []
  | c :: r =>
      let other := lower c :: fold_bytes r in
      match r with
      | c2 :: r2 =>
          if ((Json.code c =? 0xC5) && (Json.code c2 =? 0xBF))%Z
          then byte_of_Z 115 :: fold_bytes r2
          else
            match r2 with
            | c3 :: r3 =>
                if ((Json.code c =? 0xE2) && (Json.code c2 =? 0x84)
                    && (Json.code c3 =? 0xAA))%Z
                then byte_of_Z 107 :: fold_bytes r3
                else other
            | [] => other
            end
      | [] => other
      end
  end.

Definition fold_name (s : string) : string :=
  string_of_list_ascii (fold_bytes (list_ascii_of_string s)).

(** A string field takes a string, is left alone by null and refuses the
    rest. *)
Definition set_string (v : JText) (old : string) : option string :=
  match v with
  | TStr s => Some s
  | TNull => Some old
  | _ => None
  end.

Fixpoint decode_members (ms : list (string * JText)) (r : ManagedResource)
    : option ManagedResource :=
  match ms with
  | [] => Some r
  | (k, v) :: rest =>
      let f := fold_name k in
      r' ← (if decide (f = "apiversion") then
              s ← set_string v (APIVersion r);
              Some {| APIVersion := s; Kind := Kind r; Name := Name r; Hash := Hash r |}
            else if decide (f = "kind") then
              s ← set_string v (Kind r);
              Some {| APIVersion := APIVersion r; Kind := s; Name := Name r; Hash := Hash r |}
            else if decide (f = "name") then
              s ← set_string v (Name r);
              Some {| APIVersion := APIVersion r; Kind := Kind r; Name := s; Hash := Hash r |}
            else if decide (f = "hash") then
              s ← set_string v (Hash r);
              Some {| APIVersion := APIVersion r; Kind := Kind r; Name := Name r; Hash := s |}
            else Some r);
      decode_members rest r'
  end.

Definition zero : ManagedResource :=
  {| APIVersion := ""; Kind := ""; Name := ""; Hash := "" |}.

Definition decode_one (t : JText) : option ManagedResource :=
  match t with
  | TObj ms => decode_members ms zero
  | TNull => Some zero
  | _ => None
  end.

(** [json.Unmarshal(data, &managed)] with [managed] a nil []ManagedResource *)
Definition Unmarshal (data : string) : option (list ManagedResource) :=
  t ← Json.parse data;
  match t with
  | TArr l => mapM decode_one l
  | TNull => Some []
  | _ => None
  end.

Definition member (name value : string) : string :=
  Json.quote name ++ ":" ++ Json.quote value.

Definition encode_one (r : ManagedResource) : string :=
  "{" ++ member "apiVersion" (APIVersion r)
    ++ "," ++ member "kind" (Kind r)
    ++ "," ++ member "name" (Name r)
    ++ (if decide (Hash r = "") then "" else "," ++ member "hash" (Hash r))
    ++ "}".

(** [json.Marshal(managed)] on a list that is not nil *)
Definition Marshal (l : list ManagedResource) : option string :=
  Some ("[" ++ Json.join "," (encode_one <$> l) ++ "]").
End Ledger.

(** ** The API server behind [client.Client]

    Namespaces and classes live under their name, every other object under
    (apiVersion, kind, namespace, name).  Each call of the client is appended
    to the trace.  The fault plan has one entry for each call still to come:
    [Some f] makes that call fail with [f] before it reaches the store, [None]
    (or an exhausted plan) lets the store answer.  Not-found and
    already-exists come from the store only. *)

Inductive Error :=
| NotFound
| AlreadyExists
| Conflict
| Unavailable
(** the client cannot tell the type of an object without kind or apiVersion *)
| NoType
(** encoding/json refused a text *)
| JsonError
(** "invalid resource in class %s: %v" *)
| InvalidResource (class why : string).

Inductive Fault := FaultConflict | FaultUnavailable.

Definition fault_error (f : Fault) : Error :=
  match f with
  | FaultConflict => Conflict
  | FaultUnavailable => Unavailable
  end.

(** [errors.IsNotFound], [errors.IsConflict] *)
Definition IsNotFound (e : Error) : bool :=
  match e with NotFound => true | _ => false end.
Definition IsConflict (e : Error) : bool :=
  match e with Conflict => true | _ => false end.

Inductive Call :=
| GetNamespace (name : string)
| UpdateNamespace (ns : Namespace)
| GetClass (name : string)
| UpdateClassStatus (c : NamespaceClass)
| GetObject (apiVersion kind namespace name : string)
| CreateObject (u : Unstructured)
| UpdateObject (u : Unstructured)
| DeleteObject (apiVersion kind namespace name : string).

Abbreviation ObjKey := (string * string * string * string)%type.

Record World := {
  namespaces : gmap string Namespace;
  classes : gmap string NamespaceClass;
  objects : gmap ObjKey Unstructured;
  (** what [metav1.Now] returns *)
  now : Time;
  faults : list (option Fault);
  trace : list Call
}.

Definition with_namespaces (w : World) (m : gmap string Namespace) : World :=
  {| namespaces := m; classes := classes w; objects := objects w;
     now := now w; faults := faults w; trace := trace w |}.
Definition with_classes (w : World) (m : gmap string NamespaceClass) : World :=
  {| namespaces := namespaces w; classes := m; objects := objects w;
     now := now w; faults := faults w; trace := trace w |}.
Definition with_objects (w : World) (m : gmap ObjKey Unstructured) : World :=
  {| namespaces := namespaces w; classes := classes w; objects := m;
     now := now w; faults := faults w; trace := trace w |}.
Definition with_faults (w : World) (f : list (option Fault)) : World :=
  {| namespaces := namespaces w; classes := classes w; objects := objects w;
     now := now w; faults := f; trace := trace w |}.
Definition log (c : Call) (w : World) : World :=
  {| namespaces := namespaces w; classes := classes w; objects := objects w;
     now := now w; faults := faults w; trace := trace w ++ [c] |}.

(** A Go function returning [(A, error)] and working on the server. *)
Inductive Res (A : Type) :=
| Ok (a : A)
| Err (e : Error).
Arguments Ok {A} a.
Arguments Err {A} e.

Definition M (A : Type) : Type := World -> Res A * World.

#[global] Instance M_ret : MRet M := fun A a w => (Ok a, w).
#[global] Instance M_bind : MBind M := fun A B f m w =>
  match m w with
  | (Ok a, w') => f a w'
  | (Err e, w') => (Err e, w')
  end.

Definition fail {A} (e : Error) : M A := fun w => (Err e, w).
Definition lift {A} (r : Res A) : M A := fun w => (r, w).
(** [m]'s error in hand instead of returned. *)
Definition attempt {A} (m : M A) : M (Res A) := fun w =>
  let '(r, w') := m w in (Ok r, w').
Definition of_option {A} (e : Error) (o : option A) : Res A :=
  match o with Some a => Ok a | None => Err e end.

Definition call {A} (c : Call) (op : M A) : M A := fun w =>
  let w1 := log c w in
  match faults w1 with
  | Some f :: rest => (Err (fault_error f), with_faults w1 rest)
  | None :: rest => op (with_faults w1 rest)
  | [] => op w1
  end.

Module client.
Definition obj_key (u : Unstructured) : ObjKey :=
  (Unstr.GetAPIVersion u, Unstr.GetKind u, Unstr.GetNamespace u, Unstr.GetName u).

Definition typed (apiVersion kind : string) : bool :=
  negb (bool_decide (apiVersion = "")) && negb (bool_decide (kind = "")).

Definition GetNamespace (name : string) : M Namespace :=
  call (GetNamespace name) (fun w =>
    match namespaces w !! name with
    | Some ns => (Ok ns, w)
    | None => (Err NotFound, w)
    end).

Definition UpdateNamespace (ns : Namespace) : M unit :=
  call (UpdateNamespace ns) (fun w =>
    match namespaces w !! ns_name ns with
    | Some _ => (Ok tt, with_namespaces w (<[ns_name ns := ns]> (namespaces w)))
    | None => (Err NotFound, w)
    end).

Definition GetClass (name : string) : M NamespaceClass :=
  call (GetClass name) (fun w =>
    match classes w !! name with
    | Some c => (Ok c, w)
    | None => (Err NotFound, w)
    end).

(** [Status().Update]: only the status of the stored class changes. *)
Definition UpdateClassStatus (c : NamespaceClass) : M unit :=
  call (UpdateClassStatus c) (fun w =>
    match classes w !! nsc_name c with
    | Some old =>
        (Ok tt, with_classes w
                  (<[nsc_name c := set_status old (nsc_managedNamespaces c)
                                                  (nsc_lastUpdateTime c)]> (classes w)))
    | None => (Err NotFound, w)
    end).

(** [Get(ctx, NamespacedName{namespace, name}, existing)]: [existing]
    carries the type. *)
Definition Get (namespace name : string) (existing : Unstructured) : M Unstructured :=
  let av := Unstr.GetAPIVersion existing in
  let k := Unstr.GetKind existing in
  call (GetObject av k namespace name) (fun w =>
    if typed av k then
      match objects w !! (av, k, namespace, name) with
      | Some u => (Ok u, w)
      | None => (Err NotFound, w)
      end
    else (Err NoType, w)).

Definition Create (u : Unstructured) : M unit :=
  call (CreateObject u) (fun w =>
    if typed (Unstr.GetAPIVersion u) (Unstr.GetKind u) then
      match objects w !! obj_key u with
      | Some _ => (Err AlreadyExists, w)
      | None => (Ok tt, with_objects w (<[obj_key u := u]> (objects w)))
      end
    else (Err NoType, w)).

Definition Update (u : Unstructured) : M unit :=
  call (UpdateObject u) (fun w =>
    if typed (Unstr.GetAPIVersion u) (Unstr.GetKind u) then
      match objects w !! obj_key u with
      | Some _ => (Ok tt, with_objects w (<[obj_key u := u]> (objects w)))
      | None => (Err NotFound, w)
      end
    else (Err NoType, w)).

Definition Delete (u : Unstructured) : M unit :=
  let '(av, k, n, x) := obj_key u in
  call (DeleteObject av k n x) (fun w =>
    if typed av k then
      match objects w !! (av, k, n, x) with
      | Some _ => (Ok tt, with_objects w (delete (av, k, n, x) (objects w)))
      | None => (Err NotFound, w)
      end
    else (Err NoType, w)).
End client.

(** [metav1.Now()] *)
Definition Now : M Time := fun w => (Ok (now w), w).

(** ** retry, controllerutil, reconcile.Result *)

(** [retry.DefaultRetry.Steps] *)
Definition DefaultRetrySteps : nat := 5.

(** [retry.RetryOnConflict]: [fn] runs again while it ends in a conflict and
    steps are left; the waiting between two runs is left out.  With no steps
    at all the result is nil. *)
Fixpoint RetryOnConflict (steps : nat) (fn : M unit) : M unit :=
  match steps with
  | O => mret tt
  | S k => fun w =>
      match fn w with
      | (Err e, w') =>
          if IsConflict e then
            match k with
            | O => (Err e, w')
            | S _ => RetryOnConflict k fn w'
            end
          else (Err e, w')
      | r => r
      end
  end.

(** Helper function to check if a string slice contains a string *)
Fixpoint containsString (slice : list string) (s : string) : bool :=
  match slice with
  | [] => false
  | item :: rest => if decide (item = s) then true else containsString rest s
  end.

(** Helper function to remove string from slice *)
Fixpoint removeString (slice : list string) (s : string) : list string :=
  match slice with
  | [] => []
  | item :: rest =>
      if decide (item ≠ s) then item :: removeString rest s else removeString rest s
  end.

(** [controllerutil.AddFinalizer]: appended unless already there. *)
Definition AddFinalizer (ns : Namespace) (finalizer : string) : Namespace :=
  if bool_decide (finalizer ∈ ns_finalizers ns) then ns
  else set_finalizers ns (ns_finalizers ns ++ [finalizer]).

(** [controllerutil.RemoveFinalizer]: every occurrence goes. *)
Definition RemoveFinalizer (ns : Namespace) (finalizer : string) : Namespace :=
  set_finalizers ns (filter (fun f => f ≠ finalizer) (ns_finalizers ns)).

(** [time.Duration] counts nanoseconds. *)
Definition Second : Z := 1000000000.
Definition Minute : Z := 60 * Second.

Record Result := {
  Requeue : bool;
  RequeueAfter : Z
}.

(** [reconcile.Result{}] *)
Definition NoResult : Result := {| Requeue := false; RequeueAfter := 0 |}.

(** [schema.ParseGroupVersion] fails on more than one slash. *)
Definition slashes (s : string) : nat :=
  length (filter (fun c => Json.isc c "/" = true) (list_ascii_of_string s)).

(** [json.Unmarshal(raw, &u)] with [u] an [unstructured.Unstructured]: the
    text has to be an object (null gives the empty one) with all its numbers
    in range, and the decoder of unstructured objects refuses one whose
    group, version and kind have no kind: the kind is empty, or the
    apiVersion is neither a version nor a group/version, which leaves the
    three of them empty. *)
Definition UnmarshalUnstructured (raw : string) : Res Unstructured :=
  match Json.parse raw with
  | Some t =>
      if Json.in_range t then
        match Json.value_of t with
        | JObj m =>
            if decide (Unstr.GetKind m = "") then Err NoType
            else if decide (2 ≤ slashes (Unstr.GetAPIVersion m))%nat then Err NoType
            else Ok m
        | JNull => Err NoType
        | _ => Err JsonError
        end
      else Err JsonError
  | None => Err JsonError
  end.

(** ** The controller *)

Definition getManagedResources (ns : Namespace) : Res (list ManagedResource) :=
  if decide (default "" (ns_annotations ns !! AnnotationKey) = "") then Ok []
  else of_option JsonError (Ledger.Unmarshal (default "" (ns_annotations ns !! AnnotationKey))).

(** One run of the function [updateManagedResources] hands to the retry. *)
Definition writeManagedResources (ns : Namespace) (managed : list ManagedResource) : M unit :=
  (* Get latest namespace *)
  ns ← client.GetNamespace (ns_name ns);
  ns ← match managed with
        | [] => mret (set_annotations ns (delete AnnotationKey (ns_annotations ns)))
        | _ =>
            data ← lift (of_option JsonError (Ledger.Marshal managed));
            mret (set_annotations ns (<[AnnotationKey := data]> (ns_annotations ns)))
        end;
  client.UpdateNamespace ns.

Definition updateManagedResources (ns : Namespace) (managed : list ManagedResource) : M unit :=
  RetryOnConflict DefaultRetrySteps (writeManagedResources ns managed).

Definition validateResource (u : Unstructured) : option string :=
  if decide (Unstr.GetAPIVersion u = "") then Some "resource is missing apiVersion"
  else if decide (Unstr.GetKind u = "") then Some "resource is missing kind"
  else if decide (Unstr.GetName u = "") then Some "resource is missing name"
  else None.

Fixpoint parseResources_from (raw : list string) (className : string)
    (result : list Unstructured) : Res (list Unstructured) :=
  match raw with
  | [] => Ok result
  | r :: rest =>
      match UnmarshalUnstructured r with
      | Err e => Err e
      | Ok u =>
          (* Validate the resource *)
          match validateResource u with
          | Some why => Err (InvalidResource className why)
          | None => parseResources_from rest className (result ++ [u])
          end
      end
  end.

Definition parseResources (raw : list string) (className : string) : Res (list Unstructured) :=
  parseResources_from raw className [].

Definition calculateResourceHash (obj : Unstructured) : string :=
  (* Deep copy to avoid modifying the original *)
  let copy := obj in
  (* Remove metadata fields that change frequently *)
  let copy :=
    match copy !! "metadata" with
    | Some (JObj metaMap) =>
        <["metadata" := JObj (delete "annotations"
                                (delete "creationTimestamp"
                                   (delete "generation"
                                      (delete "resourceVersion" metaMap))))]> copy
    | _ => copy
    end in
  (* Serialize the object for hashing *)
  match json_Marshal (copy !! "spec") with
  | None => ""
  | Some data =>
      (* Calculate hash *)
      hex_of_bytes (Sha256.Sum256 (bytes_of_string data))
  end.

(** The object comes back as the call leaves it behind its pointer. *)
Definition createOrUpdateResource (desired : Unstructured) : M Unstructured :=
  let existing := Unstr.same_type_as desired in
  r ← attempt (client.Get (Unstr.GetNamespace desired) (Unstr.GetName desired) existing);
  match r with
  | Err e =>
      if IsNotFound e then client.Create desired;; mret desired
      else fail e
  | Ok existing =>
      (* Check if update is needed by comparing hash *)
      let existingHash := Unstr.index (Unstr.GetAnnotations existing) ResourceHashAnnotation in
      let newHash := Unstr.index (Unstr.GetAnnotations desired) ResourceHashAnnotation in
      if decide (existingHash ≠ newHash) then
        (* Preserve resource version for update *)
        let desired := Unstr.SetResourceVersion desired (Unstr.GetResourceVersion existing) in
        client.Update desired;; mret desired
      else mret desired
  end.

Definition deleteResource (namespace : string) (res : ManagedResource) : M unit :=
  let obj := ∅ in
  let obj := Unstr.SetAPIVersion obj (APIVersion res) in
  let obj := Unstr.SetKind obj (Kind res) in
  let obj := Unstr.SetName obj (Name res) in
  let obj := Unstr.SetNamespace obj namespace in
  r ← attempt (client.Delete obj);
  match r with
  | Err e => if negb (IsNotFound e) then fail e else mret tt
  | Ok _ => mret tt
  end.

(** One run of the function [updateNamespaceClassStatus] hands to the retry. *)
Definition writeNamespaceClassStatus (nsc : NamespaceClass) (namespace : string) : M unit :=
  (* Get latest NamespaceClass *)
  nsc ← client.GetClass (nsc_name nsc);
  (* Check if namespace is already in the status *)
  if negb (containsString (nsc_managedNamespaces nsc) namespace) then
    t ← Now;
    client.UpdateClassStatus (set_status nsc (nsc_managedNamespaces nsc ++ [namespace]) t)
  else mret tt.

Definition updateNamespaceClassStatus (nsc : NamespaceClass) (namespace : string) : M unit :=
  RetryOnConflict DefaultRetrySteps (writeNamespaceClassStatus nsc namespace).

(** The loop of [handleNamespaceDeletion]: delete all managed resources. *)
Fixpoint deleteAllManaged (namespace : string) (managed : list ManagedResource)
    (allSucceeded : bool) : M bool :=
  match managed with
  | [] => mret allSucceeded
  | res :: rest =>
      r ← attempt (deleteResource namespace res);
      match r with
      | Err e =>
          if negb (IsNotFound e) then deleteAllManaged namespace rest false
          else deleteAllManaged namespace rest allSucceeded
      | Ok _ => deleteAllManaged namespace rest allSucceeded
      end
  end.

Definition handleNamespaceDeletion (ns : Namespace) : M Result :=
  (* Check for our finalizer *)
  if negb (containsString (ns_finalizers ns) NamespaceFinalizer) then mret NoResult
  else
    (* Get managed resources *)
    managed ← lift (getManagedResources ns);
    (* Delete all managed resources *)
    allSucceeded ← deleteAllManaged (ns_name ns) managed true;
    (* If any errors, retry *)
    if negb allSucceeded then mret {| Requeue := false; RequeueAfter := 10 * Second |}
    else
      (* Remove finalizer *)
      let ns := RemoveFinalizer ns NamespaceFinalizer in
      client.UpdateNamespace ns;;
      mret NoResult.

(** The loop of the branch without a class: a failed deletion is logged. *)
Fixpoint cleanUpManaged (namespace : string) (currentManaged : list ManagedResource) : M unit :=
  match currentManaged with
  | [] => mret tt
  | res :: rest =>
      _ ← attempt (deleteResource namespace res);
      cleanUpManaged namespace rest
  end.

(** What the loop over the desired resources does to one of them before
    [createOrUpdateResource]: namespace, management annotations and hash.
    The hash comes back with the object. *)
Definition stamp (namespace className : string) (res : Unstructured) : Unstructured * string :=
  (* Set namespace and add management annotations *)
  let res := Unstr.SetNamespace res namespace in
  let annotations := default ∅ (Unstr.GetAnnotations res) in
  let annotations := <[ManagedByAnnotation := "namespaceclass-controller"]> annotations in
  let annotations := <[CreatedByClassAnnotation := className]> annotations in
  (* Calculate resource hash *)
  let resourceHash := calculateResourceHash res in
  let annotations := <[ResourceHashAnnotation := resourceHash]> annotations in
  (Unstr.SetAnnotations res annotations, resourceHash).

(** The loop over the desired resources: create or update, then add to the
    managed list. *)
Fixpoint applyDesired (namespace className : string) (desiredResources : list Unstructured)
    (managed : list ManagedResource) : M (list ManagedResource) :=
  match desiredResources with
  | [] => mret managed
  | res :: rest =>
      let '(res, resourceHash) := stamp namespace className res in
      (* Create or update the resource *)
      res ← createOrUpdateResource res;
      (* Add to managed list *)
      applyDesired namespace className rest
        (managed ++ [{| APIVersion := Unstr.GetAPIVersion res;
                        Kind := Unstr.GetKind res;
                        Name := Unstr.GetName res;
                        Hash := resourceHash |}])
  end.

(** [fmt.Sprintf("%s/%s/%s", res.APIVersion, res.Kind, res.Name)] *)
Definition resourceKey (res : ManagedResource) : string :=
  APIVersion res ++ "/" ++ Kind res ++ "/" ++ Name res.

(** Get keys of desired resources for cleanup *)
Definition desiredKeysOf (managed : list ManagedResource) : gset string :=
  list_to_set (resourceKey <$> managed).

(** The loop that cleans up undesired resources. *)
Fixpoint cleanUpUndesired (namespace : string) (desiredKeys : gset string)
    (currentManaged : list ManagedResource) : M unit :=
  match currentManaged with
  | [] => mret tt
  | res :: rest =>
      let key := resourceKey res in
      if negb (bool_decide (key ∈ desiredKeys)) then
        deleteResource namespace res;;
        cleanUpUndesired namespace desiredKeys rest
      else cleanUpUndesired namespace desiredKeys rest
  end.

(** Reconcile ensures a namespace's resources match its NamespaceClass.
    An error comes with the empty result on every path. *)
Definition Reconcile (req : string) : M Result :=
  (* Fetch the namespace *)
  r ← attempt (client.GetNamespace req);
  match r with
  | Err e => if IsNotFound e then mret NoResult else fail e
  | Ok ns =>
      (* Handle namespace deletion with finalizer *)
      if negb (IsZero (ns_deletionTimestamp ns)) then handleNamespaceDeletion ns
      else
        (* Get the current class label *)
        let hasClass := ns_labels ns !! LabelKey in
        currentManaged ← lift (getManagedResources ns);
        match hasClass with
        | None =>
            (* If no class, clean up and exit *)
            cleanUpManaged (ns_name ns) currentManaged;;
            (* Remove finalizer if exists *)
            ns ← (if containsString (ns_finalizers ns) NamespaceFinalizer then
                    let ns := set_finalizers ns (removeString (ns_finalizers ns) NamespaceFinalizer) in
                    client.UpdateNamespace ns;; mret ns
                  else mret ns);
            (* Clear managed resources annotation *)
            updateManagedResources ns [];;
            mret NoResult
        | Some className =>
            (* Add finalizer if needed *)
            if negb (containsString (ns_finalizers ns) NamespaceFinalizer) then
              let ns := AddFinalizer ns NamespaceFinalizer in
              client.UpdateNamespace ns;;
              (* Return and requeue - the update will trigger a new reconcile *)
              mret {| Requeue := true; RequeueAfter := 0 |}
            else
              (* Fetch the NamespaceClass *)
              r ← attempt (client.GetClass className);
              match r with
              | Err e =>
                  if IsNotFound e then mret {| Requeue := false; RequeueAfter := Minute |}
                  else fail e
              | Ok nsc =>
                  (* Parse desired resources from the NamespaceClass *)
                  desiredResources ← lift (parseResources (nsc_resources nsc) className);
                  (* Create or update desired resources *)
                  managed ← applyDesired (ns_name ns) className desiredResources [];
                  (* Clean up undesired resources *)
                  cleanUpUndesired (ns_name ns) (desiredKeysOf managed) currentManaged;;
                  (* Update managed resources annotation *)
                  updateManagedResources ns managed;;
                  (* Update NamespaceClass status with retry *)
                  updateNamespaceClassStatus nsc (ns_name ns);;
                  mret NoResult
              end
        end
  end.

(** ** Vocabulary of the properties *)

Open Scope list_scope.

(** The plan's entry for the call [i] calls from now. *)
Definition fault_at (w : World) (i : nat) : option Fault := default None (faults w !! i).

(** The world as a call finds it: logged, one plan entry used up. *)
Definition advance (c : Call) (w : World) : World :=
  with_faults (log c w) (tail (faults w)).

(** The two worlds hold the same objects of every sort. *)
Definition same_store (w w' : World) : Prop :=
  namespaces w' = namespaces w ∧ classes w' = classes w ∧ objects w' = objects w.

(** The object carries the mark of the controller. *)
Definition tagged (u : Unstructured) : Prop :=
  Unstr.index (Unstr.GetAnnotations u) ManagedByAnnotation = "namespaceclass-controller".

(** The calls that create, update or delete an object other than a
    namespace or a class. *)
Definition is_object_write (c : Call) : bool :=
  match c with
  | CreateObject _ | UpdateObject _ | DeleteObject _ _ _ _ => true
  | _ => false
  end.

Definition object_writes (tr : list Call) : list Call := filter is_object_write tr.

(** Every call that writes to the server. *)
Definition is_write (c : Call) : bool :=
  match c with
  | GetNamespace _ | GetClass _ | GetObject _ _ _ _ => false
  | _ => true
  end.

(** The call [deleteResource] makes for a descriptor. *)
Definition DeleteCall (namespace : string) (res : ManagedResource) : Call :=
  DeleteObject (APIVersion res) (Kind res) namespace (Name res).

(** The descriptor the ledger gets for a template. *)
Definition descriptor (u : Unstructured) : ManagedResource :=
  {| APIVersion := Unstr.GetAPIVersion u; Kind := Unstr.GetKind u;
     Name := Unstr.GetName u; Hash := calculateResourceHash u |}.

(** The keys of the objects the trace asks to delete. *)
Definition deleted_keys (tr : list Call) : list ObjKey :=
  omap (fun c => match c with
                 | DeleteObject a k n x => Some (a, k, n, x)
                 | _ => None
                 end) tr.

(** The deletion of [res], as the next call in [w], ends in an error other
    than not-found: the plan has a fault for it, or the client cannot tell
    the type of the object. *)
Definition delete_fails (w : World) (res : ManagedResource) : bool :=
  bool_decide (fault_at w 0 ≠ None) || negb (client.typed (APIVersion res) (Kind res)).

Definition delete_error (w : World) : Error :=
  match fault_at w 0 with
  | Some f => fault_error f
  | None => NoType
  end.

(** The world [deleteResource] leaves. *)
Definition after_delete (namespace : string) (res : ManagedResource) (w : World) : World :=
  let w1 := advance (DeleteCall namespace res) w in
  if delete_fails w res then w1
  else with_objects w1 (delete (APIVersion res, Kind res, namespace, Name res) (objects w)).

(** Some deletion of the list fails when they are the next calls, in order. *)
Fixpoint some_deletion_fails (namespace : string) (l : list ManagedResource) (w : World) : bool :=
  match l with
  | [] => false
  | res :: rest =>
      delete_fails w res || some_deletion_fails namespace rest (after_delete namespace res w)
  end.

(** The world after the deletions of the whole list, one after the other. *)
Definition after_deletes (namespace : string) (l : list ManagedResource) (w : World) : World :=
  foldl (fun w res => after_delete namespace res w) w l.

(** [m] leaves the component [f] of the world as it finds it. *)
Definition preserves {X A} (f : World → X) (m : M A) : Prop :=
  ∀ w, f (m w).2 = f w.

(** [m] only adds calls to the trace, and none of them writes an object. *)
Definition quiet {A} (m : M A) : Prop :=
  ∀ w, ∃ calls, trace (m w).2 = trace w ++ calls ∧ object_writes calls = [].

(** The namespace with the ledger annotation [updateManagedResources] gives
    it. *)
Definition with_ledger (ns : Namespace) (managed : list ManagedResource) : Namespace :=
  match managed with
  | [] => set_annotations ns (delete AnnotationKey (ns_annotations ns))
  | _ => set_annotations ns (<[AnnotationKey := default "" (Ledger.Marshal managed)]>
                               (ns_annotations ns))
  end.

(** The ledgered descriptors the cleanup has to remove. *)
Definition stale (desiredKeys : gset string) (current : list ManagedResource)
    : list ManagedResource :=
  filter (λ res, resourceKey res ∉ desiredKeys) current.

(** The descriptors of [l] whose deletion is tried when they are taken in
    order and the first failure ends the loop. *)
Fixpoint attempted (namespace : string) (l : list ManagedResource) (w : World)
    : list ManagedResource :=
  match l with
  | [] => []
  | res :: rest =>
      res :: (if delete_fails w res then []
              else attempted namespace rest (after_delete namespace res w))
  end.

(** The fetch [createOrUpdateResource] makes for a template. *)
Definition FetchCall (namespace : string) (u : Unstructured) : Call :=
  GetObject (Unstr.GetAPIVersion u) (Unstr.GetKind u) namespace (Unstr.GetName u).

(** Where the object made of a template lives. *)
Definition template_key (namespace : string) (u : Unstructured) : ObjKey :=
  (Unstr.GetAPIVersion u, Unstr.GetKind u, namespace, Unstr.GetName u).

(** The template passes [validateResource]. *)
Definition valid (u : Unstructured) : Prop := validateResource u = None.

Definition triple (res : ManagedResource) : string * string * string :=
  (APIVersion res, Kind res, Name res).

(** ** Concrete objects for the examples *)

Module Ex.
Definition decoded (raw : string) : Unstructured :=
  match UnmarshalUnstructured raw with
  | Ok u => u
  | Err _ => ∅
  end.

Definition obj (l : list (string * JSON)) : JSON := JObj (list_to_map l).

(** Two manifests with the same spec and nothing else in common. *)
Definition web : Unstructured :=
  decoded (Json.encode
    (obj [("apiVersion", JStr "apps/v1"); ("kind", JStr "Deployment");
          ("metadata", obj [("name", JStr "web"); ("resourceVersion", JStr "41");
                            ("generation", JNum "3");
                            ("creationTimestamp", JStr "2024-05-01T10:00:00Z");
                            ("annotations", obj [("team", JStr "a")])]);
          ("spec", obj [("replicas", JNum "2"); ("paused", JBool false)])])).
Definition api : Unstructured :=
  decoded (Json.encode
    (obj [("spec", obj [("paused", JBool false); ("replicas", JNum "2")]);
          ("kind", JStr "StatefulSet"); ("apiVersion", JStr "apps/v1beta2");
          ("metadata", obj [("name", JStr "api")])])).

Definition ns_with (labels annotations : gmap string string) (finalizers : list string)
    (deleted : option Time) : Namespace :=
  {| ns_name := "team-a"; ns_labels := labels; ns_annotations := annotations;
     ns_finalizers := finalizers; ns_deletionTimestamp := deleted |}.

(** The ledger annotation is there and empty. *)
Definition ns_blank : Namespace :=
  ns_with {[ LabelKey := "standard" ]} {[ AnnotationKey := "" ]} [NamespaceFinalizer] None.

(** The ledger annotation is not a list of descriptors. *)
Definition corrupt_text : string := Json.encode (obj [("kind", JStr "ConfigMap")]).
Definition ns_corrupt : Namespace :=
  ns_with {[ LabelKey := "standard" ]} {[ AnnotationKey := corrupt_text ]}
          [NamespaceFinalizer] None.

Definition ns_no_ledger : Namespace :=
  ns_with {[ LabelKey := "standard" ]} ∅ [NamespaceFinalizer] None.

(** A manifest as it stands in a class, and the object the controller
    makes of it in team-a for the class [className]. *)
Definition manifest (apiVersion kind name : string) (spec : JSON) : string :=
  Json.encode (obj [("apiVersion", JStr apiVersion); ("kind", JStr kind);
                    ("metadata", obj [("name", JStr name)]); ("spec", spec)]).

Definition live (className raw : string) : Unstructured :=
  (stamp "team-a" className (decoded raw)).1.

Definition settings : string :=
  manifest "v1" "ConfigMap" "settings" (obj [("mode", JStr "fast")]).
Definition token : string :=
  manifest "v1" "Secret" "token" (obj [("bytes", JNum "16")]).
Definition quota : string :=
  manifest "v1" "ResourceQuota" "quota" (obj [("hard", obj [("pods", JStr "10")])]).

Definition class (name : string) (resources : list string) : NamespaceClass :=
  {| nsc_name := name; nsc_resources := resources;
     nsc_managedNamespaces := []; nsc_lastUpdateTime := 0 |}.

(** The ledger of a namespace that owns settings and token. *)
Definition ledger : list ManagedResource :=
  [descriptor (decoded settings); descriptor (decoded token)].
Definition ledger_text : string := default "" (Ledger.Marshal ledger).

(** Bound to standard, finalizer set, owning settings and token. *)
Definition ns_bound : Namespace :=
  ns_with {[ LabelKey := "standard" ]} {[ AnnotationKey := ledger_text ]}
          [NamespaceFinalizer] None.

(** The same namespace once its deletion is requested. *)
Definition ns_deleting : Namespace :=
  ns_with {[ LabelKey := "standard" ]} {[ AnnotationKey := ledger_text ]}
          [NamespaceFinalizer] (Some 1700000100%Z).

(** The same namespace after its class label is taken away. *)
Definition ns_unbound : Namespace :=
  ns_with ∅ {[ AnnotationKey := ledger_text ]} [NamespaceFinalizer] None.

(** Labelled for the first time: no finalizer, no ledger. *)
Definition ns_fresh : Namespace :=
  ns_with {[ LabelKey := "standard" ]} ∅ [] None.

Definition world (ns : Namespace) (cs : list NamespaceClass)
    (objs : list Unstructured) (plan : list (option Fault)) : World :=
  {| namespaces := {[ ns_name ns := ns ]};
     classes := list_to_map ((fun c => (nsc_name c, c)) <$> cs);
     objects := list_to_map ((fun u => (client.obj_key u, u)) <$> objs);
     now := 1700000000; faults := plan; trace := [] |}.

(** team-a owns settings and token, both live. *)
Definition owned : list Unstructured := [live "standard" settings; live "standard" token].

(** Deletion requested; the second deletion (the third call) fails. *)
Definition w_deleting : World :=
  world ns_deleting [] owned [None; None; Some FaultUnavailable].

(** Class label taken away; the first deletion (the second call) fails. *)
Definition w_unbound : World :=
  world ns_unbound [] owned [None; Some FaultUnavailable].

(** Labelled for the first time, standard declares settings. *)
Definition w_fresh : World := world ns_fresh [class "standard" [settings]] [] [].

(** A manifest without name between two good ones. *)
Definition nameless : string :=
  Json.encode (obj [("apiVersion", JStr "v1"); ("kind", JStr "ConfigMap");
                    ("metadata", obj []); ("spec", obj [])]).
Definition w_invalid : World :=
  world ns_bound [class "standard" [quota; nameless; settings]] owned [].

(** standard now declares quota alone, so settings and token are stale; the
    first deletion (the fifth call) fails. *)
Definition w_stale : World :=
  world ns_bound [class "standard" [quota]] owned
        [None; None; None; None; Some FaultUnavailable].

(** Everything in place: standard declares settings and token, both live
    with the hash of their template, the ledger lists them, the finalizer is
    set and the status of the class names team-a. *)
Definition standard : NamespaceClass :=
  {| nsc_name := "standard"; nsc_resources := [settings; token];
     nsc_managedNamespaces := ["team-a"]; nsc_lastUpdateTime := 1699999000 |}.
Definition w_converged : World := world ns_bound [standard] owned [].



End Ex.

(** The update calls, whatever they update. *)
Definition is_update (c : Call) : bool :=
  match c with
  | UpdateNamespace _ | UpdateClassStatus _ | UpdateObject _ => true
  | _ => false
  end.

(** The name of the namespace a call updates. *)
Definition updated_namespace (c : Call) : option string :=
  match c with
  | UpdateNamespace ns => Some (ns_name ns)
  | _ => None
  end.

(** * Vocabulary of the further properties *)

(** ** A second namespace for the examples: team-b *)

Module Lite.
(** A ledger without hashes, and bare objects for its descriptors. *)
Definition res (kind name : string) : ManagedResource :=
  {| APIVersion := "v1"; Kind := kind; Name := name; Hash := "" |}.

Definition object (namespace : string) (r : ManagedResource) : Unstructured :=
  Unstr.SetNamespace
    (Unstr.SetName (Unstr.SetKind (Unstr.SetAPIVersion ∅ (APIVersion r)) (Kind r)) (Name r))
    namespace.

Definition ledger : list ManagedResource := [res "ConfigMap" "settings"; res "Secret" "token"].

Definition ns (labels : gmap string string) (finalizers : list string)
    (deleted : option Time) : Namespace :=
  {| ns_name := "team-b"; ns_labels := labels;
     ns_annotations := {[ AnnotationKey := default "" (Ledger.Marshal ledger);
                          "owner" := "payments" ]};
     ns_finalizers := finalizers; ns_deletionTimestamp := deleted |}.

Definition world (n : Namespace) (cs : list NamespaceClass) (plan : list (option Fault)) : World :=
  {| namespaces := {[ ns_name n := n ]};
     classes := list_to_map ((fun c => (nsc_name c, c)) <$> cs);
     objects := list_to_map ((fun r => (client.obj_key (object "team-b" r), object "team-b" r))
                               <$> ledger);
     now := 1700000000; faults := plan; trace := [] |}.

(** No class label, the controller's finalizer between two others. *)
Definition ns_unbound : Namespace := ns ∅ ["kubernetes"; NamespaceFinalizer; "audit"] None.

(** Being deleted, without the controller's finalizer. *)
Definition ns_leaving : Namespace :=
  ns {[ LabelKey := "standard" ]} ["kubernetes"] (Some 1700000100%Z).

(** Bound to a class that is not there. *)
Definition ns_waiting : Namespace :=
  ns {[ LabelKey := "missing" ]} [NamespaceFinalizer] None.

(** Bound to the class standard, the finalizer set. *)
Definition ns_bound : Namespace :=
  ns {[ LabelKey := "standard" ]} [NamespaceFinalizer] None.
End Lite.

(** The characters of a lower-case hexadecimal numeral. *)
Definition is_lower_hex (c : ascii) : bool :=
  let n := Json.code c in
  ((48 <=? n) && (n <=? 57) || (97 <=? n) && (n <=? 102))%Z.

(** The string holds bytes below 128 only. *)
Definition ascii_only (s : string) : Prop :=
  Forall (λ c, (Json.code c < 128)%Z) (list_ascii_of_string s).

(** All four fields of the descriptor are ASCII. *)
Definition plain (r : ManagedResource) : Prop :=
  ascii_only (APIVersion r) ∧ ascii_only (Kind r) ∧ ascii_only (Name r) ∧ ascii_only (Hash r).

Abbreviation chars := list_ascii_of_string.

(** The members the encoder writes for one descriptor. *)
Definition members_of (r : ManagedResource) : list (string * JText) :=
  [("apiVersion", TStr (APIVersion r)); ("kind", TStr (Kind r)); ("name", TStr (Name r))]
  ++ (if decide (Hash r = "") then [] else [("hash", TStr (Hash r))]).



(** [m] keeps the invariant [I] of the world. *)
Definition keeps {A} (I : World → Prop) (m : M A) : Prop := ∀ w, I w → I (m w).2.



(** The calls the loop over the templates makes: fetch, create, update. *)
Definition is_apply_call (c : Call) : bool :=
  match c with
  | GetObject _ _ _ _ | CreateObject _ | UpdateObject _ => true
  | _ => false
  end.

(** Since [w0] only templates were applied: the namespaces and the classes
    are as they were and every call since was a fetch, a create or an update
    of an object. *)
Definition applying (w0 w : World) : Prop :=
  namespaces w = namespaces w0 ∧ classes w = classes w0
  ∧ ∃ calls, trace w = trace w0 ++ calls ∧ Forall (λ c, is_apply_call c = true) calls.

(** Labelled for the first time, with a ledger annotation that is not a list
    of descriptors. *)
Definition ns_fresh_corrupt : Namespace :=
  Ex.ns_with {[ LabelKey := "standard" ]} {[ AnnotationKey := Ex.corrupt_text ]} [] None.
Definition w_fresh_corrupt : World :=
  Ex.world ns_fresh_corrupt [Ex.class "standard" [Ex.settings]] [] [].


(** The member name Kind written with the Kelvin sign, U+212A, in UTF-8. *)
Definition kelvin_ind : string :=
  String (byte_of_Z 0xE2) (String (byte_of_Z 0x84) (String (byte_of_Z 0xAA) "ind")).

(** * Properties *)

(** ** The hash *)

Example sha256_empty :
  hex_of_bytes (Sha256.Sum256 (bytes_of_string ""))
  = "e3b0c44298fc1c149afbf4c8996fb92427ae41e4649b934ca495991b7852b855".
Proof. vm_compute. reflexivity. Qed.

Example sha256_abc :
  hex_of_bytes (Sha256.Sum256 (bytes_of_string "abc"))
  = "ba7816bf8f01cfea414140de5dae2223b00361a396177a9cb410ff61f20015ad".
Proof. vm_compute. reflexivity. Qed.

Example sha256_two_blocks :
  hex_of_bytes (Sha256.Sum256
    (bytes_of_string "abcdbcdecdefdefgefghfghighijhijkijkljklmklmnlmnomnopnopq"))
  = "248d6a61d20638b8e5c026930c3e6039a33ce45964ff2167f6ecedd419db06c1".
Proof. vm_compute. reflexivity. Qed.

Lemma hash_reads_spec (u : Unstructured) :
  calculateResourceHash u
  = hex_of_bytes (Sha256.Sum256 (bytes_of_string (Json.encode (default JNull (u !! "spec"))))).
Proof.
  unfold calculateResourceHash, json_Marshal.
  destruct (u !! "metadata") as [[| | | | |m]|] eqn:E; try reflexivity.
  rewrite lookup_insert_ne by discriminate. reflexivity.
Qed.

(** C6. The digest is a function of the spec sub-document alone: two objects
    with equal spec get equal digests, whatever their kind, name, apiVersion
    and metadata are. *)
Theorem hash_function_of_spec (u1 u2 : Unstructured) :
  u1 !! "spec" = u2 !! "spec" → calculateResourceHash u1 = calculateResourceHash u2.
Proof. intros E. rewrite !hash_reads_spec, E. reflexivity. Qed.

Lemma hash_function_of_spec_witness :
  Ex.web !! "spec" = Ex.api !! "spec"
  ∧ Unstr.GetKind Ex.web ≠ Unstr.GetKind Ex.api
  ∧ Unstr.GetName Ex.web ≠ Unstr.GetName Ex.api
  ∧ Unstr.GetAPIVersion Ex.web ≠ Unstr.GetAPIVersion Ex.api
  ∧ Ex.web !! "metadata" ≠ Ex.api !! "metadata"
  ∧ calculateResourceHash Ex.web = calculateResourceHash Ex.api.
Proof.
  assert (E : Ex.web !! "spec" = Ex.api !! "spec") by (vm_compute; reflexivity).
  refine (conj E (conj _ (conj _ (conj _ (conj _ (hash_function_of_spec Ex.web Ex.api E))))));
    vm_compute; discriminate.
Defined.

(** ** Running the client *)

Lemma bind_run {A B} (m : M A) (f : A → M B) (w : World) :
  (m ≫= f) w = match m w with
                | (Ok a, w') => f a w'
                | (Err e, w') => (Err e, w')
                end.
Proof. reflexivity. Qed.

Lemma bind_ok {A B} (m : M A) (f : A → M B) (w w' : World) (b : B) :
  (m ≫= f) w = (Ok b, w') → ∃ a w1, m w = (Ok a, w1) ∧ f a w1 = (Ok b, w').
Proof.
  rewrite bind_run. destruct (m w) as [[a|e] w1]; [eauto | discriminate].
Qed.

Lemma call_run {A} (c : Call) (op : M A) (w : World) :
  call c op w = match fault_at w 0 with
                | Some f => (Err (fault_error f), advance c w)
                | None => op (advance c w)
                end.
Proof.
  unfold call, fault_at, advance. destruct w as [n c0 o t f tr]; simpl.
  destruct f as [|[x|] rest]; reflexivity.
Qed.

Lemma fault_at_advance (c : Call) (w : World) (i : nat) :
  fault_at (advance c w) i = fault_at w (S i).
Proof.
  unfold fault_at, advance. simpl. destruct (faults w); reflexivity.
Qed.

Lemma GetNamespace_run (name : string) (w : World) :
  client.GetNamespace name w
  = match fault_at w 0 with
    | Some f => (Err (fault_error f), advance (GetNamespace name) w)
    | None =>
        (match namespaces w !! name with
         | Some ns => Ok ns
         | None => Err NotFound
         end, advance (GetNamespace name) w)
    end.
Proof.
  unfold client.GetNamespace. rewrite call_run.
  destruct (fault_at w 0); [reflexivity|]. simpl.
  destruct (namespaces w !! name); reflexivity.
Qed.

(** ** Reading the ledger *)

(** C10. A ledger annotation that is present with the empty string as its
    value reads as the empty ledger, without error, exactly as a namespace
    without the annotation does. *)
Theorem empty_ledger_value_reads_as_absent (ns : Namespace) :
  ns_annotations ns !! AnnotationKey = Some "" →
  getManagedResources ns = Ok []
  ∧ getManagedResources ns
    = getManagedResources (set_annotations ns (delete AnnotationKey (ns_annotations ns))).
Proof.
  intros E. unfold getManagedResources. simpl.
  rewrite E, lookup_delete_eq. simpl. split; reflexivity.
Qed.

Lemma empty_ledger_value_reads_as_absent_witness :
  ns_annotations Ex.ns_blank !! AnnotationKey = Some ""
  ∧ getManagedResources Ex.ns_blank = Ok [].
Proof.
  assert (E : ns_annotations Ex.ns_blank !! AnnotationKey = Some "") by reflexivity.
  split; [exact E|].
  exact (proj1 (empty_ledger_value_reads_as_absent Ex.ns_blank E)).
Defined.

(** The empty string is no JSON text, and still the ledger reads as empty. *)
Lemma unparseable_ledger_without_error :
  ns_annotations Ex.ns_blank !! AnnotationKey = Some ""
  ∧ Ledger.Unmarshal "" = None
  ∧ getManagedResources Ex.ns_blank = Ok []
  ∧ ¬ (∃ e, getManagedResources Ex.ns_blank = Err e).
Proof.
  repeat split; try reflexivity. intros [e E]. discriminate E.
Qed.

(** C8, amended. Without the annotation the ledger reads as empty, without
    error.  With the annotation present, not empty and not the JSON of a
    descriptor list, reading fails, and a pass that reads the ledger (the
    namespace is not being deleted, or is and has the finalizer) returns that
    error after fetching the namespace and does nothing else. *)
Theorem ledger_read (ns : Namespace) :
  (ns_annotations ns !! AnnotationKey = None → getManagedResources ns = Ok [])
  ∧ (∀ v, ns_annotations ns !! AnnotationKey = Some v → v ≠ "" →
          Ledger.Unmarshal v = None →
          getManagedResources ns = Err JsonError
          ∧ ∀ (w : World) (req : string),
              namespaces w !! req = Some ns → fault_at w 0 = None →
              IsZero (ns_deletionTimestamp ns) = true
              ∨ containsString (ns_finalizers ns) NamespaceFinalizer = true →
              Reconcile req w = (Err JsonError, advance (GetNamespace req) w)).
Proof.
  split.
  - intros E. unfold getManagedResources. rewrite E. reflexivity.
  - intros v E Hv Hbad.
    assert (G : getManagedResources ns = Err JsonError).
    { unfold getManagedResources. rewrite E. simpl.
      destruct (decide (v = "")); [contradiction|]. rewrite Hbad. reflexivity. }
    split; [exact G|].
    intros w req Hns Hf Hpath.
    unfold Reconcile. rewrite bind_run. unfold attempt.
    rewrite GetNamespace_run, Hf, Hns.
    destruct (IsZero (ns_deletionTimestamp ns)) eqn:Z; simpl.
    + rewrite bind_run. unfold lift. rewrite G. reflexivity.
    + destruct Hpath as [?|Hfin]; [discriminate|].
      unfold handleNamespaceDeletion. rewrite Hfin. simpl.
      rewrite bind_run. unfold lift. rewrite G. reflexivity.
Qed.

Lemma ledger_read_witness :
  getManagedResources Ex.ns_no_ledger = Ok []
  ∧ getManagedResources Ex.ns_corrupt = Err JsonError
  ∧ Reconcile "team-a" (Ex.world Ex.ns_corrupt [] [] [])
    = (Err JsonError, advance (GetNamespace "team-a") (Ex.world Ex.ns_corrupt [] [] [])).
Proof.
  split; [exact (proj1 (ledger_read Ex.ns_no_ledger) eq_refl)|].
  destruct (proj2 (ledger_read Ex.ns_corrupt) Ex.corrupt_text
              eq_refl ltac:(vm_compute; discriminate) ltac:(vm_compute; reflexivity)) as [G R].
  split; [exact G|].
  exact (R (Ex.world Ex.ns_corrupt [] [] []) "team-a" eq_refl eq_refl (or_introl eq_refl)).
Defined.

Lemma attempt_run {A} (m : M A) (w : World) :
  attempt m w = (Ok (m w).1, (m w).2).
Proof. unfold attempt. destruct (m w); reflexivity. Qed.

Lemma trace_advance (c : Call) (w : World) : trace (advance c w) = trace w ++ [c].
Proof. reflexivity. Qed.

Lemma with_objects_same (w : World) : with_objects w (objects w) = w.
Proof. destruct w; reflexivity. Qed.

Lemma with_namespaces_same (w : World) : with_namespaces w (namespaces w) = w.
Proof. destruct w; reflexivity. Qed.

Lemma UpdateNamespace_run (ns : Namespace) (w : World) :
  client.UpdateNamespace ns w
  = match fault_at w 0 with
    | Some f => (Err (fault_error f), advance (UpdateNamespace ns) w)
    | None =>
        match namespaces w !! ns_name ns with
        | Some _ => (Ok tt, with_namespaces (advance (UpdateNamespace ns) w)
                              (<[ns_name ns := ns]> (namespaces w)))
        | None => (Err NotFound, advance (UpdateNamespace ns) w)
        end
    end.
Proof.
  unfold client.UpdateNamespace. rewrite call_run.
  destruct (fault_at w 0); reflexivity.
Qed.

Lemma GetClass_run (name : string) (w : World) :
  client.GetClass name w
  = match fault_at w 0 with
    | Some f => (Err (fault_error f), advance (GetClass name) w)
    | None =>
        (match classes w !! name with
         | Some c => Ok c
         | None => Err NotFound
         end, advance (GetClass name) w)
    end.
Proof.
  unfold client.GetClass. rewrite call_run.
  destruct (fault_at w 0); [reflexivity|]. simpl.
  destruct (classes w !! name); reflexivity.
Qed.

(** ** The accessors of unstructured objects *)

Lemma shell_key (av k n namespace : string) :
  client.obj_key
    (Unstr.SetNamespace (Unstr.SetName (Unstr.SetKind (Unstr.SetAPIVersion ∅ av) k) n) namespace)
  = (av, k, namespace, n).
Proof.
  unfold client.obj_key, Unstr.SetNamespace, Unstr.SetName, Unstr.SetKind,
    Unstr.SetAPIVersion, Unstr.set_metadata_string, Unstr.remove_metadata,
    Unstr.set_metadata, Unstr.GetAPIVersion, Unstr.GetKind, Unstr.GetNamespace,
    Unstr.GetName, Unstr.metadata_string, Unstr.metadata, Unstr.field_string.
  destruct (decide (n = "")) as [->|Hn], (decide (namespace = "")) as [->|Hs];
    repeat (simplify_map_eq; try reflexivity).
Qed.

(** ** Deleting *)

Lemma deleteResource_run (namespace : string) (res : ManagedResource) (w : World) :
  deleteResource namespace res w
  = (if delete_fails w res then Err (delete_error w) else Ok tt,
     after_delete namespace res w).
Proof.
  unfold deleteResource. rewrite bind_run, attempt_run.
  unfold client.Delete. rewrite shell_key. rewrite call_run.
  unfold delete_fails, delete_error, after_delete, delete_fails, DeleteCall.
  destruct (fault_at w 0) as [f|] eqn:F; simpl.
  - destruct f; reflexivity.
  - destruct (client.typed (APIVersion res) (Kind res)); simpl; [|reflexivity].
    destruct (objects w !! (APIVersion res, Kind res, namespace, Name res)) eqn:L; simpl.
    + reflexivity.
    + rewrite delete_id by exact L.
      change (objects w) with (objects (advance (DeleteObject (APIVersion res) (Kind res) namespace (Name res)) w)).
      rewrite with_objects_same. reflexivity.
Qed.

Lemma delete_error_not_NotFound (w : World) : IsNotFound (delete_error w) = false.
Proof. unfold delete_error. destruct (fault_at w 0) as [[]|]; reflexivity. Qed.

Lemma after_delete_trace namespace res w :
  trace (after_delete namespace res w) = trace w ++ [DeleteCall namespace res].
Proof. unfold after_delete. destruct (delete_fails w res); reflexivity. Qed.

Lemma after_delete_namespaces namespace res w :
  namespaces (after_delete namespace res w) = namespaces w.
Proof. unfold after_delete. destruct (delete_fails w res); reflexivity. Qed.

Lemma after_delete_classes namespace res w :
  classes (after_delete namespace res w) = classes w.
Proof. unfold after_delete. destruct (delete_fails w res); reflexivity. Qed.

Lemma after_delete_fault_at namespace res w i :
  fault_at (after_delete namespace res w) i = fault_at w (S i).
Proof.
  unfold after_delete. destruct (delete_fails w res); simpl;
    apply (fault_at_advance (DeleteCall namespace res) w i).
Qed.

Lemma after_delete_objects namespace res w :
  objects (after_delete namespace res w)
  = if delete_fails w res then objects w
    else delete (APIVersion res, Kind res, namespace, Name res) (objects w).
Proof. unfold after_delete. destruct (delete_fails w res); reflexivity. Qed.

Lemma after_deletes_trace namespace l : ∀ w,
  trace (after_deletes namespace l w) = trace w ++ (DeleteCall namespace <$> l).
Proof.
  induction l as [|res l IH]; intros w; simpl.
  - rewrite app_nil_r. reflexivity.
  - unfold after_deletes in *. simpl. rewrite IH, after_delete_trace, <- app_assoc. reflexivity.
Qed.

Lemma after_deletes_namespaces namespace l : ∀ w,
  namespaces (after_deletes namespace l w) = namespaces w.
Proof.
  induction l as [|res l IH]; intros w; [reflexivity|].
  unfold after_deletes in *. simpl. rewrite IH. apply after_delete_namespaces.
Qed.

Lemma after_deletes_classes namespace l : ∀ w,
  classes (after_deletes namespace l w) = classes w.
Proof.
  induction l as [|res l IH]; intros w; [reflexivity|].
  unfold after_deletes in *. simpl. rewrite IH. apply after_delete_classes.
Qed.

Lemma after_deletes_fault_at namespace l : ∀ w i,
  fault_at (after_deletes namespace l w) i = fault_at w (length l + i).
Proof.
  induction l as [|res l IH]; intros w i; [reflexivity|].
  unfold after_deletes in *. simpl. rewrite IH, after_delete_fault_at.
  reflexivity.
Qed.

(** Deleting never brings an object into being. *)
Lemma after_deletes_objects_sub namespace l : ∀ w k u,
  objects (after_deletes namespace l w) !! k = Some u → objects w !! k = Some u.
Proof.
  induction l as [|res l IH]; intros w k u H; [exact H|].
  unfold after_deletes in *. simpl in H. apply IH in H.
  rewrite after_delete_objects in H. destruct (delete_fails w res); [exact H|].
  apply lookup_delete_Some in H. tauto.
Qed.

(** When no deletion fails, none of the listed objects is left. *)
Lemma after_deletes_objects_gone namespace l : ∀ w res,
  some_deletion_fails namespace l w = false → res ∈ l →
  objects (after_deletes namespace l w) !! (APIVersion res, Kind res, namespace, Name res) = None.
Proof.
  induction l as [|r l IH]; intros w res Hno Hin; [inversion Hin|].
  simpl in Hno. apply orb_false_iff in Hno as [Hr Hl].
  unfold after_deletes in *. simpl.
  destruct (objects (foldl (λ w0 res0, after_delete namespace res0 w0)
                       (after_delete namespace r w) l)
              !! (APIVersion res, Kind res, namespace, Name res)) as [u|] eqn:L;
    [|reflexivity].
  apply elem_of_cons in Hin as [->|Hin].
  - apply after_deletes_objects_sub in L. rewrite after_delete_objects, Hr in L.
    rewrite lookup_delete_eq in L. discriminate.
  - rewrite (IH _ _ Hl Hin) in L. discriminate.
Qed.

(** The objects the deletions do not name stay as they are. *)
Lemma after_deletes_objects_other namespace l : ∀ w k,
  (∀ res, res ∈ l → (APIVersion res, Kind res, namespace, Name res) ≠ k) →
  objects (after_deletes namespace l w) !! k = objects w !! k.
Proof.
  induction l as [|r l IH]; intros w k Hk; [reflexivity|].
  unfold after_deletes in *. simpl. rewrite IH.
  - rewrite after_delete_objects. destruct (delete_fails w r); [reflexivity|].
    apply lookup_delete_ne. apply Hk. left.
  - intros res Hin. apply Hk. right. exact Hin.
Qed.

Lemma deleteAllManaged_run namespace managed : ∀ w acc,
  deleteAllManaged namespace managed acc w
  = (Ok (acc && negb (some_deletion_fails namespace managed w)),
     after_deletes namespace managed w).
Proof.
  induction managed as [|res l IH]; intros w acc; simpl.
  - rewrite andb_true_r. reflexivity.
  - rewrite bind_run, attempt_run, deleteResource_run. simpl.
    destruct (delete_fails w res) eqn:F; simpl.
    + rewrite delete_error_not_NotFound. simpl. rewrite IH. simpl.
      rewrite andb_false_r. reflexivity.
    + rewrite IH. reflexivity.
Qed.

Lemma cleanUpManaged_run namespace l : ∀ w,
  cleanUpManaged namespace l w = (Ok tt, after_deletes namespace l w).
Proof.
  induction l as [|res l IH]; intros w; simpl; [reflexivity|].
  rewrite bind_run, attempt_run, deleteResource_run. simpl. apply IH.
Qed.

Lemma RemoveFinalizer_gone (ns : Namespace) (f : string) :
  f ∉ ns_finalizers (RemoveFinalizer ns f).
Proof.
  unfold RemoveFinalizer. simpl. intros H. apply list_elem_of_filter in H. tauto.
Qed.

Lemma containsString_elem (l : list string) (s : string) :
  containsString l s = true ↔ s ∈ l.
Proof.
  induction l as [|x l IH]; simpl.
  - split; [discriminate | intros H; inversion H].
  - destruct (decide (x = s)) as [->|N].
    + split; [intros _; left | reflexivity].
    + rewrite IH. split; [intros H; right; exact H|].
      intros H. apply elem_of_cons in H as [->|H]; [contradiction | exact H].
Qed.

(** ** Tearing down a namespace that is being deleted *)

(** C4. A namespace with a deletion timestamp and the finalizer: the pass
    fetches it and then tries to delete every ledgered descriptor, in ledger
    order.  If one of these deletions fails with an error other than
    not-found, the result is a requeue after 10 seconds without error, and
    no namespace is written, so the finalizer stays.  Otherwise the next call
    is the update that takes the finalizer away; when it goes through, the
    result is empty, the stored namespace has lost the finalizer and no
    ledgered object is left; when it does not, the pass ends in that error
    and the namespace is as before. *)
Theorem teardown_keeps_finalizer_until_all_deleted
    (w : World) (req : string) (ns : Namespace) (managed : list ManagedResource) :
  namespaces w !! req = Some ns → ns_name ns = req → fault_at w 0 = None →
  IsZero (ns_deletionTimestamp ns) = false →
  containsString (ns_finalizers ns) NamespaceFinalizer = true →
  getManagedResources ns = Ok managed →
  let r := (Reconcile req w).1 in
  let w' := (Reconcile req w).2 in
  let w1 := advance (GetNamespace req) w in
  let stripped := RemoveFinalizer ns NamespaceFinalizer in
  classes w' = classes w
  ∧ if some_deletion_fails req managed w1 then
      r = Ok {| Requeue := false; RequeueAfter := 10 * Second |}
      ∧ trace w' = trace w ++ GetNamespace req :: (DeleteCall req <$> managed)
      ∧ namespaces w' = namespaces w
    else
      trace w' = trace w ++ GetNamespace req :: (DeleteCall req <$> managed)
                   ++ [UpdateNamespace stripped]
      ∧ (∀ res, res ∈ managed →
           objects w' !! (APIVersion res, Kind res, req, Name res) = None)
      ∧ match fault_at w (S (length managed)) with
        | None =>
            r = Ok NoResult
            ∧ namespaces w' = <[req := stripped]> (namespaces w)
            ∧ NamespaceFinalizer ∉ ns_finalizers stripped
        | Some f => r = Err (fault_error f) ∧ namespaces w' = namespaces w
        end.
Proof.
  intros Hns Hname Hf Hdel Hfin Hled. simpl.
  unfold Reconcile. rewrite bind_run, attempt_run, GetNamespace_run, Hf, Hns. simpl.
  rewrite Hdel. simpl.
  unfold handleNamespaceDeletion. rewrite Hfin. simpl.
  rewrite bind_run. unfold lift. rewrite Hled.
  rewrite bind_run, deleteAllManaged_run, Hname. simpl.
  set (w1 := advance (GetNamespace req) w).
  destruct (some_deletion_fails req managed w1) eqn:F; simpl.
  - rewrite after_deletes_classes, after_deletes_trace, after_deletes_namespaces.
    unfold w1. rewrite trace_advance, <- app_assoc. auto.
  - assert (Efa : fault_at (after_deletes req managed w1) 0 = fault_at w (S (length managed))).
    { rewrite after_deletes_fault_at, Nat.add_0_r. apply fault_at_advance. }
    assert (Etr : trace (after_deletes req managed w1)
                  = trace w ++ GetNamespace req :: (DeleteCall req <$> managed)).
    { rewrite after_deletes_trace. unfold w1. rewrite trace_advance, <- app_assoc. reflexivity. }
    assert (Egone : ∀ res, res ∈ managed →
              objects (after_deletes req managed w1)
                !! (APIVersion res, Kind res, req, Name res) = None).
    { intros res Hin. apply (after_deletes_objects_gone req managed w1 res F Hin). }
    rewrite bind_run, UpdateNamespace_run, Efa.
    rewrite after_deletes_namespaces.
    change (namespaces w1) with (namespaces w).
    change (ns_name (RemoveFinalizer ns NamespaceFinalizer)) with (ns_name ns).
    rewrite Hname, Hns.
    destruct (fault_at w (S (length managed))) as [f|] eqn:F2; simpl.
    + rewrite after_deletes_classes, Etr, after_deletes_namespaces, <- !app_assoc.
      simpl. auto.
    + rewrite after_deletes_classes, Etr, <- !app_assoc. simpl.
      split; [reflexivity|]. split; [reflexivity|]. split; [exact Egone|].
      split; [reflexivity|]. split; [reflexivity|]. apply RemoveFinalizer_gone.
Qed.

Lemma teardown_keeps_finalizer_until_all_deleted_witness :
  (Reconcile "team-a" Ex.w_deleting).1 = Ok {| Requeue := false; RequeueAfter := 10 * Second |}
  ∧ namespaces (Reconcile "team-a" Ex.w_deleting).2 = namespaces Ex.w_deleting
  ∧ NamespaceFinalizer ∈ ns_finalizers Ex.ns_deleting.
Proof.
  pose proof (teardown_keeps_finalizer_until_all_deleted Ex.w_deleting "team-a"
                Ex.ns_deleting Ex.ledger eq_refl eq_refl eq_refl eq_refl eq_refl
                ltac:(vm_compute; reflexivity)) as H.
  cbv zeta in H. destruct H as [_ H].
  replace (some_deletion_fails "team-a" Ex.ledger (advance (GetNamespace "team-a") Ex.w_deleting))
    with true in H by (vm_compute; reflexivity).
  destruct H as (Hr & _ & Hn).
  split; [exact Hr|]. split; [exact Hn|]. left.
Defined.

(** ** A namespace without class label *)

(** C2. What the branch without class label does when a deletion fails: the
    namespace owns settings and token, the deletion of settings ends in
    "unavailable"; the pass goes on, takes the finalizer away, clears the
    ledger and returns the empty result without error, and settings is still
    there, listed nowhere. *)
Theorem unbound_cleanup_ignores_failed_deletion :
  let out := Reconcile "team-a" Ex.w_unbound in
  getManagedResources Ex.ns_unbound = Ok Ex.ledger
  ∧ (deleteResource "team-a" (descriptor (Ex.decoded Ex.settings))
       (advance (GetNamespace "team-a") Ex.w_unbound)).1 = Err Unavailable
  ∧ out.1 = Ok NoResult
  ∧ ns_finalizers <$> namespaces out.2 !! "team-a" = Some []
  ∧ (namespaces out.2 !! "team-a") ≫= (λ ns, ns_annotations ns !! AnnotationKey) = None
  ∧ is_Some (objects out.2 !! ("v1", "ConfigMap", "team-a", "settings"))
  ∧ deleted_keys (trace out.2)
    = [("v1", "ConfigMap", "team-a", "settings"); ("v1", "Secret", "team-a", "token")].
Proof.
  cbv zeta. split_and!; try (vm_compute; reflexivity).
  apply (bool_decide_unpack _). vm_compute. exact I.
Qed.

(** ** Binding a namespace *)

Lemma AddFinalizer_elem (ns : Namespace) (f : string) :
  f ∈ ns_finalizers (AddFinalizer ns f).
Proof.
  unfold AddFinalizer. case_bool_decide as H; [exact H|].
  simpl. apply elem_of_app. right. left.
Qed.

Lemma AddFinalizer_name (ns : Namespace) (f : string) :
  ns_name (AddFinalizer ns f) = ns_name ns.
Proof. unfold AddFinalizer. case_bool_decide; reflexivity. Qed.

(** ** Templates *)

Lemma validateResource_missing (u : Unstructured) :
  Unstr.GetAPIVersion u = "" ∨ Unstr.GetKind u = "" ∨ Unstr.GetName u = "" →
  ∃ why, validateResource u = Some why.
Proof.
  unfold validateResource. intros H.
  repeat case_decide; eauto. exfalso. tauto.
Qed.

Lemma parseResources_from_missing (raws : list string) (className : string) :
  ∀ acc,
    (∃ raw, raw ∈ raws ∧ ∀ u, UnmarshalUnstructured raw = Ok u →
       Unstr.GetAPIVersion u = "" ∨ Unstr.GetKind u = "" ∨ Unstr.GetName u = "") →
    ∃ e, parseResources_from raws className acc = Err e.
Proof.
  induction raws as [|r raws IH]; intros acc (raw & Hin & Hbad).
  - inversion Hin.
  - simpl. destruct (UnmarshalUnstructured r) as [u|e] eqn:U; [|eauto].
    destruct (validateResource u) as [why|] eqn:V; [eauto|].
    apply elem_of_cons in Hin as [->|Hin].
    + destruct (validateResource_missing u (Hbad u U)) as [why W]. congruence.
    + apply IH. eauto.
Qed.

(** C7. The pass has fetched the namespace (not being deleted, finalizer
    set, ledger readable) and its class, and one manifest of the class lacks
    apiVersion, kind or name: the pass ends in an error right there.  The two
    fetches are its only calls, so no template is applied, nothing is
    deleted and the ledger annotation stays as it is. *)
Theorem invalid_template_aborts_pass
    (w : World) (req className : string) (ns : Namespace) (nsc : NamespaceClass)
    (current : list ManagedResource) :
  namespaces w !! req = Some ns → fault_at w 0 = None →
  IsZero (ns_deletionTimestamp ns) = true →
  ns_labels ns !! LabelKey = Some className →
  containsString (ns_finalizers ns) NamespaceFinalizer = true →
  getManagedResources ns = Ok current →
  classes w !! className = Some nsc → fault_at w 1 = None →
  (∃ raw, raw ∈ nsc_resources nsc ∧ ∀ u, UnmarshalUnstructured raw = Ok u →
     Unstr.GetAPIVersion u = "" ∨ Unstr.GetKind u = "" ∨ Unstr.GetName u = "") →
  let w' := (Reconcile req w).2 in
  (∃ e, (Reconcile req w).1 = Err e)
  ∧ trace w' = trace w ++ [GetNamespace req; GetClass className]
  ∧ objects w' = objects w ∧ namespaces w' = namespaces w ∧ classes w' = classes w.
Proof.
  intros Hns Hf Hdel Hlab Hfin Hled Hcls Hf1 Hbad. cbv zeta.
  unfold Reconcile. rewrite bind_run, attempt_run, GetNamespace_run, Hf, Hns. simpl.
  rewrite Hdel. simpl. rewrite bind_run. unfold lift. rewrite Hled, Hlab, Hfin. simpl.
  rewrite bind_run, attempt_run, GetClass_run, fault_at_advance, Hf1.
  change (classes (advance (GetNamespace req) w)) with (classes w). rewrite Hcls. simpl.
  rewrite bind_run.
  destruct (parseResources_from_missing (nsc_resources nsc) className [] Hbad) as [e He].
  unfold parseResources. rewrite He. simpl.
  rewrite <- app_assoc. eauto 10.
Qed.

Lemma invalid_template_aborts_pass_witness :
  (∃ e, (Reconcile "team-a" Ex.w_invalid).1 = Err e)
  ∧ objects (Reconcile "team-a" Ex.w_invalid).2 = objects Ex.w_invalid
  ∧ namespaces (Reconcile "team-a" Ex.w_invalid).2 = namespaces Ex.w_invalid.
Proof.
  assert (Hbad : ∃ raw, raw ∈ nsc_resources (Ex.class "standard" [Ex.quota; Ex.nameless; Ex.settings])
                 ∧ ∀ u, UnmarshalUnstructured raw = Ok u →
                     Unstr.GetAPIVersion u = "" ∨ Unstr.GetKind u = "" ∨ Unstr.GetName u = "").
  { exists Ex.nameless. split; [right; left|].
    intros u U. right. right.
    assert (E : UnmarshalUnstructured Ex.nameless = Ok (Ex.decoded Ex.nameless))
      by (vm_compute; reflexivity).
    assert (Eu : u = Ex.decoded Ex.nameless) by congruence.
    rewrite Eu. vm_compute. reflexivity. }
  pose proof (invalid_template_aborts_pass Ex.w_invalid "team-a" "standard" Ex.ns_bound
                (Ex.class "standard" [Ex.quota; Ex.nameless; Ex.settings]) Ex.ledger
                eq_refl eq_refl eq_refl eq_refl eq_refl
                ltac:(vm_compute; reflexivity) eq_refl eq_refl Hbad) as H.
  cbv zeta in H. destruct H as (He & _ & Ho & Hn & _).
  exact (conj He (conj Ho Hn)).
Defined.

(** ** Setters and getters of unstructured objects *)

Section Accessors.
Variables (u : Unstructured) (m : gmap string JSON).
Hypothesis Hm : u !! "metadata" = Some (JObj m).

Lemma set_metadata_lookup (f : string) (v : JSON) :
  Unstr.set_metadata u f v = <["metadata" := JObj (<[f := v]> m)]> u.
Proof. unfold Unstr.set_metadata. rewrite Hm. reflexivity. Qed.

Lemma remove_metadata_lookup (f : string) :
  Unstr.remove_metadata u f = <["metadata" := JObj (delete f m)]> u.
Proof. unfold Unstr.remove_metadata. rewrite Hm. reflexivity. Qed.

(** A string written into the metadata reads back, the empty string as
    the field's absence. *)
Lemma set_metadata_string_shape (f s : string) :
  ∃ m', Unstr.set_metadata_string u f s = <["metadata" := JObj m']> u
        ∧ Unstr.field_string m' f = s
        ∧ ∀ g, g ≠ f → m' !! g = m !! g.
Proof.
  unfold Unstr.set_metadata_string. destruct (decide (s = "")) as [->|Hs].
  - exists (delete f m). rewrite remove_metadata_lookup. split; [reflexivity|]. split.
    + unfold Unstr.field_string. rewrite lookup_delete_eq. reflexivity.
    + intros g Hg. apply lookup_delete_ne. congruence.
  - exists (<[f := JStr s]> m). rewrite set_metadata_lookup. split; [reflexivity|]. split.
    + unfold Unstr.field_string. rewrite lookup_insert_eq. reflexivity.
    + intros g Hg. apply lookup_insert_ne. congruence.
Qed.
End Accessors.

(** What a change inside the metadata leaves alone. *)
Lemma metadata_change_top (u : Unstructured) (m' : gmap string JSON) (k : string) :
  k ≠ "metadata" → (<["metadata" := JObj m']> u) !! k = u !! k.
Proof. intros H. apply lookup_insert_ne. congruence. Qed.

Lemma metadata_change_read (u : Unstructured) (m' : gmap string JSON) :
  Unstr.metadata (<["metadata" := JObj m']> u) = Some m'.
Proof. unfold Unstr.metadata. rewrite lookup_insert_eq. reflexivity. Qed.

Lemma metadata_change_hash (u : Unstructured) (m' : gmap string JSON) :
  calculateResourceHash (<["metadata" := JObj m']> u) = calculateResourceHash u.
Proof.
  rewrite !hash_reads_spec, metadata_change_top by discriminate. reflexivity.
Qed.

Lemma metadata_change_type (u : Unstructured) (m' : gmap string JSON) :
  Unstr.GetAPIVersion (<["metadata" := JObj m']> u) = Unstr.GetAPIVersion u
  ∧ Unstr.GetKind (<["metadata" := JObj m']> u) = Unstr.GetKind u.
Proof.
  unfold Unstr.GetAPIVersion, Unstr.GetKind, Unstr.field_string.
  rewrite !metadata_change_top by discriminate. split; reflexivity.
Qed.

Lemma metadata_change_field (u : Unstructured) (m' : gmap string JSON) (f : string) :
  Unstr.metadata_string (<["metadata" := JObj m']> u) f = Unstr.field_string m' f.
Proof. unfold Unstr.metadata_string. rewrite metadata_change_read. reflexivity. Qed.

Lemma field_string_agree (m m' : gmap string JSON) (f : string) :
  m' !! f = m !! f → Unstr.field_string m' f = Unstr.field_string m f.
Proof. unfold Unstr.field_string. intros ->. reflexivity. Qed.

Lemma metadata_string_read (u : Unstructured) (m : gmap string JSON) (f : string) :
  u !! "metadata" = Some (JObj m) → Unstr.metadata_string u f = Unstr.field_string m f.
Proof. intros H. unfold Unstr.metadata_string, Unstr.metadata. rewrite H. reflexivity. Qed.

(** An object with a name has a metadata map. *)
Lemma named_has_metadata (u : Unstructured) :
  Unstr.GetName u ≠ "" → ∃ m, u !! "metadata" = Some (JObj m).
Proof.
  unfold Unstr.GetName, Unstr.metadata_string, Unstr.metadata.
  destruct (u !! "metadata") as [[| | | | |m]|]; try (intros H; exfalso; apply H; reflexivity).
  eauto.
Qed.

Lemma string_map_of_strings (a : gmap string string) :
  Unstr.string_map (JStr <$> a) = Some a.
Proof.
  unfold Unstr.string_map. rewrite decide_True.
  - f_equal. apply map_eq. intros k. rewrite lookup_omap, lookup_fmap.
    destruct (a !! k); reflexivity.
  - intros k v H. rewrite lookup_fmap in H.
    destruct (a !! k); simpl in H; [|discriminate]. injection H as <-. eexists. reflexivity.
Qed.

Lemma GetAnnotations_read (u : Unstructured) (m : gmap string JSON) :
  u !! "metadata" = Some (JObj m) →
  Unstr.GetAnnotations u = match m !! "annotations" with
                           | Some (JObj a) => Unstr.string_map a
                           | _ => None
                           end.
Proof. intros H. unfold Unstr.GetAnnotations, Unstr.metadata. rewrite H. reflexivity. Qed.

(** The object as the loop hands it to [createOrUpdateResource]. *)
Lemma stamp_shape (namespace className : string) (u : Unstructured) :
  Unstr.GetName u ≠ "" →
  let u' := (stamp namespace className u).1 in
  (stamp namespace className u).2 = calculateResourceHash u
  ∧ client.obj_key u' = (Unstr.GetAPIVersion u, Unstr.GetKind u, namespace, Unstr.GetName u)
  ∧ tagged u'
  ∧ Unstr.index (Unstr.GetAnnotations u') ResourceHashAnnotation = calculateResourceHash u
  ∧ (∃ m', u' !! "metadata" = Some (JObj m')).
Proof.
  intros Hname. destruct (named_has_metadata u Hname) as [m Hm].
  destruct (set_metadata_string_shape u m Hm "namespace" namespace) as (m1 & E1 & Hns & Hother).
  cbv zeta. unfold stamp. unfold Unstr.SetNamespace. rewrite E1. simpl.
  rewrite metadata_change_hash.
  set (ann := <[ResourceHashAnnotation := calculateResourceHash u]> _).
  assert (Hm1 : (<["metadata" := JObj m1]> u) !! "metadata" = Some (JObj m1))
    by apply lookup_insert_eq.
  unfold Unstr.SetAnnotations.
  rewrite (set_metadata_lookup _ m1 Hm1), insert_insert_eq.
  assert (Hann : Unstr.GetAnnotations
                   (<["metadata" := JObj (<["annotations" := JObj (JStr <$> ann)]> m1)]> u)
                 = Some ann).
  { rewrite (GetAnnotations_read _ _ (lookup_insert_eq _ _ _)).
    rewrite lookup_insert_eq. apply string_map_of_strings. }
  split; [reflexivity|]. split; [|split; [|split]].
  - unfold client.obj_key.
    destruct (metadata_change_type u (<["annotations" := JObj (JStr <$> ann)]> m1)) as [-> ->].
    unfold Unstr.GetNamespace, Unstr.GetName. rewrite !metadata_change_field.
    rewrite (metadata_string_read u m "name" Hm).
    rewrite (field_string_agree m1 _ "namespace"), Hns
      by (rewrite lookup_insert_ne by discriminate; reflexivity).
    rewrite (field_string_agree m _ "name")
      by (rewrite lookup_insert_ne by discriminate; apply Hother; discriminate).
    reflexivity.
  - unfold tagged. rewrite Hann. unfold Unstr.index, ann. simpl.
    rewrite lookup_insert_ne by discriminate.
    rewrite lookup_insert_ne by discriminate.
    rewrite lookup_insert_eq. reflexivity.
  - rewrite Hann. unfold Unstr.index, ann. simpl. rewrite lookup_insert_eq. reflexivity.
  - eexists. apply lookup_insert_eq.
Qed.

Lemma SetResourceVersion_shape (d : Unstructured) (m : gmap string JSON) (rv : string) :
  d !! "metadata" = Some (JObj m) →
  let d' := Unstr.SetResourceVersion d rv in
  client.obj_key d' = client.obj_key d
  ∧ Unstr.GetAnnotations d' = Unstr.GetAnnotations d.
Proof.
  intros Hm. cbv zeta. unfold Unstr.SetResourceVersion.
  destruct (set_metadata_string_shape d m Hm "resourceVersion" rv) as (m1 & -> & _ & Hother).
  split.
  - unfold client.obj_key. destruct (metadata_change_type d m1) as [-> ->].
    unfold Unstr.GetNamespace, Unstr.GetName. rewrite !metadata_change_field.
    rewrite !(metadata_string_read d m _ Hm).
    rewrite !(field_string_agree m m1) by (apply Hother; discriminate). reflexivity.
  - rewrite (GetAnnotations_read _ m1 (lookup_insert_eq _ _ _)).
    rewrite (GetAnnotations_read d m Hm). rewrite Hother by discriminate. reflexivity.
Qed.

Lemma same_type_as_type (d : Unstructured) :
  Unstr.GetAPIVersion (Unstr.same_type_as d) = Unstr.GetAPIVersion d
  ∧ Unstr.GetKind (Unstr.same_type_as d) = Unstr.GetKind d.
Proof.
  unfold Unstr.same_type_as, Unstr.SetKind, Unstr.SetAPIVersion, Unstr.GetAPIVersion,
    Unstr.GetKind, Unstr.field_string.
  rewrite lookup_insert_ne by discriminate. rewrite !lookup_insert_eq. split; reflexivity.
Qed.

(** ** Creating and updating *)

Lemma Get_run (namespace name : string) (existing : Unstructured) (w : World) :
  client.Get namespace name existing w
  = let av := Unstr.GetAPIVersion existing in
    let k := Unstr.GetKind existing in
    match fault_at w 0 with
    | Some f => (Err (fault_error f), advance (GetObject av k namespace name) w)
    | None =>
        (if client.typed av k then
           match objects w !! (av, k, namespace, name) with
           | Some u => Ok u
           | None => Err NotFound
           end
         else Err NoType, advance (GetObject av k namespace name) w)
    end.
Proof.
  unfold client.Get. cbv zeta. rewrite call_run.
  destruct (fault_at w 0); [reflexivity|]. simpl.
  destruct (client.typed _ _); [|reflexivity].
  destruct (objects w !! _); reflexivity.
Qed.

Lemma Create_run (u : Unstructured) (w : World) :
  client.Create u w
  = match fault_at w 0 with
    | Some f => (Err (fault_error f), advance (CreateObject u) w)
    | None =>
        if client.typed (Unstr.GetAPIVersion u) (Unstr.GetKind u) then
          match objects w !! client.obj_key u with
          | Some _ => (Err AlreadyExists, advance (CreateObject u) w)
          | None => (Ok tt, with_objects (advance (CreateObject u) w)
                              (<[client.obj_key u := u]> (objects w)))
          end
        else (Err NoType, advance (CreateObject u) w)
    end.
Proof.
  unfold client.Create. rewrite call_run. destruct (fault_at w 0); reflexivity.
Qed.

Lemma Update_run (u : Unstructured) (w : World) :
  client.Update u w
  = match fault_at w 0 with
    | Some f => (Err (fault_error f), advance (UpdateObject u) w)
    | None =>
        if client.typed (Unstr.GetAPIVersion u) (Unstr.GetKind u) then
          match objects w !! client.obj_key u with
          | Some _ => (Ok tt, with_objects (advance (UpdateObject u) w)
                                (<[client.obj_key u := u]> (objects w)))
          | None => (Err NotFound, advance (UpdateObject u) w)
          end
        else (Err NoType, advance (UpdateObject u) w)
    end.
Proof.
  unfold client.Update. rewrite call_run. destruct (fault_at w 0); reflexivity.
Qed.

(** The object is already there with the hash of the desired one: one fetch,
    nothing written. *)
Lemma createOrUpdateResource_converged
    (d e : Unstructured) (av kd ns n : string) (w : World) :
  client.obj_key d = (av, kd, ns, n) → client.typed av kd = true →
  objects w !! (av, kd, ns, n) = Some e →
  Unstr.index (Unstr.GetAnnotations e) ResourceHashAnnotation
  = Unstr.index (Unstr.GetAnnotations d) ResourceHashAnnotation →
  createOrUpdateResource d w
  = (match fault_at w 0 with
     | Some f => Err (fault_error f)
     | None => Ok d
     end, advance (GetObject av kd ns n) w).
Proof.
  intros Hk Ht He Hh. unfold createOrUpdateResource.
  rewrite bind_run, attempt_run, Get_run. cbv zeta.
  destruct (same_type_as_type d) as [-> ->].
  unfold client.obj_key in Hk. injection Hk as Hav Hkd Hns Hn.
  rewrite Hav, Hkd, Hns, Hn.
  destruct (fault_at w 0) as [f|]; simpl.
  - destruct f; reflexivity.
  - rewrite Ht, He. simpl. rewrite decide_False by (intros H; apply H; exact Hh).
    reflexivity.
Qed.

(** What one round of the loop does to the store, when it ends well. *)
Lemma createOrUpdateResource_store
    (d d' : Unstructured) (m : gmap string JSON) (k : ObjKey) (w w' : World) :
  client.obj_key d = k → d !! "metadata" = Some (JObj m) →
  createOrUpdateResource d w = (Ok d', w') →
  namespaces w' = namespaces w ∧ classes w' = classes w
  ∧ client.obj_key d' = k
  ∧ Unstr.GetAnnotations d' = Unstr.GetAnnotations d
  ∧ (objects w' = objects w
     ∧ (∃ e, objects w !! k = Some e
             ∧ Unstr.index (Unstr.GetAnnotations e) ResourceHashAnnotation
               = Unstr.index (Unstr.GetAnnotations d) ResourceHashAnnotation)
     ∨ objects w' = <[k := d']> (objects w)).
Proof.
  intros Hk Hm. unfold createOrUpdateResource.
  rewrite bind_run, attempt_run, Get_run. cbv zeta.
  destruct (same_type_as_type d) as [-> ->].
  assert (Hk' : (Unstr.GetAPIVersion d, Unstr.GetKind d, Unstr.GetNamespace d, Unstr.GetName d) = k)
    by exact Hk.
  rewrite Hk'.
  destruct (fault_at w 0) as [f|]; simpl; [destruct f; discriminate|].
  destruct (client.typed (Unstr.GetAPIVersion d) (Unstr.GetKind d)) eqn:Ht; simpl;
    [|discriminate].
  destruct (objects w !! k) as [e|] eqn:He; simpl.
  - destruct (decide (Unstr.index (Unstr.GetAnnotations e) ResourceHashAnnotation
                      ≠ Unstr.index (Unstr.GetAnnotations d) ResourceHashAnnotation))
      as [Hne|Heq].
    + destruct (SetResourceVersion_shape d m (Unstr.GetResourceVersion e) Hm) as [Hkey Hann].
      rewrite bind_run, Update_run, Hkey, Hk.
      change (objects (advance ?c w)) with (objects w).
      unfold client.obj_key in Hkey. injection Hkey as -> -> _ _.
      rewrite fault_at_advance, Ht, He.
      destruct (fault_at w 1) as [f|]; simpl; [discriminate|].
      intros [= <- <-]. simpl.
      split; [reflexivity|]. split; [reflexivity|].
      destruct (SetResourceVersion_shape d m (Unstr.GetResourceVersion e) Hm) as [Hkey Hann'].
      split; [rewrite Hkey; exact Hk|]. split; [exact Hann'|]. right. reflexivity.
    + intros [= <- <-]. simpl.
      split; [reflexivity|]. split; [reflexivity|]. split; [exact Hk|].
      split; [reflexivity|]. left. split; [reflexivity|].
      exists e. split; [reflexivity|]. destruct (decide (
        Unstr.index (Unstr.GetAnnotations e) ResourceHashAnnotation
        = Unstr.index (Unstr.GetAnnotations d) ResourceHashAnnotation)); [assumption|].
      exfalso. apply Heq. assumption.
  - rewrite bind_run, Create_run, Hk.
    change (objects (advance ?c w)) with (objects w).
    rewrite fault_at_advance, Ht, He.
    destruct (fault_at w 1) as [f|]; simpl; [discriminate|].
    intros [= <- <-]. simpl.
    split; [reflexivity|]. split; [reflexivity|]. split; [exact Hk|].
    split; [reflexivity|]. right. reflexivity.
Qed.

(** ** The loop over the desired resources *)

Lemma valid_fields (u : Unstructured) :
  valid u →
  Unstr.GetAPIVersion u ≠ "" ∧ Unstr.GetKind u ≠ "" ∧ Unstr.GetName u ≠ "".
Proof.
  unfold valid, validateResource. repeat case_decide; try discriminate. auto.
Qed.

Lemma valid_typed (u : Unstructured) :
  valid u → client.typed (Unstr.GetAPIVersion u) (Unstr.GetKind u) = true.
Proof.
  intros H. destruct (valid_fields u H) as (Ha & Hk & _).
  unfold client.typed. rewrite !bool_decide_false by assumption. reflexivity.
Qed.

Lemma parseResources_from_valid (raws : list string) (className : string) :
  ∀ acc l, parseResources_from raws className acc = Ok l → Forall valid acc → Forall valid l.
Proof.
  induction raws as [|r raws IH]; intros acc l; simpl.
  - intros [= <-] H. exact H.
  - destruct (UnmarshalUnstructured r) as [u|e]; [|discriminate].
    destruct (validateResource u) eqn:V; [discriminate|].
    intros Hl Hacc. apply (IH _ _ Hl). apply Forall_app. split; [exact Hacc|].
    apply Forall_singleton. exact V.
Qed.

Lemma parseResources_valid (raws : list string) (className : string) (l : list Unstructured) :
  parseResources raws className = Ok l → Forall valid l.
Proof. intros H. apply (parseResources_from_valid _ _ _ _ H). constructor. Qed.

Lemma tagged_by_annotations (u u' : Unstructured) :
  Unstr.GetAnnotations u' = Unstr.GetAnnotations u → tagged u → tagged u'.
Proof. unfold tagged. intros ->. auto. Qed.

Lemma applyDesired_cons (namespace className : string) (t : Unstructured)
    (ds : list Unstructured) (acc : list ManagedResource) :
  applyDesired namespace className (t :: ds) acc
  = (res ← createOrUpdateResource (stamp namespace className t).1;
     applyDesired namespace className ds
       (acc ++ [{| APIVersion := Unstr.GetAPIVersion res; Kind := Unstr.GetKind res;
                   Name := Unstr.GetName res;
                   Hash := (stamp namespace className t).2 |}])).
Proof. simpl. destruct (stamp namespace className t). reflexivity. Qed.

Lemma applyDesired_store (namespace className : string) (ds : list Unstructured) :
  ∀ acc w managed w',
    Forall valid ds →
    applyDesired namespace className ds acc w = (Ok managed, w') →
    managed = acc ++ (descriptor <$> ds)
    ∧ namespaces w' = namespaces w ∧ classes w' = classes w
    ∧ (∀ k, (∀ t, t ∈ ds → template_key namespace t ≠ k) →
            objects w' !! k = objects w !! k)
    ∧ (∀ t, t ∈ ds →
         ∃ u, objects w' !! template_key namespace t = Some u
              ∧ (tagged u ∨ objects w !! template_key namespace t = Some u)).
Proof.
  induction ds as [|t ds IH]; intros acc w managed w' Hv.
  - simpl. intros [= <- <-]. rewrite app_nil_r.
    split; [reflexivity|]. split; [reflexivity|]. split; [reflexivity|].
    split; [reflexivity|]. intros t Ht. inversion Ht.
  - rewrite applyDesired_cons. apply Forall_cons in Hv as [Hvt Hvds].
    destruct (valid_fields t Hvt) as (_ & _ & Hname).
    pose proof (stamp_shape namespace className t Hname) as Hs. cbv zeta in Hs.
    destruct (stamp namespace className t) as [d h]. simpl in Hs.
    destruct Hs as (-> & Hkey & Htag & Hhash & m & Hm).
    intros Hrun. apply bind_ok in Hrun as (d' & w1 & Hstep & Hrest).
    destruct (createOrUpdateResource_store d d' m _ w w1 Hkey Hm Hstep)
      as (Hn1 & Hc1 & Hkey' & Hann & Hobj).
    destruct (IH _ _ _ _ Hvds Hrest) as (-> & Hn & Hc & Hother & Hlive).
    unfold client.obj_key in Hkey'. injection Hkey' as Ha Hk _ Hnm.
    split.
    { rewrite <- app_assoc. simpl. unfold descriptor at 2. rewrite Ha, Hk, Hnm. reflexivity. }
    split; [congruence|]. split; [congruence|].
    assert (Hfirst : ∃ u, objects w1 !! template_key namespace t = Some u
                     ∧ (tagged u ∨ objects w !! template_key namespace t = Some u)).
    { destruct Hobj as [(Hsame & e & He & _)|Hins].
      - exists e. rewrite Hsame. split; [exact He|]. right. exact He.
      - exists d'. rewrite Hins. split; [apply lookup_insert_eq|]. left.
        apply (tagged_by_annotations d d' Hann Htag). }
    assert (Hkeep : ∀ k, template_key namespace t ≠ k → objects w1 !! k = objects w !! k).
    { intros k Hk'. destruct Hobj as [(Hsame & _)|Hins].
      - rewrite Hsame. reflexivity.
      - rewrite Hins. apply lookup_insert_ne. exact Hk'. }
    split.
    + intros k Hk'. rewrite Hother.
      * apply Hkeep. apply Hk'. left.
      * intros t' Ht'. apply Hk'. right. exact Ht'.
    + intros t' Ht'. apply elem_of_cons in Ht' as [->|Ht'].
      * destruct (decide (Exists (λ x, template_key namespace x = template_key namespace t) ds))
          as [Hex|Hnex].
        -- apply Exists_exists in Hex as (x & Hx & Hxk).
           destruct (Hlive x Hx) as (u & Hu & [Htu|Hu1]).
           ++ exists u. rewrite <- Hxk. auto.
           ++ destruct Hfirst as (u1 & Hu1' & Hor).
              rewrite Hxk in Hu, Hu1. rewrite Hu1' in Hu1. injection Hu1 as <-.
              exists u1. auto.
        -- destruct Hfirst as (u1 & Hu1 & Hor). exists u1. split; [|exact Hor].
           rewrite Hother; [exact Hu1|].
           intros x Hx Hxk. apply Hnex. apply Exists_exists. eauto.
      * destruct (Hlive t' Ht') as (u & Hu & [Htu|Hu1]); [eauto|].
        destruct (decide (template_key namespace t = template_key namespace t')) as [E|N].
        -- destruct Hfirst as (u1 & Hu1' & Hor). rewrite E in Hu1', Hor.
           rewrite Hu1' in Hu1. injection Hu1 as <-. eauto.
        -- exists u. split; [exact Hu|]. right. rewrite <- (Hkeep _ N). exact Hu1.
Qed.

(** ** What a computation leaves alone *)

Section Preservation.
Context {X : Type} (f : World → X).
Hypothesis f_advance : ∀ c w, f (advance c w) = f w.

Lemma preserves_ret {A} (a : A) : preserves f (mret a).
Proof. intros w. reflexivity. Qed.

Lemma preserves_fail {A} (e : Error) : preserves f (@fail A e).
Proof. intros w. reflexivity. Qed.

Lemma preserves_lift {A} (r : Res A) : preserves f (lift r).
Proof. intros w. reflexivity. Qed.

Lemma preserves_bind {A B} (m : M A) (k : A → M B) :
  preserves f m → (∀ a, preserves f (k a)) → preserves f (m ≫= k).
Proof.
  intros Hm Hk w. rewrite bind_run. specialize (Hm w).
  destruct (m w) as [[a|e] w1]; simpl in *; [|exact Hm].
  rewrite (Hk a w1). exact Hm.
Qed.

Lemma preserves_call {A} (c : Call) (op : M A) :
  preserves f op → preserves f (call c op).
Proof.
  intros Hop w. rewrite call_run. destruct (fault_at w 0); simpl.
  - apply f_advance.
  - rewrite Hop. apply f_advance.
Qed.

Lemma preserves_retry (fn : M unit) (steps : nat) :
  preserves f fn → preserves f (RetryOnConflict steps fn).
Proof.
  intros Hfn. induction steps as [|k IH]; intros w; [reflexivity|].
  simpl. specialize (Hfn w). destruct (fn w) as [[[]|e] w1]; simpl in *; [exact Hfn|].
  destruct (IsConflict e); [|exact Hfn].
  destruct k; [exact Hfn|]. rewrite IH. exact Hfn.
Qed.

Lemma preserves_GetNamespace (name : string) : preserves f (client.GetNamespace name).
Proof.
  apply preserves_call. intros w. destruct (namespaces w !! name); reflexivity.
Qed.

Lemma preserves_GetClass (name : string) : preserves f (client.GetClass name).
Proof.
  apply preserves_call. intros w. destruct (classes w !! name); reflexivity.
Qed.
End Preservation.

Lemma preserves_UpdateNamespace {X} (f : World → X) (ns : Namespace) :
  (∀ c w, f (advance c w) = f w) → (∀ w m, f (with_namespaces w m) = f w) →
  preserves f (client.UpdateNamespace ns).
Proof.
  intros Ha Hn. apply preserves_call; [exact Ha|]. intros w.
  destruct (namespaces w !! ns_name ns); simpl; [apply Hn | reflexivity].
Qed.

Lemma preserves_UpdateClassStatus {X} (f : World → X) (c : NamespaceClass) :
  (∀ c w, f (advance c w) = f w) → (∀ w m, f (with_classes w m) = f w) →
  preserves f (client.UpdateClassStatus c).
Proof.
  intros Ha Hn. apply preserves_call; [exact Ha|]. intros w.
  destruct (classes w !! nsc_name c); simpl; [apply Hn | reflexivity].
Qed.

Lemma updateManagedResources_objects ns managed :
  preserves objects (updateManagedResources ns managed).
Proof.
  apply preserves_retry. unfold writeManagedResources.
  apply preserves_bind; [apply preserves_GetNamespace; reflexivity |].
  intros ns0. apply preserves_bind.
  - destruct managed; [apply preserves_ret|].
    apply preserves_bind; [apply preserves_lift |].
    intros data. apply preserves_ret.
  - intros ns1. apply preserves_UpdateNamespace; reflexivity.
Qed.

Lemma updateManagedResources_classes ns managed :
  preserves classes (updateManagedResources ns managed).
Proof.
  apply preserves_retry. unfold writeManagedResources.
  apply preserves_bind; [apply preserves_GetNamespace; reflexivity |].
  intros ns0. apply preserves_bind.
  - destruct managed; [apply preserves_ret|].
    apply preserves_bind; [apply preserves_lift |].
    intros data. apply preserves_ret.
  - intros ns1. apply preserves_UpdateNamespace; reflexivity.
Qed.

Lemma writeNamespaceClassStatus_preserves {X} (f : World → X) nsc namespace :
  (∀ c w, f (advance c w) = f w) → (∀ w m, f (with_classes w m) = f w) →
  preserves f (writeNamespaceClassStatus nsc namespace).
Proof.
  intros Ha Hc. unfold writeNamespaceClassStatus.
  apply preserves_bind; [apply preserves_GetClass; exact Ha |].
  intros c. destruct (negb _); [|apply preserves_ret].
  apply preserves_bind; [intros w; reflexivity |].
  intros t. apply preserves_UpdateClassStatus; assumption.
Qed.

Lemma updateNamespaceClassStatus_objects nsc namespace :
  preserves objects (updateNamespaceClassStatus nsc namespace).
Proof.
  apply preserves_retry.
  apply writeNamespaceClassStatus_preserves; reflexivity.
Qed.


(** ** The calls a computation adds *)

Lemma quiet_ret {A} (a : A) : quiet (mret a).
Proof. intros w. exists []. rewrite app_nil_r. auto. Qed.

Lemma quiet_lift {A} (r : Res A) : quiet (lift r).
Proof. intros w. exists []. rewrite app_nil_r. auto. Qed.

Lemma object_writes_app (l1 l2 : list Call) :
  object_writes (l1 ++ l2) = object_writes l1 ++ object_writes l2.
Proof. apply filter_app. Qed.

Lemma quiet_bind {A B} (m : M A) (k : A → M B) :
  quiet m → (∀ a, quiet (k a)) → quiet (m ≫= k).
Proof.
  intros Hm Hk w. rewrite bind_run. destruct (Hm w) as (c1 & T1 & W1).
  destruct (m w) as [[a|e] w1]; simpl in *; [|eauto].
  destruct (Hk a w1) as (c2 & T2 & W2). exists (c1 ++ c2).
  rewrite T2, T1, app_assoc, object_writes_app, W1, W2. auto.
Qed.

Lemma quiet_call {A} (c : Call) (op : M A) :
  is_object_write c = false → (∀ w, trace (op w).2 = trace w) → quiet (call c op).
Proof.
  intros Hc Hop w. exists [c]. rewrite call_run. split.
  - destruct (fault_at w 0); simpl; [reflexivity|]. rewrite Hop. reflexivity.
  - unfold object_writes. rewrite filter_cons, decide_False; [reflexivity|].
    rewrite Hc. intros [].
Qed.

Lemma quiet_retry (fn : M unit) (steps : nat) :
  quiet fn → quiet (RetryOnConflict steps fn).
Proof.
  intros Hfn. induction steps as [|k IH]; intros w; [apply (quiet_ret tt)|].
  simpl. destruct (Hfn w) as (c1 & T1 & W1).
  destruct (fn w) as [[[]|e] w1]; simpl in *; [eauto|].
  destruct (IsConflict e); [|eauto]. destruct k; [eauto|].
  destruct (IH w1) as (c2 & T2 & W2). exists (c1 ++ c2).
  rewrite T2, T1, app_assoc, object_writes_app, W1, W2. auto.
Qed.

Lemma quiet_GetNamespace (name : string) : quiet (client.GetNamespace name).
Proof.
  apply quiet_call; [reflexivity|]. intros w. destruct (namespaces w !! name); reflexivity.
Qed.

Lemma quiet_UpdateNamespace (ns : Namespace) : quiet (client.UpdateNamespace ns).
Proof.
  apply quiet_call; [reflexivity|]. intros w.
  destruct (namespaces w !! ns_name ns); reflexivity.
Qed.

Lemma quiet_updateManagedResources ns managed : quiet (updateManagedResources ns managed).
Proof.
  apply quiet_retry. unfold writeManagedResources.
  apply quiet_bind; [apply quiet_GetNamespace|]. intros ns0.
  apply quiet_bind; [|intros ns1; apply quiet_UpdateNamespace].
  destruct managed; [apply quiet_ret|].
  apply quiet_bind; [apply quiet_lift|]. intros data. apply quiet_ret.
Qed.

Lemma quiet_updateNamespaceClassStatus nsc namespace :
  quiet (updateNamespaceClassStatus nsc namespace).
Proof.
  apply quiet_retry. unfold writeNamespaceClassStatus.
  apply quiet_bind.
  - apply quiet_call; [reflexivity|]. intros w. destruct (classes w !! _); reflexivity.
  - intros c. destruct (negb _); [|apply quiet_ret].
    apply quiet_bind.
    + intros w. exists []. rewrite app_nil_r. auto.
    + intros t. apply quiet_call; [reflexivity|]. intros w.
      destruct (classes w !! _); reflexivity.
Qed.

(** The end of a pass: ledger, then status. *)
Lemma quiet_finish ns nsc managed name :
  quiet (updateManagedResources ns managed;;
         updateNamespaceClassStatus nsc name;; mret NoResult).
Proof.
  apply quiet_bind; [apply quiet_updateManagedResources|]. intros _.
  apply quiet_bind; [apply quiet_updateNamespaceClassStatus|]. intros _.
  apply quiet_ret.
Qed.

Lemma finish_objects ns nsc managed name :
  preserves objects (updateManagedResources ns managed;;
                     updateNamespaceClassStatus nsc name;; mret NoResult).
Proof.
  apply preserves_bind; [apply updateManagedResources_objects|]. intros _.
  apply preserves_bind; [apply updateNamespaceClassStatus_objects|]. intros _.
  apply preserves_ret.
Qed.

(** ** Removing what is no longer desired *)

Lemma attempted_all namespace l : ∀ w,
  some_deletion_fails namespace l w = false → attempted namespace l w = l.
Proof.
  induction l as [|res l IH]; intros w H; [reflexivity|].
  simpl in *. apply orb_false_iff in H as [-> H]. rewrite IH by exact H. reflexivity.
Qed.

(** The deletions tried are the stale descriptors up to the first that
    fails, that one included. *)
Lemma attempted_until_failure namespace l : ∀ w,
  some_deletion_fails namespace l w = true →
  ∃ done res rest,
    l = done ++ res :: rest
    ∧ attempted namespace l w = done ++ [res]
    ∧ some_deletion_fails namespace done w = false
    ∧ delete_fails (after_deletes namespace done w) res = true.
Proof.
  induction l as [|r l IH]; intros w H; [discriminate|].
  simpl in *. destruct (delete_fails w r) eqn:F.
  - exists [], r, l. auto.
  - simpl in H. destruct (IH _ H) as (done & res & rest & -> & Ha & Hd & Hf).
    exists (r :: done), res, rest. simpl. rewrite F, Ha. simpl. auto.
Qed.

Lemma cleanUpUndesired_run namespace (desiredKeys : gset string) current : ∀ w,
  ∃ r, cleanUpUndesired namespace desiredKeys current w
       = (r, after_deletes namespace (attempted namespace (stale desiredKeys current) w) w)
       ∧ (some_deletion_fails namespace (stale desiredKeys current) w = false → r = Ok tt)
       ∧ (some_deletion_fails namespace (stale desiredKeys current) w = true → ∃ e, r = Err e).
Proof.
  induction current as [|res l IH]; intros w.
  - exists (Ok tt). simpl. split; [reflexivity|]. split; [reflexivity | discriminate].
  - simpl. unfold stale. rewrite filter_cons. case_bool_decide as Hin; simpl.
    + rewrite decide_False by (intros H; apply H; exact Hin). apply IH.
    + rewrite decide_True by exact Hin.
      rewrite bind_run, deleteResource_run. simpl.
      destruct (delete_fails w res) eqn:F; simpl.
      * eexists. split; [reflexivity|]. split; [discriminate | eauto].
      * destruct (IH (after_delete namespace res w)) as (r & -> & H1 & H2).
        exists r. auto.
Qed.

Lemma stale_none (desiredKeys : gset string) (current : list ManagedResource) :
  (∀ res, res ∈ current → resourceKey res ∈ desiredKeys) → stale desiredKeys current = [].
Proof.
  intros H. unfold stale. induction current as [|r l IH]; [reflexivity|].
  rewrite filter_cons. rewrite decide_False.
  - apply IH. intros res Hin. apply H. right. exact Hin.
  - intros Hn. apply Hn. apply H. left.
Qed.

Lemma desiredKeysOf_elem (managed : list ManagedResource) (res : ManagedResource) :
  res ∈ managed → resourceKey res ∈ desiredKeysOf managed.
Proof.
  intros H. unfold desiredKeysOf. apply elem_of_list_to_set.
  apply list_elem_of_fmap. eauto.
Qed.

(** What a pass does up to the loop over the desired resources. *)
Lemma Reconcile_reaches_apply
    (w : World) (req className : string) (ns : Namespace) (nsc : NamespaceClass)
    (current : list ManagedResource) (desired : list Unstructured) :
  namespaces w !! req = Some ns → fault_at w 0 = None →
  IsZero (ns_deletionTimestamp ns) = true →
  ns_labels ns !! LabelKey = Some className →
  containsString (ns_finalizers ns) NamespaceFinalizer = true →
  getManagedResources ns = Ok current →
  classes w !! className = Some nsc → fault_at w 1 = None →
  parseResources (nsc_resources nsc) className = Ok desired →
  Reconcile req w
  = (managed ← applyDesired (ns_name ns) className desired [];
     cleanUpUndesired (ns_name ns) (desiredKeysOf managed) current;;
     updateManagedResources ns managed;;
     updateNamespaceClassStatus nsc (ns_name ns);;
     mret NoResult) (advance (GetClass className) (advance (GetNamespace req) w)).
Proof.
  intros Hns Hf Hdel Hlab Hfin Hled Hcls Hf1 Hparse.
  unfold Reconcile. rewrite bind_run, attempt_run, GetNamespace_run, Hf, Hns. simpl.
  rewrite Hdel. simpl. rewrite bind_run. unfold lift. rewrite Hled, Hlab, Hfin. simpl.
  rewrite bind_run, attempt_run, GetClass_run, fault_at_advance, Hf1.
  change (classes (advance (GetNamespace req) w)) with (classes w). rewrite Hcls. simpl.
  rewrite (bind_run (λ w0, (parseResources (nsc_resources nsc) className, w0))).
  rewrite Hparse. reflexivity.
Qed.

(** A counterexample to C9 as it is stated: settings and token are both
    ledgered and no longer desired; the deletion of settings fails, the pass
    returns that error, and the deletion of token is never tried. *)
Lemma stale_deletion_not_tried_after_failure :
  let out := Reconcile "team-a" Ex.w_stale in
  getManagedResources Ex.ns_bound = Ok Ex.ledger
  ∧ stale (desiredKeysOf [descriptor (Ex.decoded Ex.quota)]) Ex.ledger = Ex.ledger
  ∧ out.1 = Err Unavailable
  ∧ deleted_keys (trace out.2) = [("v1", "ConfigMap", "team-a", "settings")]
  ∧ ("v1", "Secret", "team-a", "token") ∉ deleted_keys (trace out.2).
Proof.
  cbv zeta. split_and!; try (vm_compute; reflexivity).
  replace (deleted_keys (trace (Reconcile "team-a" Ex.w_stale).2))
    with [("v1", "ConfigMap", "team-a", "settings")] by (vm_compute; reflexivity).
  intros H. apply list_elem_of_singleton in H. discriminate H.
Qed.

(** ** A pass over a namespace that is already as its class wants it *)

Lemma applyDesired_converged (namespace className : string) (ds : list Unstructured) :
  ∀ acc w,
    Forall valid ds →
    (∀ t, t ∈ ds →
       ∃ e, objects w !! template_key namespace t = Some e
            ∧ Unstr.index (Unstr.GetAnnotations e) ResourceHashAnnotation
              = calculateResourceHash t) →
    let out := applyDesired namespace className ds acc w in
    objects out.2 = objects w ∧ namespaces out.2 = namespaces w
    ∧ classes out.2 = classes w
    ∧ (∃ calls, trace out.2 = trace w ++ calls ∧ object_writes calls = [])
    ∧ (∀ managed, out.1 = Ok managed → managed = acc ++ (descriptor <$> ds)).
Proof.
  induction ds as [|t ds IH]; intros acc w Hv Hlive; cbv zeta.
  - simpl. split_and!; try reflexivity.
    + exists []. rewrite app_nil_r. auto.
    + intros managed [= <-]. rewrite app_nil_r. reflexivity.
  - rewrite applyDesired_cons. apply Forall_cons in Hv as [Hvt Hvds].
    destruct (valid_fields t Hvt) as (_ & _ & Hname).
    pose proof (stamp_shape namespace className t Hname) as Hs. cbv zeta in Hs.
    destruct (stamp namespace className t) as [d h]. simpl in Hs. simpl.
    destruct Hs as (-> & Hkey & _ & Hhash & _).
    destruct (Hlive t ltac:(left)) as (e & He & Heh).
    rewrite bind_run.
    rewrite (createOrUpdateResource_converged d e _ _ _ _ w Hkey (valid_typed t Hvt) He)
      by congruence.
    destruct (fault_at w 0) as [f|].
    + simpl. split_and!; try reflexivity.
      * eexists [_]. split; [reflexivity|]. reflexivity.
      * intros managed [=].
    + set (w1 := advance _ w).
      assert (Hlive1 : ∀ t', t' ∈ ds →
                ∃ e', objects w1 !! template_key namespace t' = Some e'
                      ∧ Unstr.index (Unstr.GetAnnotations e') ResourceHashAnnotation
                        = calculateResourceHash t').
      { intros t' Ht'. apply Hlive. right. exact Ht'. }
      specialize (IH (acc ++ [{| APIVersion := Unstr.GetAPIVersion d;
                                 Kind := Unstr.GetKind d; Name := Unstr.GetName d;
                                 Hash := calculateResourceHash t |}]) w1 Hvds Hlive1).
      cbv zeta in IH. destruct IH as (Ho & Hn & Hc & (calls & T & W) & Hm).
      split; [exact Ho|]. split; [exact Hn|]. split; [exact Hc|]. split.
      * exists (GetObject (Unstr.GetAPIVersion t) (Unstr.GetKind t) namespace
                  (Unstr.GetName t) :: calls).
        rewrite T. unfold w1. rewrite trace_advance, <- app_assoc. split; [reflexivity|].
        unfold object_writes in *. rewrite filter_cons, decide_False; [exact W|].
        intros [].
      * intros managed Hman. rewrite (Hm managed Hman), <- app_assoc. simpl.
        unfold client.obj_key in Hkey. injection Hkey as Ha Hk _ Hnm.
        unfold descriptor at 2. rewrite Ha, Hk, Hnm. reflexivity.
Qed.

Lemma cleanUpUndesired_nothing namespace (desiredKeys : gset string) current w :
  (∀ res, res ∈ current → resourceKey res ∈ desiredKeys) →
  cleanUpUndesired namespace desiredKeys current w = (Ok tt, w).
Proof.
  intros H. destruct (cleanUpUndesired_run namespace desiredKeys current w) as (r & E & Hok & _).
  rewrite (stale_none _ _ H) in *. rewrite E, Hok by reflexivity. reflexivity.
Qed.

(** A counterexample to C3 as it is stated: team-a is as its class wants it,
    and the pass still makes one update call, the one that writes the
    namespace with its ledger annotation again. *)
Lemma converged_pass_updates_namespace :
  let out := Reconcile "team-a" Ex.w_converged in
  parseResources (nsc_resources Ex.standard) "standard"
  = Ok [Ex.decoded Ex.settings; Ex.decoded Ex.token]
  ∧ getManagedResources Ex.ns_bound
    = Ok (descriptor <$> [Ex.decoded Ex.settings; Ex.decoded Ex.token])
  ∧ objects Ex.w_converged !! ("v1", "ConfigMap", "team-a", "settings")
    = Some (Ex.live "standard" Ex.settings)
  ∧ objects Ex.w_converged !! ("v1", "Secret", "team-a", "token")
    = Some (Ex.live "standard" Ex.token)
  ∧ out.1 = Ok NoResult
  ∧ updated_namespace <$> filter is_update (trace out.2) = [Some "team-a"].
Proof.
  cbv zeta. split_and!; vm_compute; reflexivity.
Qed.

(** ** Writing the ledger *)

Lemma retry_cases (fn : M unit) (I Q : World → Prop) :
  (∀ w, I w → match (fn w).1 with Ok _ => Q (fn w).2 | Err _ => I (fn w).2 end) →
  ∀ steps w, I w →
    match (RetryOnConflict (S steps) fn w).1 with
    | Ok _ => Q (RetryOnConflict (S steps) fn w).2
    | Err _ => I (RetryOnConflict (S steps) fn w).2
    end.
Proof.
  intros Hfn. induction steps as [|k IH]; intros w HI.
  - simpl. specialize (Hfn w HI). destruct (fn w) as [[[]|e] w1]; simpl in *; [exact Hfn|].
    destruct (IsConflict e); exact Hfn.
  - specialize (Hfn w HI).
    change (RetryOnConflict (S (S k)) fn w)
      with (match fn w with
            | (Err e, w') =>
                if IsConflict e then RetryOnConflict (S k) fn w' else (Err e, w')
            | r => r
            end).
    destruct (fn w) as [[[]|e] w1]; simpl in *; [exact Hfn|].
    destruct (IsConflict e); [|exact Hfn]. apply IH. exact Hfn.
Qed.

Lemma with_ledger_name ns managed : ns_name (with_ledger ns managed) = ns_name ns.
Proof. destruct managed; reflexivity. Qed.

Lemma with_ledger_annotation ns managed :
  ns_annotations (with_ledger ns managed) !! AnnotationKey
  = match managed with
    | [] => None
    | _ => Ledger.Marshal managed
    end.
Proof.
  destruct managed as [|res l]; simpl.
  - apply lookup_delete_eq.
  - apply lookup_insert_eq.
Qed.

(** One attempt either stores the namespace it has just fetched, with the
    new ledger, or leaves the namespaces alone. *)
Lemma writeManagedResources_namespaces ns managed (n0 : gmap string Namespace) w :
  namespaces w = n0 →
  match (writeManagedResources ns managed w).1 with
  | Ok _ =>
      ∃ ns0, n0 !! ns_name ns = Some ns0
             ∧ namespaces (writeManagedResources ns managed w).2
               = <[ns_name ns0 := with_ledger ns0 managed]> n0
  | Err _ => namespaces (writeManagedResources ns managed w).2 = n0
  end.
Proof.
  intros <-. unfold writeManagedResources. rewrite bind_run, GetNamespace_run.
  destruct (fault_at w 0) as [f|]; [reflexivity|].
  destruct (namespaces w !! ns_name ns) as [ns0|] eqn:L; [|reflexivity].
  rewrite bind_run.
  assert (E : (match managed with
               | [] => mret (set_annotations ns0 (delete AnnotationKey (ns_annotations ns0)))
               | _ :: _ =>
                   data ← lift (of_option JsonError (Ledger.Marshal managed));
                   mret (set_annotations ns0 (<[AnnotationKey := data]> (ns_annotations ns0)))
               end) (advance (GetNamespace (ns_name ns)) w)
              = (Ok (with_ledger ns0 managed), advance (GetNamespace (ns_name ns)) w)).
  { destruct managed; reflexivity. }
  rewrite E, UpdateNamespace_run, with_ledger_name.
  change (namespaces (advance ?c w)) with (namespaces w).
  destruct (fault_at (advance (GetNamespace (ns_name ns)) w) 0); [reflexivity|].
  destruct (namespaces w !! ns_name ns0); simpl; [|reflexivity]. eauto.
Qed.

Lemma updateManagedResources_namespaces ns managed w :
  match (updateManagedResources ns managed w).1 with
  | Ok _ =>
      ∃ ns0, namespaces w !! ns_name ns = Some ns0
             ∧ namespaces (updateManagedResources ns managed w).2
               = <[ns_name ns0 := with_ledger ns0 managed]> (namespaces w)
  | Err _ => namespaces (updateManagedResources ns managed w).2 = namespaces w
  end.
Proof.
  unfold updateManagedResources, DefaultRetrySteps.
  apply (retry_cases (writeManagedResources ns managed)
           (λ w1, namespaces w1 = namespaces w)
           (λ w1, ∃ ns0, namespaces w !! ns_name ns = Some ns0
                         ∧ namespaces w1 = <[ns_name ns0 := with_ledger ns0 managed]> (namespaces w)));
    [|reflexivity].
  intros w1 H1. apply writeManagedResources_namespaces. exact H1.
Qed.

(** ** Convergence *)

Lemma fault_error_not_NotFound (f : Fault) : IsNotFound (fault_error f) = false.
Proof. destruct f; reflexivity. Qed.








(** * Further properties of the controller *)

(** ** The first fetch *)

(** X1. A pass for a namespace that is not in the store is a no-op: the
    empty result, no error, and the fetch is its only call.  A fetch that
    fails otherwise ends the pass with that error. *)
Theorem first_fetch_decides (w : World) (req : string) :
  (namespaces w !! req = None → fault_at w 0 = None →
   Reconcile req w = (Ok NoResult, advance (GetNamespace req) w))
  ∧ (∀ f, fault_at w 0 = Some f →
     Reconcile req w = (Err (fault_error f), advance (GetNamespace req) w)).
Proof.
  split.
  - intros Hns Hf. unfold Reconcile.
    rewrite bind_run, attempt_run, GetNamespace_run, Hf, Hns. reflexivity.
  - intros f Hf. unfold Reconcile.
    rewrite bind_run, attempt_run, GetNamespace_run, Hf. simpl.
    rewrite fault_error_not_NotFound. reflexivity.
Qed.

Lemma first_fetch_decides_witness :
  Reconcile "team-c" (Lite.world Lite.ns_unbound [] [])
  = (Ok NoResult, advance (GetNamespace "team-c") (Lite.world Lite.ns_unbound [] []))
  ∧ Reconcile "team-b" (Lite.world Lite.ns_unbound [] [Some FaultUnavailable])
    = (Err Unavailable,
       advance (GetNamespace "team-b") (Lite.world Lite.ns_unbound [] [Some FaultUnavailable])).
Proof.
  split.
  - exact (proj1 (first_fetch_decides (Lite.world Lite.ns_unbound [] []) "team-c")
             eq_refl eq_refl).
  - exact (proj2 (first_fetch_decides
                    (Lite.world Lite.ns_unbound [] [Some FaultUnavailable]) "team-b")
             FaultUnavailable eq_refl).
Defined.

(** X2. A namespace that is being deleted and does not carry the finalizer
    of the controller is left alone: the empty result without error after the
    one fetch, whatever its label and its ledger annotation say. *)
Theorem deletion_without_finalizer_is_noop (w : World) (req : string) (ns : Namespace) :
  namespaces w !! req = Some ns → fault_at w 0 = None →
  IsZero (ns_deletionTimestamp ns) = false →
  containsString (ns_finalizers ns) NamespaceFinalizer = false →
  Reconcile req w = (Ok NoResult, advance (GetNamespace req) w).
Proof.
  intros Hns Hf Hdel Hfin. unfold Reconcile.
  rewrite bind_run, attempt_run, GetNamespace_run, Hf, Hns. simpl.
  rewrite Hdel. simpl. unfold handleNamespaceDeletion. rewrite Hfin. reflexivity.
Qed.

Lemma deletion_without_finalizer_is_noop_witness :
  Reconcile "team-b" (Lite.world Lite.ns_leaving [] [])
  = (Ok NoResult, advance (GetNamespace "team-b") (Lite.world Lite.ns_leaving [] [])).
Proof.
  exact (deletion_without_finalizer_is_noop (Lite.world Lite.ns_leaving [] []) "team-b"
           Lite.ns_leaving eq_refl eq_refl eq_refl eq_refl).
Defined.

(** X3. A bound namespace whose class is not in the store: the pass asks to
    be run again in one minute, returns no error, and has made its two
    fetches and nothing else. *)
Theorem missing_class_requeues_in_a_minute
    (w : World) (req className : string) (ns : Namespace) (current : list ManagedResource) :
  namespaces w !! req = Some ns → fault_at w 0 = None →
  IsZero (ns_deletionTimestamp ns) = true →
  ns_labels ns !! LabelKey = Some className →
  containsString (ns_finalizers ns) NamespaceFinalizer = true →
  getManagedResources ns = Ok current →
  classes w !! className = None → fault_at w 1 = None →
  Reconcile req w
  = (Ok {| Requeue := false; RequeueAfter := 60 * 1000000000 |},
     advance (GetClass className) (advance (GetNamespace req) w)).
Proof.
  intros Hns Hf Hdel Hlab Hfin Hled Hcls Hf1. unfold Reconcile.
  rewrite bind_run, attempt_run, GetNamespace_run, Hf, Hns. simpl.
  rewrite Hdel. simpl. rewrite bind_run. unfold lift. rewrite Hled, Hlab, Hfin. simpl.
  rewrite bind_run, attempt_run, GetClass_run, fault_at_advance, Hf1.
  change (classes (advance (GetNamespace req) w)) with (classes w). rewrite Hcls.
  reflexivity.
Qed.

Lemma missing_class_requeues_in_a_minute_witness :
  Reconcile "team-b" (Lite.world Lite.ns_waiting [] [])
  = (Ok {| Requeue := false; RequeueAfter := 60 * 1000000000 |},
     advance (GetClass "missing")
       (advance (GetNamespace "team-b") (Lite.world Lite.ns_waiting [] []))).
Proof.
  exact (missing_class_requeues_in_a_minute (Lite.world Lite.ns_waiting [] []) "team-b"
           "missing" Lite.ns_waiting Lite.ledger eq_refl eq_refl eq_refl eq_refl eq_refl
           ltac:(vm_compute; reflexivity) eq_refl eq_refl).
Defined.

(** ** The two helpers on string slices *)

Lemma removeString_filter (l : list string) (s : string) :
  removeString l s = filter (λ x, x ≠ s) l.
Proof.
  induction l as [|x l IH]; [reflexivity|]. simpl. rewrite filter_cons.
  destruct (decide (x ≠ s)); rewrite IH; reflexivity.
Qed.

(** X4. After [removeString] the removed string is no longer contained, and
    every other string is contained exactly when it was before. *)
Theorem containsString_removeString (l : list string) (s t : string) :
  containsString (removeString l s) t
  = if decide (t = s) then false else containsString l t.
Proof.
  apply eq_true_iff_eq. rewrite containsString_elem, removeString_filter.
  rewrite list_elem_of_filter. destruct (decide (t = s)) as [->|N].
  - split; [intros [H _]; contradiction | discriminate].
  - rewrite containsString_elem. tauto.
Qed.

Lemma removeString_absent (l : list string) (s : string) :
  containsString l s = false → removeString l s = l.
Proof.
  induction l as [|x l IH]; [reflexivity|]. simpl.
  destruct (decide (x = s)) as [->|N]; [discriminate|].
  intros H. rewrite decide_True by exact N. rewrite IH by exact H. reflexivity.
Qed.

(** What is left keeps its order. *)
Lemma removeString_sublist (l : list string) (s : string) : sublist (removeString l s) l.
Proof. rewrite removeString_filter. apply sublist_filter. Qed.

(** ** Worlds without faults *)

Lemma calm_fault_at (w : World) (i : nat) : faults w = [] → fault_at w i = None.
Proof. unfold fault_at. intros ->. reflexivity. Qed.

Lemma calm_advance (c : Call) (w : World) : faults w = [] → faults (advance c w) = [].
Proof. unfold advance. simpl. intros ->. reflexivity. Qed.

Lemma calm_after_delete namespace res w :
  faults w = [] → faults (after_delete namespace res w) = [].
Proof.
  intros H. unfold after_delete. destruct (delete_fails w res); simpl; rewrite H; reflexivity.
Qed.

Lemma calm_after_deletes namespace l : ∀ w,
  faults w = [] → faults (after_deletes namespace l w) = [].
Proof.
  induction l as [|res l IH]; intros w H; [exact H|].
  unfold after_deletes in *. simpl. apply IH. apply calm_after_delete. exact H.
Qed.

Lemma calm_deletions_succeed namespace l : ∀ w,
  faults w = [] →
  Forall (λ res, client.typed (APIVersion res) (Kind res) = true) l →
  some_deletion_fails namespace l w = false.
Proof.
  induction l as [|res l IH]; intros w H Ht; [reflexivity|].
  apply Forall_cons in Ht as [Hr Hl]. simpl.
  rewrite IH by (try apply calm_after_delete; assumption).
  unfold delete_fails. rewrite (calm_fault_at w 0 H), Hr. reflexivity.
Qed.

Lemma retry_first_ok (fn : M unit) (k : nat) (w : World) :
  (fn w).1 = Ok tt → RetryOnConflict (S k) fn w = fn w.
Proof. simpl. destruct (fn w) as [[[]|e] w1]; simpl; [reflexivity | discriminate]. Qed.

(** One attempt at the ledger in a world without faults. *)
Lemma writeManagedResources_calm ns ns0 managed w :
  faults w = [] → namespaces w !! ns_name ns = Some ns0 → ns_name ns0 = ns_name ns →
  writeManagedResources ns managed w
  = (Ok tt,
     with_namespaces
       (advance (UpdateNamespace (with_ledger ns0 managed))
          (advance (GetNamespace (ns_name ns)) w))
       (<[ns_name ns := with_ledger ns0 managed]> (namespaces w))).
Proof.
  intros Hc Hns Hname. unfold writeManagedResources.
  rewrite bind_run, GetNamespace_run, (calm_fault_at w 0 Hc), Hns, bind_run.
  assert (E : (match managed with
               | [] => mret (set_annotations ns0 (delete AnnotationKey (ns_annotations ns0)))
               | _ :: _ =>
                   data ← lift (of_option JsonError (Ledger.Marshal managed));
                   mret (set_annotations ns0 (<[AnnotationKey := data]> (ns_annotations ns0)))
               end) (advance (GetNamespace (ns_name ns)) w)
              = (Ok (with_ledger ns0 managed), advance (GetNamespace (ns_name ns)) w)).
  { destruct managed; reflexivity. }
  rewrite E, UpdateNamespace_run, with_ledger_name.
  rewrite calm_fault_at by (apply calm_advance; exact Hc).
  change (namespaces (advance ?c w)) with (namespaces w).
  rewrite Hname, Hns. reflexivity.
Qed.

Lemma updateManagedResources_calm ns ns0 managed w :
  faults w = [] → namespaces w !! ns_name ns = Some ns0 → ns_name ns0 = ns_name ns →
  updateManagedResources ns managed w
  = (Ok tt,
     with_namespaces
       (advance (UpdateNamespace (with_ledger ns0 managed))
          (advance (GetNamespace (ns_name ns)) w))
       (<[ns_name ns := with_ledger ns0 managed]> (namespaces w))).
Proof.
  intros Hc Hns Hname. unfold updateManagedResources, DefaultRetrySteps.
  rewrite retry_first_ok; rewrite (writeManagedResources_calm ns ns0 managed w Hc Hns Hname);
    reflexivity.
Qed.

(** ** Taking the class label away *)

(** X5. A namespace that is not being deleted and has no class label, with a
    readable ledger whose descriptors all have apiVersion and kind, in a
    world without faults: the pass ends with the empty result and no error;
    no ledgered object is left and no other object is touched; the stored
    namespace has lost the finalizer of the controller and the ledger
    annotation and nothing else. *)
Theorem unbind_removes_resources_finalizer_and_ledger
    (w : World) (req : string) (ns : Namespace) (current : list ManagedResource) :
  namespaces w !! req = Some ns → ns_name ns = req → faults w = [] →
  IsZero (ns_deletionTimestamp ns) = true →
  ns_labels ns !! LabelKey = None →
  getManagedResources ns = Ok current →
  Forall (λ res, client.typed (APIVersion res) (Kind res) = true) current →
  let out := Reconcile req w in
  out.1 = Ok NoResult
  ∧ (∀ res, res ∈ current →
       objects out.2 !! (APIVersion res, Kind res, req, Name res) = None)
  ∧ (∀ k, (∀ res, res ∈ current → (APIVersion res, Kind res, req, Name res) ≠ k) →
          objects out.2 !! k = objects w !! k)
  ∧ ∃ ns', namespaces out.2 = <[req := ns']> (namespaces w)
           ∧ ns_name ns' = req ∧ ns_labels ns' = ns_labels ns
           ∧ ns_deletionTimestamp ns' = ns_deletionTimestamp ns
           ∧ ns_finalizers ns' = filter (λ f, f ≠ NamespaceFinalizer) (ns_finalizers ns)
           ∧ ns_annotations ns' = delete AnnotationKey (ns_annotations ns).
Proof.
  intros Hns Hname Hc Hdel Hlab Hled Htyped. cbv zeta.
  unfold Reconcile.
  rewrite bind_run, attempt_run, GetNamespace_run, (calm_fault_at w 0 Hc), Hns. simpl.
  rewrite Hdel. simpl. rewrite bind_run. unfold lift. rewrite Hled, Hlab.
  rewrite bind_run, cleanUpManaged_run, Hname.
  set (w1 := advance (GetNamespace req) w).
  set (wd := after_deletes req current w1).
  assert (Hc1 : faults w1 = []) by (apply calm_advance; exact Hc).
  assert (Hcd : faults wd = []) by (apply calm_after_deletes; exact Hc1).
  assert (Hnd : namespaces wd = namespaces w)
    by (unfold wd; rewrite after_deletes_namespaces; reflexivity).
  assert (Hnofail : some_deletion_fails req current w1 = false)
    by (apply calm_deletions_succeed; assumption).
  assert (Hgone : ∀ res, res ∈ current →
            objects wd !! (APIVersion res, Kind res, req, Name res) = None).
  { intros res Hin. apply after_deletes_objects_gone; assumption. }
  assert (Hother : ∀ k, (∀ res, res ∈ current → (APIVersion res, Kind res, req, Name res) ≠ k) →
            objects wd !! k = objects w !! k).
  { intros k Hk. unfold wd. rewrite after_deletes_objects_other by exact Hk. reflexivity. }
  rewrite bind_run.
  destruct (containsString (ns_finalizers ns) NamespaceFinalizer) eqn:Hfin.
  - set (ns1 := set_finalizers ns (removeString (ns_finalizers ns) NamespaceFinalizer)).
    rewrite bind_run, UpdateNamespace_run, (calm_fault_at wd 0 Hcd), Hnd.
    change (ns_name ns1) with (ns_name ns). rewrite Hname, Hns.
    simpl. rewrite bind_run.
    rewrite (updateManagedResources_calm ns1 ns1 []);
      [|simpl; rewrite Hcd; reflexivity
       |simpl; rewrite ?Hname; apply lookup_insert_eq
       |reflexivity].
    simpl. split; [reflexivity|]. split; [exact Hgone|]. split; [exact Hother|].
    exists (with_ledger ns1 []). rewrite ?Hnd, ?Hname, insert_insert_eq.
    split; [reflexivity|]. simpl. rewrite removeString_filter. auto.
  - simpl. rewrite bind_run.
    rewrite (updateManagedResources_calm ns ns []);
      [|exact Hcd | rewrite Hname, Hnd; exact Hns | reflexivity].
    simpl. split; [reflexivity|]. split; [exact Hgone|]. split; [exact Hother|].
    exists (with_ledger ns []). rewrite ?Hnd, ?Hname.
    split; [reflexivity|]. simpl. split_and!; try reflexivity; try assumption.
    rewrite <- removeString_filter. symmetry. apply removeString_absent. exact Hfin.
Qed.

Lemma unbind_removes_resources_finalizer_and_ledger_witness :
  let out := Reconcile "team-b" (Lite.world Lite.ns_unbound [] []) in
  out.1 = Ok NoResult
  ∧ objects out.2 !! ("v1", "ConfigMap", "team-b", "settings") = None
  ∧ ∃ ns', namespaces out.2 !! "team-b" = Some ns'
           ∧ ns_finalizers ns' = ["kubernetes"; "audit"]
           ∧ ns_annotations ns' = {[ "owner" := "payments" ]}.
Proof.
  pose proof (unbind_removes_resources_finalizer_and_ledger
                (Lite.world Lite.ns_unbound [] []) "team-b" Lite.ns_unbound Lite.ledger
                eq_refl eq_refl eq_refl eq_refl eq_refl
                ltac:(vm_compute; reflexivity)
                ltac:(repeat constructor)) as H.
  cbv zeta in *. destruct H as (Hr & Hgone & _ & ns' & Hn & _ & _ & _ & Hf & Ha).
  split; [exact Hr|]. split; [exact (Hgone (Lite.res "ConfigMap" "settings") ltac:(left))|].
  exists ns'. split; [rewrite Hn; apply lookup_insert_eq|].
  split; [rewrite Hf; reflexivity|]. rewrite Ha. vm_compute. reflexivity.
Defined.

(** ** Deleting one resource *)

(** X6. [deleteResource] is an idempotent delete.  When the call reaches
    the server and the descriptor has apiVersion and kind, it returns nil
    whether the object was there or not, only that object is gone
    afterwards, and an object that was absent leaves the store as it was.
    When the call fails on the way, that error comes back and the store is
    as before. *)
Theorem deleteResource_is_idempotent
    (namespace : string) (res : ManagedResource) (w : World) :
  let out := deleteResource namespace res w in
  let key := (APIVersion res, Kind res, namespace, Name res) in
  trace out.2 = trace w ++ [DeleteCall namespace res]
  ∧ (fault_at w 0 = None → client.typed (APIVersion res) (Kind res) = true →
     out.1 = Ok tt
     ∧ objects out.2 = delete key (objects w)
     ∧ (objects w !! key = None → objects out.2 = objects w))
  ∧ (∀ f, fault_at w 0 = Some f →
     out.1 = Err (fault_error f) ∧ objects out.2 = objects w).
Proof.
  cbv zeta. rewrite deleteResource_run. simpl.
  split; [apply after_delete_trace|]. rewrite after_delete_objects.
  unfold delete_fails, delete_error. split.
  - intros Hf Ht. rewrite Hf, Ht. simpl.
    split; [reflexivity|]. split; [reflexivity|]. intros Habs. apply delete_id. exact Habs.
  - intros f Hf. rewrite Hf. simpl. auto.
Qed.

Lemma deleteResource_is_idempotent_witness :
  let w := Lite.world Lite.ns_unbound [] [] in
  let out := deleteResource "team-b" (Lite.res "ConfigMap" "ghost") w in
  out.1 = Ok tt ∧ objects out.2 = objects w.
Proof.
  cbv zeta.
  destruct (deleteResource_is_idempotent "team-b" (Lite.res "ConfigMap" "ghost")
              (Lite.world Lite.ns_unbound [] [])) as (_ & H & _).
  destruct (H eq_refl eq_refl) as (Hr & _ & Hsame).
  split; [exact Hr|]. apply Hsame. vm_compute. reflexivity.
Defined.

(** ** Creating or updating one resource *)

Lemma SetResourceVersion_read (d : Unstructured) (m : gmap string JSON) (rv : string) :
  d !! "metadata" = Some (JObj m) →
  Unstr.GetResourceVersion (Unstr.SetResourceVersion d rv) = rv.
Proof.
  intros Hm. unfold Unstr.SetResourceVersion, Unstr.GetResourceVersion.
  destruct (set_metadata_string_shape d m Hm "resourceVersion" rv) as (m1 & -> & Hrv & _).
  rewrite metadata_change_field. exact Hrv.
Qed.

(** The run of [createOrUpdateResource] when its calls reach the server. *)
Lemma createOrUpdateResource_clear
    (d : Unstructured) (m : gmap string JSON) (av kd ns n : string) (w : World) :
  client.obj_key d = (av, kd, ns, n) → d !! "metadata" = Some (JObj m) →
  client.typed av kd = true → fault_at w 0 = None → fault_at w 1 = None →
  let fetched := advance (GetObject av kd ns n) w in
  createOrUpdateResource d w
  = match objects w !! (av, kd, ns, n) with
    | None =>
        (Ok d, with_objects (advance (CreateObject d) fetched)
                 (<[(av, kd, ns, n) := d]> (objects w)))
    | Some e =>
        if decide (Unstr.index (Unstr.GetAnnotations e) ResourceHashAnnotation
                   = Unstr.index (Unstr.GetAnnotations d) ResourceHashAnnotation)
        then (Ok d, fetched)
        else
          let d' := Unstr.SetResourceVersion d (Unstr.GetResourceVersion e) in
          (Ok d', with_objects (advance (UpdateObject d') fetched)
                    (<[(av, kd, ns, n) := d']> (objects w)))
    end.
Proof.
  intros Hk Hm Ht Hf0 Hf1. cbv zeta.
  destruct (objects w !! (av, kd, ns, n)) as [e|] eqn:He.
  - destruct (decide (Unstr.index (Unstr.GetAnnotations e) ResourceHashAnnotation
                      = Unstr.index (Unstr.GetAnnotations d) ResourceHashAnnotation))
      as [Heq|Hne].
    + rewrite (createOrUpdateResource_converged d e av kd ns n w Hk Ht He Heq), Hf0.
      reflexivity.
    + unfold createOrUpdateResource. rewrite bind_run, attempt_run, Get_run. cbv zeta.
      destruct (same_type_as_type d) as [-> ->].
      pose proof Hk as Hk'. unfold client.obj_key in Hk'. injection Hk' as Hav Hkd Hns Hn.
      rewrite Hav, Hkd, Hns, Hn, Hf0, Ht, He. simpl.
      rewrite decide_True by exact Hne.
      destruct (SetResourceVersion_shape d m (Unstr.GetResourceVersion e) Hm) as [Hkey _].
      rewrite bind_run, Update_run, Hkey, Hk.
      change (objects (advance ?c w)) with (objects w).
      unfold client.obj_key in Hkey. injection Hkey as -> -> _ _.
      rewrite Hav, Hkd, fault_at_advance, Hf1, Ht, He. reflexivity.
  - unfold createOrUpdateResource. rewrite bind_run, attempt_run, Get_run. cbv zeta.
    destruct (same_type_as_type d) as [-> ->].
    pose proof Hk as Hk'. unfold client.obj_key in Hk'. injection Hk' as Hav Hkd Hns Hn.
    rewrite Hav, Hkd, Hns, Hn, Hf0, Ht, He. simpl.
    rewrite bind_run, Create_run, Hk.
    change (objects (advance ?c w)) with (objects w).
    rewrite Hav, Hkd, fault_at_advance, Hf1, Ht, He. reflexivity.
Qed.

(** X7. [createOrUpdateResource] when its calls reach the server, for an
    object with a metadata map, apiVersion and kind: an absent object is
    created as desired; a present one whose hash annotation equals the
    desired one costs the fetch and nothing else; a present one with another
    hash annotation is replaced by the desired object, which is sent with the
    resource version of the object that was fetched. *)
Theorem createOrUpdateResource_cases
    (d : Unstructured) (m : gmap string JSON) (av kd ns n : string) (w : World) :
  client.obj_key d = (av, kd, ns, n) → d !! "metadata" = Some (JObj m) →
  client.typed av kd = true → fault_at w 0 = None → fault_at w 1 = None →
  let fetched := advance (GetObject av kd ns n) w in
  createOrUpdateResource d w
  = match objects w !! (av, kd, ns, n) with
    | None =>
        (Ok d, with_objects (advance (CreateObject d) fetched)
                 (<[(av, kd, ns, n) := d]> (objects w)))
    | Some e =>
        if decide (Unstr.index (Unstr.GetAnnotations e) ResourceHashAnnotation
                   = Unstr.index (Unstr.GetAnnotations d) ResourceHashAnnotation)
        then (Ok d, fetched)
        else
          let d' := Unstr.SetResourceVersion d (Unstr.GetResourceVersion e) in
          (Ok d', with_objects (advance (UpdateObject d') fetched)
                    (<[(av, kd, ns, n) := d']> (objects w)))
    end
  ∧ ∀ e, Unstr.GetResourceVersion (Unstr.SetResourceVersion d (Unstr.GetResourceVersion e))
         = Unstr.GetResourceVersion e.
Proof.
  intros Hk Hm Ht Hf0 Hf1. cbv zeta.
  split; [|intros e; apply (SetResourceVersion_read d m _ Hm)].
  exact (createOrUpdateResource_clear d m av kd ns n w Hk Hm Ht Hf0 Hf1).
Qed.

Lemma createOrUpdateResource_cases_witness :
  let d := Lite.object "team-b" (Lite.res "ConfigMap" "fresh") in
  let w := Lite.world Lite.ns_unbound [] [] in
  (createOrUpdateResource d w).1 = Ok d
  ∧ objects (createOrUpdateResource d w).2
    = <[("v1", "ConfigMap", "team-b", "fresh") := d]> (objects w).
Proof.
  cbv zeta.
  destruct (createOrUpdateResource_cases
              (Lite.object "team-b" (Lite.res "ConfigMap" "fresh"))
              {[ "name" := JStr "fresh"; "namespace" := JStr "team-b" ]}
              "v1" "ConfigMap" "team-b" "fresh" (Lite.world Lite.ns_unbound [] [])
              ltac:(vm_compute; reflexivity) ltac:(vm_compute; reflexivity)
              eq_refl eq_refl eq_refl) as [H _].
  cbv zeta in H.
  replace (objects (Lite.world Lite.ns_unbound [] []) !! ("v1", "ConfigMap", "team-b", "fresh"))
    with (@None Unstructured) in H by (vm_compute; reflexivity).
  rewrite H. split; reflexivity.
Defined.

(** ** The status of the class *)

Lemma UpdateClassStatus_run (c : NamespaceClass) (w : World) :
  client.UpdateClassStatus c w
  = match fault_at w 0 with
    | Some f => (Err (fault_error f), advance (UpdateClassStatus c) w)
    | None =>
        match classes w !! nsc_name c with
        | Some old =>
            (Ok tt, with_classes (advance (UpdateClassStatus c) w)
                      (<[nsc_name c := set_status old (nsc_managedNamespaces c)
                                                     (nsc_lastUpdateTime c)]> (classes w)))
        | None => (Err NotFound, advance (UpdateClassStatus c) w)
        end
    end.
Proof.
  unfold client.UpdateClassStatus. rewrite call_run. destruct (fault_at w 0); reflexivity.
Qed.

(** One attempt at the status in a world without faults. *)
Lemma writeNamespaceClassStatus_calm (nsc c0 : NamespaceClass) (namespace : string) (w : World) :
  faults w = [] → classes w !! nsc_name nsc = Some c0 → nsc_name c0 = nsc_name nsc →
  writeNamespaceClassStatus nsc namespace w
  = if containsString (nsc_managedNamespaces c0) namespace
    then (Ok tt, advance (GetClass (nsc_name nsc)) w)
    else
      let c1 := set_status c0 (nsc_managedNamespaces c0 ++ [namespace]) (now w) in
      (Ok tt, with_classes
                (advance (UpdateClassStatus c1) (advance (GetClass (nsc_name nsc)) w))
                (<[nsc_name nsc := c1]> (classes w))).
Proof.
  intros Hc Hcls Hname. unfold writeNamespaceClassStatus.
  rewrite bind_run, GetClass_run, (calm_fault_at w 0 Hc), Hcls.
  destruct (containsString (nsc_managedNamespaces c0) namespace); simpl; [reflexivity|].
  rewrite bind_run. unfold Now. simpl.
  rewrite UpdateClassStatus_run. simpl.
  rewrite calm_fault_at by (apply calm_advance; exact Hc).
  rewrite Hname, Hcls. reflexivity.
Qed.


(** X8. [updateNamespaceClassStatus] in a world without faults, the class
    being stored under its name: it returns nil.  A namespace the status
    already lists costs the fetch of the class and no write, and the class
    stays as it is.  Otherwise the namespace is appended to the list, the
    time of the update is set to now, and the resources of the class are not
    touched. *)
Theorem status_lists_namespace_once
    (nsc c0 : NamespaceClass) (namespace : string) (w : World) :
  faults w = [] → classes w !! nsc_name nsc = Some c0 → nsc_name c0 = nsc_name nsc →
  let out := updateNamespaceClassStatus nsc namespace w in
  out.1 = Ok tt
  ∧ if containsString (nsc_managedNamespaces c0) namespace then
      classes out.2 = classes w
      ∧ trace out.2 = trace w ++ [GetClass (nsc_name nsc)]
    else
      let c1 := set_status c0 (nsc_managedNamespaces c0 ++ [namespace]) (now w) in
      classes out.2 = <[nsc_name nsc := c1]> (classes w)
      ∧ nsc_resources c1 = nsc_resources c0
      ∧ trace out.2 = trace w ++ [GetClass (nsc_name nsc); UpdateClassStatus c1].
Proof.
  intros Hc Hcls Hname. cbv zeta.
  unfold updateNamespaceClassStatus, DefaultRetrySteps.
  pose proof (writeNamespaceClassStatus_calm nsc c0 namespace w Hc Hcls Hname) as E.
  rewrite retry_first_ok; rewrite E;
    destruct (containsString (nsc_managedNamespaces c0) namespace); try reflexivity.
  - split; [reflexivity|]. split; reflexivity.
  - cbv zeta. simpl. split; [reflexivity|]. split; [reflexivity|]. split; [reflexivity|].
    rewrite <- app_assoc. reflexivity.
Qed.

Lemma status_lists_namespace_once_witness :
  let w := Lite.world Lite.ns_waiting [Ex.class "standard" []] [] in
  let out := updateNamespaceClassStatus (Ex.class "standard" []) "team-b" w in
  out.1 = Ok tt
  ∧ nsc_managedNamespaces <$> classes out.2 !! "standard" = Some ["team-b"].
Proof.
  cbv zeta.
  pose proof (status_lists_namespace_once (Ex.class "standard" []) (Ex.class "standard" [])
                "team-b" (Lite.world Lite.ns_waiting [Ex.class "standard" []] [])
                eq_refl eq_refl eq_refl) as H.
  cbv zeta in H. destruct H as [Hr H]. simpl in H. destruct H as (Hc & _ & _).
  split; [exact Hr|]. rewrite Hc. simpl. rewrite lookup_insert_eq. reflexivity.
Defined.

(** ** All templates or none *)

Lemma parseResources_from_spec (raws : list string) (className : string) :
  ∀ acc l,
    parseResources_from raws className acc = Ok l
    ↔ ∃ l', l = acc ++ l'
            ∧ Forall2 (λ raw u, UnmarshalUnstructured raw = Ok u ∧ valid u) raws l'.
Proof.
  induction raws as [|r raws IH]; intros acc l; simpl.
  - split.
    + intros [= <-]. exists []. rewrite app_nil_r. split; [reflexivity | constructor].
    + intros (l' & -> & H). inversion H. rewrite app_nil_r. reflexivity.
  - split.
    + destruct (UnmarshalUnstructured r) as [u|e] eqn:U; [|discriminate].
      destruct (validateResource u) eqn:V; [discriminate|].
      intros H. apply IH in H as (l' & -> & H).
      exists (u :: l'). rewrite <- app_assoc. split; [reflexivity|].
      constructor; [split; [exact U | exact V] | exact H].
    + intros (l' & -> & H). inversion H as [|? u ? l'' [U V] H']; subst.
      rewrite U. unfold valid in V. rewrite V. apply IH.
      exists l''. rewrite <- app_assoc. split; [reflexivity | exact H'].
Qed.

(** X9. [parseResources] succeeds exactly when every manifest of the class
    decodes to an object with apiVersion, kind and name, and then returns
    these objects in the order of the manifests; one bad manifest makes the
    whole call fail.  The decoder is [UnmarshalUnstructured]: it wants a
    JSON text whose numbers fit an int64 or a float64, a kind that is not
    empty and an apiVersion with at most one slash. *)
Theorem parseResources_all_or_nothing
    (raws : list string) (className : string) (l : list Unstructured) :
  parseResources raws className = Ok l
  ↔ Forall2 (λ raw u,
       UnmarshalUnstructured raw = Ok u
       ∧ Unstr.GetAPIVersion u ≠ "" ∧ Unstr.GetKind u ≠ "" ∧ Unstr.GetName u ≠ "") raws l.
Proof.
  unfold parseResources. rewrite parseResources_from_spec. split.
  - intros (l' & -> & H). simpl. eapply Forall2_impl; [exact H|].
    intros raw u [U V]. split; [exact U | apply valid_fields; exact V].
  - intros H. exists l. split; [reflexivity|]. eapply Forall2_impl; [exact H|].
    intros raw u (U & Ha & Hk & Hn). split; [exact U|].
    unfold valid, validateResource. rewrite !decide_False by assumption. reflexivity.
Qed.

(** ** Conflicts while writing the ledger *)

Lemma fault_at_cons (w : World) (x : option Fault) (rest : list (option Fault)) :
  faults w = x :: rest → fault_at w 0 = x.
Proof. unfold fault_at. intros ->. reflexivity. Qed.

Lemma faults_advance (c : Call) (w : World) : faults (advance c w) = tail (faults w).
Proof. reflexivity. Qed.

(** One attempt whose update fails on the way. *)
Lemma writeManagedResources_blocked ns ns0 managed w (f : Fault) rest :
  faults w = None :: Some f :: rest → namespaces w !! ns_name ns = Some ns0 →
  writeManagedResources ns managed w
  = (Err (fault_error f),
     advance (UpdateNamespace (with_ledger ns0 managed))
       (advance (GetNamespace (ns_name ns)) w)).
Proof.
  intros Hf Hns. unfold writeManagedResources.
  rewrite bind_run, GetNamespace_run, (fault_at_cons w _ _ Hf), Hns, bind_run.
  assert (E : (match managed with
               | [] => mret (set_annotations ns0 (delete AnnotationKey (ns_annotations ns0)))
               | _ :: _ =>
                   data ← lift (of_option JsonError (Ledger.Marshal managed));
                   mret (set_annotations ns0 (<[AnnotationKey := data]> (ns_annotations ns0)))
               end) (advance (GetNamespace (ns_name ns)) w)
              = (Ok (with_ledger ns0 managed), advance (GetNamespace (ns_name ns)) w)).
  { destruct managed; reflexivity. }
  rewrite E, UpdateNamespace_run.
  rewrite (fault_at_cons (advance (GetNamespace (ns_name ns)) w) (Some f) rest)
    by (rewrite faults_advance, Hf; reflexivity).
  reflexivity.
Qed.

(** One attempt whose two calls reach the server. *)
Lemma writeManagedResources_through ns ns0 managed w rest :
  faults w = None :: None :: rest → namespaces w !! ns_name ns = Some ns0 →
  ns_name ns0 = ns_name ns →
  writeManagedResources ns managed w
  = (Ok tt,
     with_namespaces
       (advance (UpdateNamespace (with_ledger ns0 managed))
          (advance (GetNamespace (ns_name ns)) w))
       (<[ns_name ns := with_ledger ns0 managed]> (namespaces w))).
Proof.
  intros Hf Hns Hname. unfold writeManagedResources.
  rewrite bind_run, GetNamespace_run, (fault_at_cons w _ _ Hf), Hns, bind_run.
  assert (E : (match managed with
               | [] => mret (set_annotations ns0 (delete AnnotationKey (ns_annotations ns0)))
               | _ :: _ =>
                   data ← lift (of_option JsonError (Ledger.Marshal managed));
                   mret (set_annotations ns0 (<[AnnotationKey := data]> (ns_annotations ns0)))
               end) (advance (GetNamespace (ns_name ns)) w)
              = (Ok (with_ledger ns0 managed), advance (GetNamespace (ns_name ns)) w)).
  { destruct managed; reflexivity. }
  rewrite E, UpdateNamespace_run, with_ledger_name.
  rewrite (fault_at_cons (advance (GetNamespace (ns_name ns)) w) None rest)
    by (rewrite faults_advance, Hf; reflexivity).
  change (namespaces (advance ?c w)) with (namespaces w).
  rewrite Hname, Hns. reflexivity.
Qed.

Section LedgerRetry.
Variables (ns ns0 : Namespace) (managed : list ManagedResource).
Hypothesis Hname : ns_name ns0 = ns_name ns.

Let attempt : list Call :=
  [GetNamespace (ns_name ns); UpdateNamespace (with_ledger ns0 managed)].
Let conflict : list (option Fault) := [None; Some FaultConflict].

Lemma retry_exhausted (rest : list (option Fault)) : ∀ steps w,
  faults w = mjoin (replicate (S steps) conflict) ++ rest →
  namespaces w !! ns_name ns = Some ns0 →
  let out := RetryOnConflict (S steps) (writeManagedResources ns managed) w in
  out.1 = Err Conflict ∧ namespaces out.2 = namespaces w ∧ faults out.2 = rest
  ∧ trace out.2 = trace w ++ mjoin (replicate (S steps) attempt).
Proof.
  induction steps as [|k IH]; intros w Hf Hns; cbv zeta.
  - assert (Hf' : faults w = None :: Some FaultConflict :: rest) by (rewrite Hf; reflexivity).
    simpl. rewrite (writeManagedResources_blocked ns ns0 managed w FaultConflict rest Hf' Hns).
    simpl. split_and!; try reflexivity.
    + rewrite Hf. reflexivity.
    + rewrite <- app_assoc. reflexivity.
  - assert (Hf' : faults w = None :: Some FaultConflict
                               :: (mjoin (replicate (S k) conflict) ++ rest))
      by (rewrite Hf; reflexivity).
    change (RetryOnConflict (S (S k)) (writeManagedResources ns managed) w)
      with (match writeManagedResources ns managed w with
            | (Err e, w') =>
                if IsConflict e
                then RetryOnConflict (S k) (writeManagedResources ns managed) w'
                else (Err e, w')
            | r => r
            end).
    rewrite (writeManagedResources_blocked ns ns0 managed w FaultConflict
               (mjoin (replicate (S k) conflict) ++ rest) Hf' Hns).
    simpl IsConflict. cbv iota.
    set (w1 := advance _ (advance _ w)).
    destruct (IH w1) as (Hr & Hn & Hfa & Ht).
    { unfold w1. rewrite !faults_advance, Hf. reflexivity. }
    { exact Hns. }
    split; [exact Hr|]. split; [rewrite Hn; reflexivity|]. split; [exact Hfa|].
    rewrite Ht. unfold w1. rewrite !trace_advance, <- !app_assoc. reflexivity.
Qed.

Lemma retry_gets_through (rest : list (option Fault)) : ∀ k steps w,
  (k < steps)%nat →
  faults w = mjoin (replicate k conflict) ++ None :: None :: rest →
  namespaces w !! ns_name ns = Some ns0 →
  let out := RetryOnConflict steps (writeManagedResources ns managed) w in
  out.1 = Ok tt
  ∧ namespaces out.2 = <[ns_name ns := with_ledger ns0 managed]> (namespaces w)
  ∧ faults out.2 = rest
  ∧ trace out.2 = trace w ++ mjoin (replicate (S k) attempt).
Proof.
  induction k as [|k IH]; intros steps w Hlt Hf Hns; cbv zeta.
  - destruct steps as [|s]; [lia|].
    rewrite retry_first_ok;
      rewrite (writeManagedResources_through ns ns0 managed w rest Hf Hns Hname);
      [|reflexivity].
    simpl. split_and!; try reflexivity.
    + rewrite Hf. reflexivity.
    + rewrite <- app_assoc. reflexivity.
  - destruct steps as [|[|s]]; [lia|lia|].
    assert (Hf' : faults w = None :: Some FaultConflict
                               :: (mjoin (replicate k conflict) ++ None :: None :: rest))
      by (rewrite Hf; reflexivity).
    change (RetryOnConflict (S (S s)) (writeManagedResources ns managed) w)
      with (match writeManagedResources ns managed w with
            | (Err e, w') =>
                if IsConflict e
                then RetryOnConflict (S s) (writeManagedResources ns managed) w'
                else (Err e, w')
            | r => r
            end).
    rewrite (writeManagedResources_blocked ns ns0 managed w FaultConflict
               (mjoin (replicate k conflict) ++ None :: None :: rest) Hf' Hns).
    simpl IsConflict. cbv iota.
    set (w1 := advance _ (advance _ w)).
    destruct (IH (S s) w1) as (Hr & Hn & Hfa & Ht).
    { lia. }
    { unfold w1. rewrite !faults_advance, Hf. reflexivity. }
    { exact Hns. }
    split; [exact Hr|]. split; [rewrite Hn; reflexivity|]. split; [exact Hfa|].
    rewrite Ht. unfold w1. rewrite !trace_advance, <- !app_assoc. reflexivity.
Qed.
End LedgerRetry.

(** X10. [updateManagedResources] tries again on a conflict and on nothing
    else, five times at most.  After fewer than five conflicting attempts
    the next one stores the namespace with the new ledger; after five the
    conflict is returned and no namespace was written; another error ends
    the call at the first attempt.  Each attempt is a fetch of the namespace
    and an update. *)
Theorem ledger_write_retries_conflicts_five_times
    (ns ns0 : Namespace) (managed : list ManagedResource) (w : World)
    (rest : list (option Fault)) :
  namespaces w !! ns_name ns = Some ns0 → ns_name ns0 = ns_name ns →
  let out := updateManagedResources ns managed w in
  let attempt := [GetNamespace (ns_name ns); UpdateNamespace (with_ledger ns0 managed)] in
  (∀ k, (k < 5)%nat →
     faults w = mjoin (replicate k [None; Some FaultConflict]) ++ None :: None :: rest →
     out.1 = Ok tt
     ∧ namespaces out.2 = <[ns_name ns := with_ledger ns0 managed]> (namespaces w)
     ∧ trace out.2 = trace w ++ mjoin (replicate (S k) attempt))
  ∧ (faults w = mjoin (replicate 5 [None; Some FaultConflict]) ++ rest →
     out.1 = Err Conflict ∧ namespaces out.2 = namespaces w
     ∧ trace out.2 = trace w ++ mjoin (replicate 5 attempt))
  ∧ (faults w = None :: Some FaultUnavailable :: rest →
     out.1 = Err Unavailable ∧ namespaces out.2 = namespaces w
     ∧ trace out.2 = trace w ++ attempt).
Proof.
  intros Hns Hname. cbv zeta. unfold updateManagedResources, DefaultRetrySteps.
  split; [|split].
  - intros k Hk Hf.
    destruct (retry_gets_through ns ns0 managed Hname rest k 5 w Hk Hf Hns)
      as (Hr & Hn & _ & Ht).
    auto.
  - intros Hf.
    destruct (retry_exhausted ns ns0 managed rest 4 w Hf Hns) as (Hr & Hn & _ & Ht).
    auto.
  - intros Hf. simpl.
    rewrite (writeManagedResources_blocked ns ns0 managed w FaultUnavailable rest Hf Hns).
    simpl. rewrite <- app_assoc. auto.
Qed.

Lemma ledger_write_retries_conflicts_five_times_witness :
  let plan := [None; Some FaultConflict; None; Some FaultConflict; None; None] in
  let out := updateManagedResources Lite.ns_waiting [] (Lite.world Lite.ns_waiting [] plan) in
  out.1 = Ok tt ∧ length (trace out.2) = 6%nat.
Proof.
  cbv zeta.
  destruct (ledger_write_retries_conflicts_five_times Lite.ns_waiting Lite.ns_waiting []
              (Lite.world Lite.ns_waiting [] [None; Some FaultConflict; None;
                                              Some FaultConflict; None; None])
              [] eq_refl eq_refl) as (H & _ & _).
  destruct (H 2%nat ltac:(lia) eq_refl) as (Hr & _ & Ht).
  split; [exact Hr|]. rewrite Ht. reflexivity.
Defined.

(** ** The shape of the digest *)

Lemma round_length (st : list Z) (kw : Z * Z) : length (Sha256.round st kw) = length st.
Proof.
  unfold Sha256.round.
  destruct st as [|a [|b [|c [|d [|e [|f [|g [|h [|i st]]]]]]]]]; reflexivity.
Qed.

Lemma rounds_length (l : list (Z * Z)) : ∀ st,
  length (foldl Sha256.round st l) = length st.
Proof.
  induction l as [|kw l IH]; intros st; [reflexivity|].
  simpl. rewrite IH. apply round_length.
Qed.

Lemma compress_length (h block : list Z) : length (Sha256.compress h block) = length h.
Proof.
  unfold Sha256.compress. rewrite length_zip_with, rounds_length. lia.
Qed.

Lemma blocks_length (fuel : nat) : ∀ ws h, length (Sha256.blocks fuel ws h) = length h.
Proof.
  induction fuel as [|k IH]; intros ws h; [reflexivity|].
  simpl. destruct ws; [reflexivity|]. rewrite IH. apply compress_length.
Qed.

Lemma be_bytes_length (n : nat) (x : Z) : length (Sha256.be_bytes n x) = n.
Proof. induction n as [|k IH]; simpl; [reflexivity | rewrite IH; reflexivity]. Qed.

Lemma be_bytes_range (n : nat) (x : Z) :
  Forall (λ b, 0 ≤ b < 256)%Z (Sha256.be_bytes n x).
Proof.
  induction n as [|k IH]; simpl; constructor; [|exact IH].
  apply Z.mod_pos_bound. lia.
Qed.

Lemma words_bytes_length (l : list Z) :
  length (mjoin (Sha256.be_bytes 4 <$> l)) = (4 * length l)%nat.
Proof.
  induction l as [|x l IH]; [reflexivity|].
  change (mjoin (Sha256.be_bytes 4 <$> x :: l))
    with (Sha256.be_bytes 4 x ++ mjoin (Sha256.be_bytes 4 <$> l)).
  rewrite length_app, be_bytes_length, IH. simpl. lia.
Qed.

Lemma words_bytes_range (l : list Z) :
  Forall (λ b, 0 ≤ b < 256)%Z (mjoin (Sha256.be_bytes 4 <$> l)).
Proof.
  induction l as [|x l IH]; [constructor|].
  change (mjoin (Sha256.be_bytes 4 <$> x :: l))
    with (Sha256.be_bytes 4 x ++ mjoin (Sha256.be_bytes 4 <$> l)).
  apply Forall_app. split; [apply be_bytes_range | exact IH].
Qed.

Lemma Sum256_length (msg : list Z) : length (Sha256.Sum256 msg) = 32%nat.
Proof.
  unfold Sha256.Sum256. cbv zeta. rewrite words_bytes_length, blocks_length.
  vm_compute. reflexivity.
Qed.

Lemma hex_of_bytes_length (bs : list Z) :
  String.length (hex_of_bytes bs) = (2 * length bs)%nat.
Proof. induction bs as [|b bs IH]; simpl; [reflexivity | rewrite IH; lia]. Qed.

Lemma hex_digit_lower (d : Z) : (0 ≤ d < 16)%Z → is_lower_hex (hex_digit d) = true.
Proof.
  intros H.
  assert (E : (d = 0 ∨ d = 1 ∨ d = 2 ∨ d = 3 ∨ d = 4 ∨ d = 5 ∨ d = 6 ∨ d = 7 ∨ d = 8
               ∨ d = 9 ∨ d = 10 ∨ d = 11 ∨ d = 12 ∨ d = 13 ∨ d = 14 ∨ d = 15)%Z) by lia.
  repeat (destruct E as [->|E]; [reflexivity|]). rewrite E. reflexivity.
Qed.

Lemma hex_of_bytes_lower (bs : list Z) :
  Forall (λ b, 0 ≤ b < 256)%Z bs →
  Forall (λ c, is_lower_hex c = true) (list_ascii_of_string (hex_of_bytes bs)).
Proof.
  induction 1 as [|b bs Hb _ IH]; simpl; [constructor|].
  constructor; [|constructor; [|exact IH]]; apply hex_digit_lower.
  - split; [apply Z.div_pos; lia | apply Z.div_lt_upper_bound; lia].
  - apply Z.mod_pos_bound. lia.
Qed.

Lemma hash_length (u : Unstructured) : String.length (calculateResourceHash u) = 64%nat.
Proof. rewrite hash_reads_spec, hex_of_bytes_length, Sum256_length. reflexivity. Qed.

(** X11. The hash of every object is a string of 64 lower-case hexadecimal
    digits; in particular it is never the empty string, which is what an
    object without hash annotation reads as. *)
Theorem hash_is_64_hex_digits (u : Unstructured) :
  String.length (calculateResourceHash u) = 64%nat
  ∧ Forall (λ c, is_lower_hex c = true) (list_ascii_of_string (calculateResourceHash u))
  ∧ calculateResourceHash u ≠ "".
Proof.
  pose proof (hash_length u) as L.
  split; [exact L|]. split.
  - rewrite hash_reads_spec.
    apply hex_of_bytes_lower. unfold Sha256.Sum256. cbv zeta. apply words_bytes_range.
  - intros E. rewrite E in L. discriminate L.
Qed.

(** ** Stamping a template *)

Lemma SetNamespace_annotations (u : Unstructured) (m : gmap string JSON) (n : string) :
  u !! "metadata" = Some (JObj m) →
  Unstr.GetAnnotations (Unstr.SetNamespace u n) = Unstr.GetAnnotations u.
Proof.
  intros Hm. unfold Unstr.SetNamespace.
  destruct (set_metadata_string_shape u m Hm "namespace" n) as (m1 & -> & _ & Hother).
  rewrite (GetAnnotations_read _ m1 (lookup_insert_eq _ _ _)), (GetAnnotations_read u m Hm).
  rewrite Hother by discriminate. reflexivity.
Qed.

(** Stamping changes nothing outside the metadata. *)
Lemma stamp_outside_metadata (namespace className : string) (t : Unstructured) (k : string) :
  Unstr.GetName t ≠ "" → k ≠ "metadata" → (stamp namespace className t).1 !! k = t !! k.
Proof.
  intros Hname Hk. destruct (named_has_metadata t Hname) as [m Hm].
  destruct (set_metadata_string_shape t m Hm "namespace" namespace) as (m1 & E1 & _ & _).
  unfold stamp. unfold Unstr.SetNamespace. rewrite E1. simpl.
  unfold Unstr.SetAnnotations.
  rewrite (set_metadata_lookup _ m1 (lookup_insert_eq _ _ _)), insert_insert_eq.
  apply lookup_insert_ne. congruence.
Qed.

(** X12. What the pass makes of a template that has a name, before it
    applies it: the object goes to the reconciled namespace whatever
    namespace the manifest names; it carries the managed-by mark, the name of
    the class and the hash of the template as annotations; the other
    annotations of the manifest are kept; and nothing outside the metadata
    changes. *)
Theorem stamp_marks_and_places (namespace className : string) (t : Unstructured) :
  Unstr.GetName t ≠ "" →
  let d := (stamp namespace className t).1 in
  client.obj_key d = (Unstr.GetAPIVersion t, Unstr.GetKind t, namespace, Unstr.GetName t)
  ∧ Unstr.index (Unstr.GetAnnotations d) ManagedByAnnotation = "namespaceclass-controller"
  ∧ Unstr.index (Unstr.GetAnnotations d) CreatedByClassAnnotation = className
  ∧ Unstr.index (Unstr.GetAnnotations d) ResourceHashAnnotation = calculateResourceHash t
  ∧ (stamp namespace className t).2 = calculateResourceHash t
  ∧ (∀ k, k ≠ ManagedByAnnotation → k ≠ CreatedByClassAnnotation →
          k ≠ ResourceHashAnnotation →
          Unstr.index (Unstr.GetAnnotations d) k = Unstr.index (Unstr.GetAnnotations t) k)
  ∧ (∀ k, k ≠ "metadata" → d !! k = t !! k).
Proof.
  intros Hname. destruct (named_has_metadata t Hname) as [m Hm].
  pose proof (stamp_shape namespace className t Hname) as Hs. cbv zeta in *.
  destruct Hs as (Hh & Hkey & _ & Hhash & _).
  split; [exact Hkey|].
  pose proof (SetNamespace_annotations t m namespace Hm) as Hann0.
  destruct (set_metadata_string_shape t m Hm "namespace" namespace) as (m1 & E1 & _ & _).
  unfold stamp in *. unfold Unstr.SetNamespace in *. rewrite E1 in *. simpl in *.
  set (ann := <[ResourceHashAnnotation := _]> _) in *.
  assert (Hm1 : (<["metadata" := JObj m1]> t) !! "metadata" = Some (JObj m1))
    by apply lookup_insert_eq.
  unfold Unstr.SetAnnotations in *.
  rewrite (set_metadata_lookup _ m1 Hm1), insert_insert_eq in *.
  assert (Hann : Unstr.GetAnnotations
                   (<["metadata" := JObj (<["annotations" := JObj (JStr <$> ann)]> m1)]> t)
                 = Some ann).
  { rewrite (GetAnnotations_read _ _ (lookup_insert_eq _ _ _)).
    rewrite lookup_insert_eq. apply string_map_of_strings. }
  rewrite Hann. unfold Unstr.index. simpl.
  split; [|split; [|split; [|split; [|split]]]].
  - unfold ann. rewrite !lookup_insert_ne by discriminate.
    rewrite lookup_insert_eq. reflexivity.
  - unfold ann. rewrite lookup_insert_ne by discriminate.
    rewrite lookup_insert_eq. reflexivity.
  - unfold ann. rewrite lookup_insert_eq. simpl. apply metadata_change_hash.
  - exact Hh.
  - intros k K1 K2 K3. unfold ann.
    rewrite !lookup_insert_ne by congruence. rewrite Hann0. reflexivity.
  - intros k Hk. apply lookup_insert_ne. congruence.
Qed.

Lemma stamp_marks_and_places_witness :
  client.obj_key (stamp "team-b" "standard" (Lite.object "elsewhere" (Lite.res "Secret" "token"))).1
  = ("v1", "Secret", "team-b", "token").
Proof.
  destruct (stamp_marks_and_places "team-b" "standard"
              (Lite.object "elsewhere" (Lite.res "Secret" "token"))
              ltac:(vm_compute; discriminate)) as [H _].
  rewrite H. vm_compute. reflexivity.
Defined.

(** X13. An object that is live where a template goes and has no hash
    annotation is taken over: when the two calls reach the server, the pass
    replaces it by the stamped template, sent with the resource version of
    the object found, so that the object stored afterwards carries the
    managed-by mark and the spec of the template. *)
Theorem unstamped_object_is_overwritten
    (namespace className : string) (t e : Unstructured) (w : World) :
  valid t → objects w !! template_key namespace t = Some e →
  Unstr.index (Unstr.GetAnnotations e) ResourceHashAnnotation = "" →
  fault_at w 0 = None → fault_at w 1 = None →
  let d := Unstr.SetResourceVersion (stamp namespace className t).1
             (Unstr.GetResourceVersion e) in
  createOrUpdateResource (stamp namespace className t).1 w
  = (Ok d, with_objects (advance (UpdateObject d) (advance (FetchCall namespace t) w))
             (<[template_key namespace t := d]> (objects w)))
  ∧ tagged d ∧ d !! "spec" = t !! "spec".
Proof.
  intros Hv He Hnone Hf0 Hf1. cbv zeta.
  destruct (valid_fields t Hv) as (_ & _ & Hname).
  pose proof (stamp_shape namespace className t Hname) as Hs. cbv zeta in Hs.
  destruct Hs as (_ & Hkey & Htag & Hhash & m & Hm).
  pose proof (createOrUpdateResource_clear _ m _ _ _ _ w Hkey Hm (valid_typed t Hv) Hf0 Hf1)
    as Hrun.
  cbv zeta in Hrun. unfold template_key in He. rewrite He in Hrun.
  rewrite decide_False in Hrun.
  2:{ rewrite Hnone, Hhash. intros E. symmetry in E.
      pose proof (hash_length t) as L. rewrite E in L. discriminate L. }
  split; [exact Hrun|].
  destruct (SetResourceVersion_shape _ m (Unstr.GetResourceVersion e) Hm) as [_ Hann].
  cbv zeta in Hann. split.
  - apply (tagged_by_annotations _ _ Hann Htag).
  - unfold Unstr.SetResourceVersion.
    destruct (set_metadata_string_shape _ m Hm "resourceVersion" (Unstr.GetResourceVersion e))
      as (m1 & -> & _ & _).
    rewrite lookup_insert_ne by discriminate.
    apply stamp_outside_metadata; [exact Hname | discriminate].
Qed.

Lemma unstamped_object_is_overwritten_witness :
  let t := Lite.object "team-b" (Lite.res "ConfigMap" "settings") in
  let d := Unstr.SetResourceVersion (stamp "team-b" "standard" t).1
             (Unstr.GetResourceVersion t) in
  (createOrUpdateResource (stamp "team-b" "standard" t).1
     (Lite.world Lite.ns_waiting [] [])).1 = Ok d
  ∧ tagged d.
Proof.
  cbv zeta.
  destruct (unstamped_object_is_overwritten "team-b" "standard"
              (Lite.object "team-b" (Lite.res "ConfigMap" "settings"))
              (Lite.object "team-b" (Lite.res "ConfigMap" "settings"))
              (Lite.world Lite.ns_waiting [] [])
              ltac:(vm_compute; reflexivity) ltac:(vm_compute; reflexivity)
              ltac:(vm_compute; reflexivity) eq_refl eq_refl) as (Hrun & Htag & _).
  rewrite Hrun. split; [reflexivity | exact Htag].
Defined.

(** ** The ledger read back *)

Lemma chars_app (a b : string) : chars (a ++ b)%string = chars a ++ chars b.
Proof. induction a as [|c a IH]; simpl; [reflexivity | rewrite IH; reflexivity]. Qed.

Lemma chars_length (s : string) : length (chars s) = String.length s.
Proof. induction s as [|c s IH]; simpl; [reflexivity | rewrite IH; reflexivity]. Qed.

Lemma escape_cons_ascii (c : ascii) (r : list ascii) :
  (Json.code c < 128)%Z → Json.escape (c :: r) = Json.escape_byte c ++ Json.escape r.
Proof.
  intros H. simpl. destruct r as [|c2 [|c3 r']]; try reflexivity.
  replace (Json.code c =? 226)%Z with false by (symmetry; apply Z.eqb_neq; lia).
  reflexivity.
Qed.

(** The scanner undoes what the encoder does to one ASCII character. *)
Lemma scan_escape_byte (c : ascii) (k : nat) (r acc : list ascii) :
  (Json.code c < 128)%Z →
  Json.scan_string (S k) (Json.escape_byte c ++ r) acc = Json.scan_string k r (c :: acc).
Proof.
  intros H. destruct c as [b0 b1 b2 b3 b4 b5 b6 b7].
  destruct b7; [vm_compute in H; destruct b0, b1, b2, b3, b4, b5, b6; discriminate H|].
  clear H. destruct b0, b1, b2, b3, b4, b5, b6; reflexivity.
Qed.

Lemma escape_byte_nonempty (c : ascii) : (1 ≤ length (Json.escape_byte c))%nat.
Proof.
  unfold Json.escape_byte.
  repeat match goal with |- context [if ?b then _ else _] => destruct b end;
    simpl; lia.
Qed.

Lemma escape_length (s : list ascii) :
  Forall (λ c, (Json.code c < 128)%Z) s → (length s ≤ length (Json.escape s))%nat.
Proof.
  induction 1 as [|c s Hc Hs IH]; [reflexivity|].
  rewrite escape_cons_ascii by exact Hc. rewrite length_app. simpl.
  pose proof (escape_byte_nonempty c). lia.
Qed.

(** The scanner reads an encoded ASCII string back, up to the closing
    quote. *)
Lemma scan_escape (s : list ascii) :
  Forall (λ c, (Json.code c < 128)%Z) s →
  ∀ (k : nat) (rest acc : list ascii), (length s ≤ k)%nat →
  Json.scan_string (S k) (Json.escape s ++ byte_of_Z 34 :: rest) acc
  = Some (string_of_list_ascii (rev acc ++ s), rest).
Proof.
  induction 1 as [|c s Hc Hs IH]; intros k rest acc Hk.
  - rewrite app_nil_r. reflexivity.
  - rewrite escape_cons_ascii by exact Hc. rewrite <- app_assoc.
    rewrite scan_escape_byte by exact Hc.
    destruct k as [|k]; [simpl in Hk; lia|].
    rewrite IH by (simpl in Hk; lia).
    simpl. rewrite <- app_assoc. reflexivity.
Qed.

Lemma chars_quote (s : string) :
  chars (Json.quote s) = byte_of_Z 34 :: Json.escape (chars s) ++ [byte_of_Z 34].
Proof.
  unfold Json.quote. rewrite !chars_app.
  rewrite list_ascii_of_string_of_list_ascii. reflexivity.
Qed.

(** A quoted ASCII string parses as that string, whatever follows. *)
Lemma parse_value_quote (s : string) (k : nat) (rest : list ascii) :
  ascii_only s →
  Json.parse_value (S k) (chars (Json.quote s) ++ rest) = Some (TStr s, rest).
Proof.
  intros Hs. rewrite chars_quote.
  change ((byte_of_Z 34 :: Json.escape (chars s) ++ [byte_of_Z 34]) ++ rest)
    with (byte_of_Z 34 :: (Json.escape (chars s) ++ [byte_of_Z 34]) ++ rest).
  rewrite <- app_assoc.
  change ([byte_of_Z 34] ++ rest) with (byte_of_Z 34 :: rest).
  change (Json.parse_value (S k) (byte_of_Z 34 :: ?r))
    with ('(str, r') ← Json.scan_string (S (length r)) r []; Some (TStr str, r')).
  rewrite scan_escape; [|exact Hs|].
  - simpl. rewrite string_of_list_ascii_of_string. reflexivity.
  - rewrite length_app. pose proof (escape_length _ Hs). lia.
Qed.

Lemma parse_members_S (k : nat) (acc : list (string * JText)) (s : list ascii) :
  Json.parse_members (S k) acc s
  = match Json.skip_ws s with
    | c :: r =>
        if Json.is_dquote c then
          match Json.scan_string (S (length r)) r [] with
          | Some (key, r1) =>
              match Json.skip_ws r1 with
              | c1 :: r2 =>
                  if Json.isc c1 ":" then
                    match Json.parse_value k r2 with
                    | Some (v, r3) =>
                        match Json.skip_ws r3 with
                        | c3 :: r4 =>
                            if Json.isc c3 "," then Json.parse_members k ((key, v) :: acc) r4
                            else if Json.isc c3 "}"
                                 then Some (TObj (rev ((key, v) :: acc)), r4)
                                 else None
                        | [] => None
                        end
                    | None => None
                    end
                  else None
              | [] => None
              end
          | None => None
          end
        else None
    | [] => None
    end.
Proof. reflexivity. Qed.

Lemma parse_elems_S (k : nat) (acc : list JText) (s : list ascii) :
  Json.parse_elems (S k) acc s
  = match Json.parse_value k s with
    | Some (v, r) =>
        match Json.skip_ws r with
        | c :: r' =>
            if Json.isc c "," then Json.parse_elems k (v :: acc) r'
            else if Json.isc c "]" then Some (TArr (rev (v :: acc)), r')
            else None
        | [] => None
        end
    | None => None
    end.
Proof. reflexivity. Qed.

Lemma chars_member (name value : string) (rest : list ascii) :
  chars (Ledger.member name value) ++ rest
  = byte_of_Z 34 :: Json.escape (chars name)
      ++ byte_of_Z 34 :: ":"%char :: chars (Json.quote value) ++ rest.
Proof.
  unfold Ledger.member. rewrite !chars_app, chars_quote.
  simpl. rewrite <- !app_assoc. reflexivity.
Qed.

(** One member of an object, read by the parser: the pair is pushed and
    the separator that follows decides how the object goes on. *)
Lemma parse_member (name value : string) (sep : ascii) (k : nat)
    (acc : list (string * JText)) (rest : list ascii) :
  ascii_only name → ascii_only value → Json.is_ws sep = false →
  Json.parse_members (S (S k)) acc (chars (Ledger.member name value) ++ sep :: rest)
  = if Json.isc sep ","
    then Json.parse_members (S k) ((name, TStr value) :: acc) rest
    else if Json.isc sep "}"
         then Some (TObj (rev ((name, TStr value) :: acc)), rest)
         else None.
Proof.
  intros Hn Hv Hsep. rewrite chars_member, parse_members_S.
  change (Json.skip_ws (byte_of_Z 34 :: ?r)) with (byte_of_Z 34 :: r).
  change (Json.is_dquote (byte_of_Z 34)) with true. cbv iota.
  rewrite scan_escape; [|exact Hn|].
  2:{ rewrite length_app. pose proof (escape_length _ Hn). lia. }
  change (Json.skip_ws (":"%char :: ?r)) with (":"%char :: r).
  change (Json.isc ":"%char ":") with true. cbv iota.
  rewrite parse_value_quote by exact Hv.
  simpl Json.skip_ws. rewrite Hsep.
  simpl. rewrite string_of_list_ascii_of_string. reflexivity.
Qed.

Lemma ascii_only_literal (s : string) :
  forallb (λ c, (Json.code c <? 128)%Z) (chars s) = true → ascii_only s.
Proof.
  intros H. apply Forall_forall. intros c Hc.
  rewrite forallb_forall in H. apply Z.ltb_lt, H. apply list_elem_of_In, Hc.
Qed.

(** One encoded descriptor parses as an object with the descriptor's
    members. *)
Lemma parse_value_encode_one (r : ManagedResource) (k : nat) (rest : list ascii) :
  plain r →
  Json.parse_value (6 + k) (chars (Ledger.encode_one r) ++ rest)
  = Some (TObj (members_of r), rest).
Proof.
  intros (Ha & Hk & Hn & Hh).
  unfold Ledger.encode_one, members_of. rewrite !chars_app.
  change (chars "{") with ["{"%char]. change (chars ",") with [","%char].
  change (chars "}") with ["}"%char].
  rewrite <- !app_assoc.
  change (["{"%char] ++ ?r) with ("{"%char :: r).
  change (6 + k)%nat with (S (S (S (S (S (S k)))))).
  rewrite (chars_member "apiVersion").
  change (Json.parse_value (S ?f) ("{"%char :: byte_of_Z 34 :: ?r))
    with (Json.parse_members f [] (byte_of_Z 34 :: r)).
  rewrite <- (chars_member "apiVersion").
  cbn [app].
  rewrite (parse_member "apiVersion") by
    first [exact Ha | reflexivity | apply ascii_only_literal; reflexivity].
  change (Json.isc ","%char ",") with true. cbv iota.
  rewrite (parse_member "kind") by
    first [exact Hk | reflexivity | apply ascii_only_literal; reflexivity].
  change (Json.isc ","%char ",") with true. cbv iota.
  destruct (decide (Hash r = "")) as [E|E].
  - change (chars "" ++ ?r) with r.
    change (["}"%char] ++ rest) with ("}"%char :: rest).
    rewrite (parse_member "name") by
      first [exact Hn | reflexivity | apply ascii_only_literal; reflexivity].
    reflexivity.
  - rewrite chars_app. change (chars ",") with [","%char].
    rewrite <- !app_assoc. cbn [app].
    rewrite (parse_member "name") by
      first [exact Hn | reflexivity | apply ascii_only_literal; reflexivity].
    change (Json.isc ","%char ",") with true. cbv iota.
    change (["}"%char] ++ rest) with ("}"%char :: rest).
    rewrite (parse_member "hash") by
      first [exact Hh | reflexivity | apply ascii_only_literal; reflexivity].
    reflexivity.
Qed.

Lemma chars_encode_one_head (r : ManagedResource) :
  ∃ t, chars (Ledger.encode_one r) = "{"%char :: t.
Proof. eexists. reflexivity. Qed.

Lemma join_cons2 (x y : string) (l : list string) :
  Json.join "," (x :: y :: l) = (x ++ "," ++ Json.join "," (y :: l))%string.
Proof. reflexivity. Qed.

Lemma chars_join_head (r : ManagedResource) (l : list ManagedResource) :
  ∃ t, chars (Json.join "," (Ledger.encode_one <$> r :: l)) = "{"%char :: t.
Proof.
  destruct l as [|r' l]; [apply chars_encode_one_head|].
  rewrite !fmap_cons, join_cons2, chars_app.
  destruct (chars_encode_one_head r) as [t ->]. eexists. reflexivity.
Qed.

Lemma chars_join_length (l : list ManagedResource) :
  (length l ≤ length (chars (Json.join "," (Ledger.encode_one <$> l))))%nat.
Proof.
  induction l as [|r [|r' l] IH].
  - simpl. lia.
  - change (Json.join "," (Ledger.encode_one <$> [r])) with (Ledger.encode_one r).
    destruct (chars_encode_one_head r) as [t ->]. simpl. lia.
  - rewrite !fmap_cons, join_cons2, !chars_app, !length_app.
    destruct (chars_encode_one_head r) as [t ->].
    rewrite !fmap_cons in IH. change (length (chars ",")) with 1%nat.
    cbn [length] in IH |- *. lia.
Qed.

(** The elements of an encoded ledger, read by the parser. *)
Lemma parse_elems_join (l : list ManagedResource) :
  Forall plain l → l ≠ [] →
  ∀ (k : nat) (acc : list JText) (rest : list ascii),
  Json.parse_elems (length l + 6 + k) acc
    (chars (Json.join "," (Ledger.encode_one <$> l)) ++ "]"%char :: rest)
  = Some (TArr (rev acc ++ ((λ r, TObj (members_of r)) <$> l)), rest).
Proof.
  induction 1 as [|r l Hr Hl IH]; intros Hne k acc rest; [done|].
  destruct l as [|r' l].
  - change (length [r] + 6 + k)%nat with (S (6 + k)).
    rewrite parse_elems_S.
    change (Json.join "," (Ledger.encode_one <$> [r])) with (Ledger.encode_one r).
    rewrite parse_value_encode_one by exact Hr.
    reflexivity.
  - replace (length (r :: r' :: l) + 6 + k)%nat
      with (S (6 + (length (r' :: l) + k))) by (simpl; lia).
    rewrite parse_elems_S, !fmap_cons, join_cons2, !chars_app, <- !app_assoc.
    rewrite parse_value_encode_one by exact Hr.
    change (chars "," ++ ?x) with (","%char :: x).
    change (Json.skip_ws (","%char :: ?x)) with (","%char :: x).
    change (Json.isc ","%char ",") with true. cbv iota.
    replace (6 + (length (r' :: l) + k))%nat with (length (r' :: l) + 6 + k)%nat by lia.
    rewrite <- fmap_cons, IH by done.
    simpl. rewrite <- app_assoc. reflexivity.
Qed.

Lemma decode_one_members (r : ManagedResource) :
  Ledger.decode_one (TObj (members_of r)) = Some r.
Proof.
  destruct r as [a k n h]. unfold members_of. simpl.
  destruct (decide (h = "")) as [->|E]; reflexivity.
Qed.

Lemma mapM_decode (l : list ManagedResource) :
  mapM Ledger.decode_one ((λ r, TObj (members_of r)) <$> l) = Some l.
Proof.
  apply mapM_Some. induction l as [|r l IH]; constructor;
    [apply decode_one_members | exact IH].
Qed.

(** What [json.Marshal] writes for ASCII descriptors, [json.Unmarshal]
    reads back. *)
Lemma Unmarshal_Marshal (l : list ManagedResource) :
  Forall plain l → l ≠ [] →
  Ledger.Unmarshal ("[" ++ Json.join "," (Ledger.encode_one <$> l) ++ "]") = Some l.
Proof.
  intros Hl Hne. unfold Ledger.Unmarshal, Json.parse.
  set (text := ("[" ++ Json.join "," (Ledger.encode_one <$> l) ++ "]")%string).
  assert (Et : chars text = "["%char :: chars (Json.join "," (Ledger.encode_one <$> l))
                              ++ ["]"%char]).
  { unfold text. rewrite !chars_app. reflexivity. }
  rewrite Et.
  pose proof (chars_join_length l) as Hlen.
  destruct l as [|r l]; [done|].
  set (body := chars (Json.join "," (Ledger.encode_one <$> r :: l))) in *.
  set (n := length (r :: l)) in *.
  assert (1 ≤ n)%nat by (unfold n; simpl; lia).
  replace (2 * length ("["%char :: body ++ ["]"%char]) + 2)%nat
    with (S (n + 6 + (2 * length body - 1 - n)))
    by (cbn [length]; rewrite length_app; cbn [length]; lia).
  destruct (chars_join_head r l) as [t Eh]. fold body in Eh.
  assert (Ev : ∀ f, Json.parse_value (S f) ("["%char :: body ++ ["]"%char])
                    = Json.parse_elems f [] (body ++ ["]"%char])).
  { intros f. rewrite Eh. reflexivity. }
  rewrite Ev. unfold n, body.
  rewrite parse_elems_join by done.
  cbn [Json.skip_ws mbind option_bind rev app]. apply mapM_decode.
Qed.

Lemma Marshal_not_empty (l : list ManagedResource) :
  default "" (Ledger.Marshal l) ≠ "".
Proof. discriminate. Qed.

(** The ledger annotation [updateManagedResources] writes reads back as the
    descriptors it was given. *)
Lemma getManagedResources_with_ledger (ns : Namespace) (managed : list ManagedResource) :
  Forall plain managed → getManagedResources (with_ledger ns managed) = Ok managed.
Proof.
  intros Hp. unfold getManagedResources. rewrite with_ledger_annotation.
  destruct managed as [|r l]; [reflexivity|].
  rewrite decide_False by apply Marshal_not_empty.
  change (default "" (Ledger.Marshal (r :: l)))
    with ("[" ++ Json.join "," (Ledger.encode_one <$> r :: l) ++ "]")%string.
  rewrite Unmarshal_Marshal by done. reflexivity.
Qed.

Lemma plain_literal (l : list ManagedResource) :
  forallb (λ r, forallb (λ s, forallb (λ c, (Json.code c <? 128)%Z) (chars s))
                  [APIVersion r; Kind r; Name r; Hash r]) l = true →
  Forall plain l.
Proof.
  intros H. apply Forall_forall. intros r Hr.
  rewrite forallb_forall in H. specialize (H r (proj1 (list_elem_of_In _ _) Hr)).
  cbn [forallb] in H. rewrite !andb_true_iff in H.
  destruct H as (Ha & Hk & Hn & Hh & _).
  repeat split; apply ascii_only_literal; assumption.
Qed.

(** X14. The ledger round trip.  When [updateManagedResources] succeeds
    for descriptors whose fields are ASCII, the namespace it has stored
    reads back through [getManagedResources] as exactly those descriptors,
    in the same order, the empty list included.  The store is keyed by
    name. *)
Theorem ledger_written_is_ledger_read (ns : Namespace) (managed : list ManagedResource)
    (w : World) :
  Forall plain managed →
  (∀ n, namespaces w !! ns_name ns = Some n → ns_name n = ns_name ns) →
  (updateManagedResources ns managed w).1 = Ok tt →
  ∃ ns', namespaces (updateManagedResources ns managed w).2 !! ns_name ns = Some ns'
         ∧ getManagedResources ns' = Ok managed.
Proof.
  intros Hp Hkey Hok.
  pose proof (updateManagedResources_namespaces ns managed w) as H.
  rewrite Hok in H. destruct H as (ns0 & Hns0 & Hw).
  exists (with_ledger ns0 managed). split.
  - rewrite Hw, (Hkey _ Hns0). apply lookup_insert_eq.
  - apply getManagedResources_with_ledger, Hp.
Qed.

Lemma ledger_written_is_ledger_read_witness :
  let managed := [ {| APIVersion := "apps/v1"; Kind := "Deployment"; Name := "a<b&c\d";
                      Hash := "0f3c" |};
                   Lite.res "Secret" "token" ] in
  ∃ ns', namespaces (updateManagedResources Lite.ns_waiting managed
                       (Lite.world Lite.ns_waiting [] [])).2 !! "team-b" = Some ns'
         ∧ getManagedResources ns' = Ok managed.
Proof.
  cbv zeta.
  apply (ledger_written_is_ledger_read Lite.ns_waiting _ (Lite.world Lite.ns_waiting [] [])).
  - apply plain_literal. vm_compute. reflexivity.
  - intros n Hn. vm_compute in Hn. injection Hn as <-. reflexivity.
  - vm_compute. reflexivity.
Defined.

(** ** A pass without faults *)

Lemma createOrUpdateResource_calm
    (d : Unstructured) (m : gmap string JSON) (av kd ns n : string) (w : World) :
  client.obj_key d = (av, kd, ns, n) → d !! "metadata" = Some (JObj m) →
  client.typed av kd = true → faults w = [] →
  ∃ d' w', createOrUpdateResource d w = (Ok d', w') ∧ faults w' = [].
Proof.
  intros Hk Hm Ht Hc.
  rewrite (createOrUpdateResource_clear d m av kd ns n w Hk Hm Ht
             (calm_fault_at w 0 Hc) (calm_fault_at w 1 Hc)).
  cbv zeta. destruct (objects w !! (av, kd, ns, n)) as [e|]; [destruct (decide _)|];
    eexists _, _; (split; [reflexivity|]); simpl; rewrite Hc; reflexivity.
Qed.

Lemma applyDesired_calm (namespace className : string) (ds : list Unstructured) :
  ∀ acc w, Forall valid ds → faults w = [] →
  ∃ managed w', applyDesired namespace className ds acc w = (Ok managed, w')
                ∧ faults w' = [].
Proof.
  induction ds as [|t ds IH]; intros acc w Hv Hc.
  - eexists _, _. split; [reflexivity | exact Hc].
  - rewrite applyDesired_cons. apply Forall_cons in Hv as [Hvt Hvds].
    destruct (valid_fields t Hvt) as (_ & _ & Hname).
    pose proof (stamp_shape namespace className t Hname) as Hs. cbv zeta in Hs.
    destruct Hs as (_ & Hkey & _ & _ & m & Hm).
    destruct (createOrUpdateResource_calm _ m _ _ _ _ w Hkey Hm (valid_typed t Hvt) Hc)
      as (d' & w1 & Hrun & Hc1).
    rewrite bind_run, Hrun. apply IH; assumption.
Qed.





(** ** The state a pass without faults leaves *)










(** ** The second pass *)

(** A pass over a namespace that is as its class wants it writes no
    resource, whatever the faults. *)
Lemma converged_quiet
    (w : World) (req className : string) (ns : Namespace) (nsc : NamespaceClass)
    (desired : list Unstructured) :
  namespaces w !! req = Some ns → ns_name ns = req →
  IsZero (ns_deletionTimestamp ns) = true →
  ns_labels ns !! LabelKey = Some className →
  containsString (ns_finalizers ns) NamespaceFinalizer = true →
  classes w !! className = Some nsc →
  parseResources (nsc_resources nsc) className = Ok desired →
  getManagedResources ns = Ok (descriptor <$> desired) →
  (∀ t, t ∈ desired →
     ∃ e, objects w !! template_key req t = Some e
          ∧ Unstr.index (Unstr.GetAnnotations e) ResourceHashAnnotation
            = calculateResourceHash t) →
  let w' := (Reconcile req w).2 in
  objects w' = objects w
  ∧ ∃ calls, trace w' = trace w ++ calls ∧ object_writes calls = [].
Proof.
  intros Hns Hname Hdel Hlab Hfin Hcls Hparse Hled Hlive. cbv zeta.
  destruct (fault_at w 0) as [f0|] eqn:F0.
  { unfold Reconcile. rewrite bind_run, attempt_run, GetNamespace_run, F0. simpl.
    destruct (IsNotFound (fault_error f0)); simpl;
      (split; [reflexivity|]; eexists [_]; split; reflexivity). }
  destruct (fault_at w 1) as [f1|] eqn:F1.
  { unfold Reconcile. rewrite bind_run, attempt_run, GetNamespace_run, F0, Hns. simpl.
    rewrite Hdel. simpl. rewrite bind_run. unfold lift. rewrite Hled, Hlab, Hfin. simpl.
    rewrite bind_run, attempt_run, GetClass_run, fault_at_advance, F1. simpl.
    destruct (IsNotFound (fault_error f1)); simpl;
      (split; [reflexivity|]; eexists [_; _]; rewrite <- app_assoc; split; reflexivity). }
  rewrite (Reconcile_reaches_apply w req className ns nsc (descriptor <$> desired) desired)
    by assumption.
  rewrite Hname, bind_run.
  set (w2 := advance (GetClass className) (advance (GetNamespace req) w)).
  destruct (applyDesired_converged req className desired [] w2
              (parseResources_valid _ _ _ Hparse) Hlive)
    as (Ho & _ & _ & (c1 & T1 & W1) & Hm).
  assert (T2 : trace w2 = trace w ++ [GetNamespace req; GetClass className]).
  { unfold w2. rewrite !trace_advance, <- app_assoc. reflexivity. }
  destruct (applyDesired req className desired [] w2) as [[managed|e] w3] eqn:A;
    simpl in *.
  - rewrite (Hm managed eq_refl). simpl. rewrite bind_run.
    rewrite cleanUpUndesired_nothing by (apply desiredKeysOf_elem).
    rewrite finish_objects.
    destruct (quiet_finish ns nsc (descriptor <$> desired) req w3) as (c2 & T3 & W2).
    split; [exact Ho|].
    exists ([GetNamespace req; GetClass className] ++ c1 ++ c2).
    rewrite T3, T1, T2, <- !app_assoc. split; [reflexivity|].
    rewrite !object_writes_app, W1, W2. reflexivity.
  - split; [exact Ho|].
    exists ([GetNamespace req; GetClass className] ++ c1).
    rewrite T1, T2, <- !app_assoc. split; [reflexivity|].
    rewrite !object_writes_app, W1. reflexivity.
Qed.




(** ** What a pass leaves alone *)

Section Keeping.
Context (I : World → Prop).

Lemma keeps_ret {A} (a : A) : keeps I (mret a).
Proof. intros w H. exact H. Qed.

Lemma keeps_fail {A} (e : Error) : keeps I (@fail A e).
Proof. intros w H. exact H. Qed.



(** The continuation may rely on what the first computation ensures of
    its result. *)
Lemma keeps_bind_with {A B} (Q : A → Prop) (m : M A) (k : A → M B) :
  (∀ w, I w → I (m w).2 ∧ ∀ a, (m w).1 = Ok a → Q a) →
  (∀ a, Q a → keeps I (k a)) → keeps I (m ≫= k).
Proof.
  intros Hm Hk w H. rewrite bind_run. destruct (Hm w H) as [H1 HQ].
  destruct (m w) as [[a|e] w1]; simpl in *; [|exact H1].
  apply (Hk a (HQ a eq_refl)). exact H1.
Qed.

Lemma keeps_bind {A B} (m : M A) (k : A → M B) :
  keeps I m → (∀ a, keeps I (k a)) → keeps I (m ≫= k).
Proof.
  intros Hm Hk. apply (keeps_bind_with (λ _, True)); [|intros a _; apply Hk].
  intros w H. split; [apply Hm, H | auto].
Qed.

Lemma keeps_attempt {A} (m : M A) : keeps I m → keeps I (attempt m).
Proof. intros Hm w H. rewrite attempt_run. apply Hm, H. Qed.

Lemma keeps_call {A} (c : Call) (op : M A) :
  (∀ w, I w → I (advance c w)) → keeps I op → keeps I (call c op).
Proof.
  intros Hc Hop w H. rewrite call_run. destruct (fault_at w 0); simpl.
  - apply Hc, H.
  - apply Hop, Hc, H.
Qed.

End Keeping.


Section Frame.
Context (req : string) (w0 : World).























End Frame.



(** ** A template that cannot be applied *)

Section Applying.
Context (w0 : World).

Lemma applying_call (c : Call) (w : World) :
  is_apply_call c = true → applying w0 w → applying w0 (advance c w).
Proof.
  intros Hc (Hn & Hcl & calls & Ht & Hall). split; [exact Hn|]. split; [exact Hcl|].
  exists (calls ++ [c]). rewrite trace_advance, Ht, <- app_assoc. split; [reflexivity|].
  apply Forall_app. split; [exact Hall|]. apply Forall_singleton. exact Hc.
Qed.

Lemma applying_objects (w : World) (m : gmap ObjKey Unstructured) :
  applying w0 w → applying w0 (with_objects w m).
Proof. intros H. exact H. Qed.

Lemma applying_Get (namespace name : string) (existing : Unstructured) :
  keeps (applying w0) (client.Get namespace name existing).
Proof.
  unfold client.Get. cbv zeta.
  apply keeps_call; [intros w; apply applying_call; reflexivity|]. intros w H.
  destruct (client.typed _ _); [|exact H]. destruct (objects w !! _); exact H.
Qed.

Lemma applying_Create (u : Unstructured) : keeps (applying w0) (client.Create u).
Proof.
  apply keeps_call; [intros w; apply applying_call; reflexivity|]. intros w H.
  destruct (client.typed _ _); [|exact H].
  destruct (objects w !! client.obj_key u); exact H.
Qed.

Lemma applying_Update (u : Unstructured) : keeps (applying w0) (client.Update u).
Proof.
  apply keeps_call; [intros w; apply applying_call; reflexivity|]. intros w H.
  destruct (client.typed _ _); [|exact H].
  destruct (objects w !! client.obj_key u); exact H.
Qed.

Lemma applying_createOrUpdateResource (d : Unstructured) :
  keeps (applying w0) (createOrUpdateResource d).
Proof.
  unfold createOrUpdateResource. cbv zeta.
  apply keeps_bind; [apply keeps_attempt, applying_Get|].
  intros [existing|e].
  - destruct (decide _); [|apply keeps_ret].
    apply keeps_bind; [apply applying_Update | intros _; apply keeps_ret].
  - destruct (IsNotFound e); [|apply keeps_fail].
    apply keeps_bind; [apply applying_Create | intros _; apply keeps_ret].
Qed.

Lemma applying_applyDesired (namespace className : string) (ds : list Unstructured) :
  ∀ acc, keeps (applying w0) (applyDesired namespace className ds acc).
Proof.
  induction ds as [|t ds IH]; intros acc; [apply keeps_ret|].
  rewrite applyDesired_cons.
  apply keeps_bind; [apply applying_createOrUpdateResource | intros d'; apply IH].
Qed.
End Applying.

(** X19. A template that cannot be applied ends the pass.  The pass has
    fetched the namespace (bound, finalizer set, ledger readable) and its
    class, and the templates parse.  When the loop over the templates ends
    in an error, the pass returns that error where the loop stopped: since
    the two fetches it has made nothing but fetches, creates and updates of
    objects, so nothing was deleted, and neither the namespace with its
    ledger nor a class has been written. *)
Theorem failed_apply_ends_pass
    (w w3 : World) (req className : string) (ns : Namespace) (nsc : NamespaceClass)
    (current : list ManagedResource) (desired : list Unstructured) (e : Error) :
  namespaces w !! req = Some ns → ns_name ns = req → fault_at w 0 = None →
  IsZero (ns_deletionTimestamp ns) = true →
  ns_labels ns !! LabelKey = Some className →
  containsString (ns_finalizers ns) NamespaceFinalizer = true →
  getManagedResources ns = Ok current →
  classes w !! className = Some nsc → fault_at w 1 = None →
  parseResources (nsc_resources nsc) className = Ok desired →
  applyDesired req className desired []
    (advance (GetClass className) (advance (GetNamespace req) w)) = (Err e, w3) →
  Reconcile req w = (Err e, w3)
  ∧ namespaces w3 = namespaces w ∧ classes w3 = classes w
  ∧ ∃ calls, trace w3 = trace w ++ [GetNamespace req; GetClass className] ++ calls
             ∧ Forall (λ c, is_apply_call c = true) calls.
Proof.
  intros Hns Hname Hf Hdel Hlab Hfin Hled Hcls Hf1 Hparse Happly.
  rewrite (Reconcile_reaches_apply w req className ns nsc current desired) by assumption.
  rewrite Hname, bind_run, Happly. split; [reflexivity|].
  set (w2 := advance (GetClass className) (advance (GetNamespace req) w)) in *.
  assert (H2 : applying w2 w2).
  { split; [reflexivity|]. split; [reflexivity|]. exists []. rewrite app_nil_r. auto. }
  pose proof (applying_applyDesired w2 req className desired [] w2 H2) as H3.
  assert (T2 : trace w2 = trace w ++ [GetNamespace req; GetClass className])
    by (unfold w2; rewrite !trace_advance, <- app_assoc; reflexivity).
  rewrite Happly in H3. destruct H3 as (Hn & Hc & calls & Ht & Hall).
  split; [exact Hn|]. split; [exact Hc|]. exists calls. split; [|exact Hall].
  change (trace w3 = trace w2 ++ calls) in Ht.
  rewrite Ht, T2, <- app_assoc. reflexivity.
Qed.

Lemma failed_apply_ends_pass_witness :
  (Reconcile "team-b"
     (Lite.world Lite.ns_bound [Ex.class "standard" [Ex.quota; Ex.settings]]
        [None; None; None; None; Some FaultUnavailable])).1
  = Err Unavailable.
Proof.
  set (W := Lite.world Lite.ns_bound [Ex.class "standard" [Ex.quota; Ex.settings]]
              [None; None; None; None; Some FaultUnavailable]).
  set (X := applyDesired "team-b" "standard"
              [Ex.decoded Ex.quota; Ex.decoded Ex.settings] []
              (advance (GetClass "standard") (advance (GetNamespace "team-b") W))).
  assert (E1 : X.1 = Err Unavailable) by (vm_compute; reflexivity).
  assert (A : X = (Err Unavailable, X.2)) by (rewrite <- E1; apply surjective_pairing).
  destruct (failed_apply_ends_pass W X.2 "team-b" "standard" Lite.ns_bound
              (Ex.class "standard" [Ex.quota; Ex.settings])
              Lite.ledger [Ex.decoded Ex.quota; Ex.decoded Ex.settings] Unavailable
              ltac:(vm_compute; reflexivity) ltac:(vm_compute; reflexivity)
              ltac:(vm_compute; reflexivity) ltac:(vm_compute; reflexivity)
              ltac:(vm_compute; reflexivity) ltac:(vm_compute; reflexivity)
              ltac:(vm_compute; reflexivity) ltac:(vm_compute; reflexivity)
              ltac:(vm_compute; reflexivity) ltac:(vm_compute; reflexivity)
              A) as [H _].
  rewrite H. reflexivity.
Defined.
(** * Passes under faults, and the decoders at work *)

(** ** The finalizer comes first *)

(** A counterexample to C5 as it is stated: the namespace has the class
    label, lacks the finalizer and is not being deleted, and its ledger
    annotation does not parse.  The ledger is read before the finalizer is
    looked at, so the pass ends in the parse error after the one fetch: no
    finalizer is added, nothing is stored and no Requeue is returned. *)
Lemma unreadable_ledger_blocks_finalizer :
  let out := Reconcile "team-a" w_fresh_corrupt in
  namespaces w_fresh_corrupt !! "team-a" = Some ns_fresh_corrupt
  ∧ IsZero (ns_deletionTimestamp ns_fresh_corrupt) = true
  ∧ ns_labels ns_fresh_corrupt !! LabelKey = Some "standard"
  ∧ containsString (ns_finalizers ns_fresh_corrupt) NamespaceFinalizer = false
  ∧ out.1 = Err JsonError
  ∧ trace out.2 = [GetNamespace "team-a"]
  ∧ namespaces out.2 !! "team-a" = Some ns_fresh_corrupt
  ∧ NamespaceFinalizer ∉ ns_finalizers ns_fresh_corrupt.
Proof.
  cbv zeta. split_and!; try (vm_compute; reflexivity).
  intros H. inversion H.
Qed.

(** C5, amended. A namespace that is not being deleted, has the class label
    and lacks the finalizer: whatever happens, the pass touches no object
    and no class, and calls the server for the namespace alone.  When the
    ledger annotation is readable, the pass adds the finalizer and sends the
    namespace to the store: if that update goes through, the namespace is
    stored with the finalizer and the result is Requeue; if it fails, the
    pass returns that error and the stored namespace is as before.  When the
    ledger annotation is not readable, the pass returns the parse error
    after the fetch and adds no finalizer. *)
Theorem finalizer_recorded_before_any_resource
    (w : World) (req className : string) (ns : Namespace) :
  namespaces w !! req = Some ns → ns_name ns = req → fault_at w 0 = None →
  IsZero (ns_deletionTimestamp ns) = true →
  ns_labels ns !! LabelKey = Some className →
  containsString (ns_finalizers ns) NamespaceFinalizer = false →
  let r := (Reconcile req w).1 in
  let w' := (Reconcile req w).2 in
  let marked := AddFinalizer ns NamespaceFinalizer in
  (objects w' = objects w ∧ classes w' = classes w
   ∧ (trace w' = trace w ++ [GetNamespace req]
      ∨ trace w' = trace w ++ [GetNamespace req; UpdateNamespace marked]))
  ∧ ((∃ l, getManagedResources ns = Ok l) → fault_at w 1 = None →
     r = Ok {| Requeue := true; RequeueAfter := 0 |}
     ∧ trace w' = trace w ++ [GetNamespace req; UpdateNamespace marked]
     ∧ namespaces w' = <[req := marked]> (namespaces w)
     ∧ NamespaceFinalizer ∈ ns_finalizers marked)
  ∧ ((∃ l, getManagedResources ns = Ok l) → ∀ f, fault_at w 1 = Some f →
     r = Err (fault_error f)
     ∧ trace w' = trace w ++ [GetNamespace req; UpdateNamespace marked]
     ∧ namespaces w' = namespaces w)
  ∧ (∀ e, getManagedResources ns = Err e →
     r = Err e ∧ trace w' = trace w ++ [GetNamespace req]
     ∧ namespaces w' = namespaces w).
Proof.
  intros Hns Hname Hf Hdel Hlab Hfin. cbv zeta.
  unfold Reconcile. rewrite bind_run, attempt_run, GetNamespace_run, Hf, Hns. simpl.
  rewrite Hdel. simpl. rewrite bind_run. unfold lift.
  destruct (getManagedResources ns) as [l|e] eqn:G.
  - rewrite Hlab, Hfin. simpl.
    rewrite bind_run, UpdateNamespace_run, fault_at_advance, AddFinalizer_name.
    change (namespaces (advance (GetNamespace req) w)) with (namespaces w).
    rewrite Hname, Hns.
    destruct (fault_at w 1) as [f|] eqn:F1; simpl.
    + rewrite <- app_assoc. simpl.
      split; [auto|]. split; [intros _ [=]|]. split; [|intros e [=]].
      intros _ f' [= <-]. auto.
    + rewrite <- app_assoc. simpl.
      split; [auto|]. split; [|split; [intros _ f [=] | intros e [=]]].
      intros _ _.
      split; [reflexivity|]. split; [reflexivity|]. split; [reflexivity|].
      apply AddFinalizer_elem.
  - simpl. split; [auto|]. split; [intros [l [=]]|]. split; [intros [l [=]]|].
    intros e' [= <-]. auto.
Qed.

Lemma finalizer_recorded_before_any_resource_witness :
  (Reconcile "team-a" Ex.w_fresh).1 = Ok {| Requeue := true; RequeueAfter := 0 |}
  ∧ objects (Reconcile "team-a" Ex.w_fresh).2 = objects Ex.w_fresh
  ∧ namespaces (Reconcile "team-a" Ex.w_fresh).2
    = <["team-a" := AddFinalizer Ex.ns_fresh NamespaceFinalizer]> (namespaces Ex.w_fresh).
Proof.
  pose proof (finalizer_recorded_before_any_resource Ex.w_fresh "team-a" "standard"
                Ex.ns_fresh eq_refl eq_refl eq_refl eq_refl eq_refl eq_refl) as H.
  cbv zeta in H. destruct H as [(Ho & _ & _) [H _]].
  destruct (H (ex_intro _ [] eq_refl) eq_refl) as (Hr & _ & Hn & _).
  exact (conj Hr (conj Ho Hn)).
Defined.

(** ** A stale deletion that fails *)

(** The error of the stale cleanup is the error of the deletion that
    failed. *)
Lemma cleanUpUndesired_first_error namespace (desiredKeys : gset string) current : ∀ w,
  some_deletion_fails namespace (stale desiredKeys current) w = true →
  ∃ done res rest,
    stale desiredKeys current = done ++ res :: rest
    ∧ attempted namespace (stale desiredKeys current) w = done ++ [res]
    ∧ some_deletion_fails namespace done w = false
    ∧ delete_fails (after_deletes namespace done w) res = true
    ∧ (cleanUpUndesired namespace desiredKeys current w).1
      = Err (delete_error (after_deletes namespace done w)).
Proof.
  induction current as [|r l IH]; intros w; [discriminate|].
  simpl. unfold stale. rewrite filter_cons. case_bool_decide as Hin; simpl.
  - rewrite decide_False by (intros H; apply H; exact Hin). apply IH.
  - rewrite decide_True by exact Hin. simpl.
    rewrite bind_run, deleteResource_run.
    destruct (delete_fails w r) eqn:F; simpl.
    + intros _. exists [], r, (filter (λ res, resourceKey res ∉ desiredKeys) l).
      split; [reflexivity|]. split; [reflexivity|]. split; [reflexivity|].
      split; [exact F | reflexivity].
    + intros H. destruct (IH _ H) as (done & res & rest & E & Ha & Hd & Hf & Hr).
      unfold stale in E, Ha. exists (r :: done), res, rest.
      split; [rewrite E; reflexivity|].
      split; [rewrite Ha; reflexivity|].
      simpl. rewrite F. split; [exact Hd|].
      split; [exact Hf | exact Hr].
Qed.

(** C9, amended. Once the desired resources are applied, the pass deletes
    the ledgered descriptors whose key is not a desired one, in ledger order.
    When none of these deletions fails, all of them are tried, and what
    follows writes no object.  When one fails with an error other than
    not-found, it is the last call of the pass: the descriptors before it
    were tried and went through, those after it are not tried, the pass
    returns the error of that deletion and no namespace is written, so the
    ledger still lists them for the next pass. *)
Theorem stale_cleanup_stops_at_first_failure
    (w w3 : World) (req className : string) (ns : Namespace) (nsc : NamespaceClass)
    (current managed : list ManagedResource) (desired : list Unstructured) :
  namespaces w !! req = Some ns → ns_name ns = req → fault_at w 0 = None →
  IsZero (ns_deletionTimestamp ns) = true →
  ns_labels ns !! LabelKey = Some className →
  containsString (ns_finalizers ns) NamespaceFinalizer = true →
  getManagedResources ns = Ok current →
  classes w !! className = Some nsc → fault_at w 1 = None →
  parseResources (nsc_resources nsc) className = Ok desired →
  applyDesired req className desired []
    (advance (GetClass className) (advance (GetNamespace req) w)) = (Ok managed, w3) →
  let r := (Reconcile req w).1 in
  let w' := (Reconcile req w).2 in
  let todo := stale (desiredKeysOf managed) current in
  if some_deletion_fails req todo w3 then
    trace w' = trace w3 ++ (DeleteCall req <$> attempted req todo w3)
    ∧ namespaces w' = namespaces w
    ∧ ∃ done res rest,
        todo = done ++ res :: rest
        ∧ attempted req todo w3 = done ++ [res]
        ∧ some_deletion_fails req done w3 = false
        ∧ delete_fails (after_deletes req done w3) res = true
        ∧ (deleteResource req res (after_deletes req done w3)).1
          = Err (delete_error (after_deletes req done w3))
        ∧ r = Err (delete_error (after_deletes req done w3))
  else
    ∃ calls, trace w' = trace w3 ++ (DeleteCall req <$> todo) ++ calls
             ∧ object_writes calls = [].
Proof.
  intros Hns Hname Hf Hdel Hlab Hfin Hled Hcls Hf1 Hparse Happly. cbv zeta.
  rewrite (Reconcile_reaches_apply w req className ns nsc current desired)
    by assumption.
  rewrite Hname, bind_run, Happly, bind_run.
  destruct (applyDesired_store req className desired [] _ managed w3
              (parseResources_valid _ _ _ Hparse) Happly) as (_ & Hn3 & _).
  pose proof (cleanUpUndesired_first_error req (desiredKeysOf managed) current w3) as Hfirst.
  destruct (cleanUpUndesired_run req (desiredKeysOf managed) current w3) as (rc & E & Hok & _).
  rewrite E in Hfirst |- *. simpl in Hfirst.
  destruct (some_deletion_fails req (stale (desiredKeysOf managed) current) w3) eqn:F.
  - destruct (Hfirst eq_refl) as (done & res & rest & Hsplit & Ha & Hd & Hfail & ->). simpl.
    rewrite after_deletes_trace, after_deletes_namespaces.
    split; [reflexivity|]. split; [exact Hn3|].
    exists done, res, rest. split; [exact Hsplit|]. split; [exact Ha|].
    split; [exact Hd|]. split; [exact Hfail|]. split; [|reflexivity].
    rewrite deleteResource_run, Hfail. reflexivity.
  - rewrite (Hok eq_refl), attempted_all by exact F.
    destruct (quiet_finish ns nsc managed req
                (after_deletes req (stale (desiredKeysOf managed) current) w3))
      as (calls & T & W).
    exists calls. rewrite T, after_deletes_trace, <- app_assoc. auto.
Qed.

Lemma stale_cleanup_stops_at_first_failure_witness :
  (Reconcile "team-a" Ex.w_stale).1 = Err Unavailable
  ∧ namespaces (Reconcile "team-a" Ex.w_stale).2 = namespaces Ex.w_stale.
Proof.
  pose (w2 := advance (GetClass "standard") (advance (GetNamespace "team-a") Ex.w_stale)).
  pose (managed := [descriptor (Ex.decoded Ex.quota)]).
  pose (w3 := (applyDesired "team-a" "standard" [Ex.decoded Ex.quota] [] w2).2).
  pose proof (stale_cleanup_stops_at_first_failure Ex.w_stale w3 "team-a" "standard"
                Ex.ns_bound (Ex.class "standard" [Ex.quota]) Ex.ledger managed
                [Ex.decoded Ex.quota]
                eq_refl eq_refl eq_refl eq_refl eq_refl eq_refl
                ltac:(vm_compute; reflexivity) eq_refl eq_refl
                ltac:(vm_compute; reflexivity) ltac:(vm_compute; reflexivity)) as H.
  cbv zeta in H.
  replace (some_deletion_fails "team-a" (stale (desiredKeysOf managed) Ex.ledger) w3)
    with true in H by (vm_compute; reflexivity).
  destruct H as (_ & Hn & done & res & rest & Hsplit & _ & Hd & _ & _ & Hr).
  split; [|exact Hn]. rewrite Hr.
  assert (F : delete_fails w3 (descriptor (Ex.decoded Ex.settings)) = true)
    by (vm_compute; reflexivity).
  assert (S : stale (desiredKeysOf managed) Ex.ledger = Ex.ledger)
    by (vm_compute; reflexivity).
  rewrite S in Hsplit. destruct done as [|d0 done].
  - vm_compute. reflexivity.
  - injection Hsplit as <- _. simpl in Hd. rewrite F in Hd. discriminate Hd.
Defined.

(** ** What a pass that ends without error leaves *)

(** ** Convergence *)




Lemma resourceKey_triple (res res' : ManagedResource) :
  triple res = triple res' → resourceKey res = resourceKey res'.
Proof. unfold triple, resourceKey. intros [= -> -> ->]. reflexivity. Qed.





(** ** The writes of a pass over a converged namespace *)

(** One attempt at the ledger that ends without error has made the update
    call of the namespace it fetched. *)
Lemma writeManagedResources_update ns managed (w0 w : World) (c : list Call) :
  namespaces w = namespaces w0 → trace w = trace w0 ++ c →
  match (writeManagedResources ns managed w).1 with
  | Ok _ =>
      ∃ ns0 c', namespaces w0 !! ns_name ns = Some ns0
                ∧ trace (writeManagedResources ns managed w).2 = trace w0 ++ c'
                ∧ UpdateNamespace (with_ledger ns0 managed) ∈ c'
  | Err _ =>
      namespaces (writeManagedResources ns managed w).2 = namespaces w0
      ∧ ∃ c', trace (writeManagedResources ns managed w).2 = trace w0 ++ c'
  end.
Proof.
  intros Hn Ht. unfold writeManagedResources. rewrite bind_run, GetNamespace_run.
  destruct (fault_at w 0) as [f|].
  { simpl. split; [exact Hn|]. eexists. rewrite Ht, <- app_assoc. reflexivity. }
  rewrite Hn.
  destruct (namespaces w0 !! ns_name ns) as [ns0|] eqn:L.
  2:{ simpl. split; [exact Hn|]. eexists. rewrite Ht, <- app_assoc. reflexivity. }
  rewrite bind_run.
  assert (E : (match managed with
               | [] => mret (set_annotations ns0 (delete AnnotationKey (ns_annotations ns0)))
               | _ :: _ =>
                   data ← lift (of_option JsonError (Ledger.Marshal managed));
                   mret (set_annotations ns0 (<[AnnotationKey := data]> (ns_annotations ns0)))
               end) (advance (GetNamespace (ns_name ns)) w)
              = (Ok (with_ledger ns0 managed), advance (GetNamespace (ns_name ns)) w)).
  { destruct managed; reflexivity. }
  rewrite E, UpdateNamespace_run, with_ledger_name.
  change (namespaces (advance ?c w)) with (namespaces w).
  destruct (fault_at (advance (GetNamespace (ns_name ns)) w) 0).
  { simpl. split; [exact Hn|]. eexists. rewrite Ht, <- !app_assoc. reflexivity. }
  destruct (namespaces w !! ns_name ns0); simpl.
  - exists ns0. eexists. split; [reflexivity|].
    split; [rewrite Ht, <- !app_assoc; reflexivity|].
    apply elem_of_app. right. apply elem_of_cons. right. apply elem_of_cons. left. reflexivity.
  - split; [exact Hn|]. eexists. rewrite Ht, <- !app_assoc. reflexivity.
Qed.

Lemma updateManagedResources_update ns managed (w : World) :
  (updateManagedResources ns managed w).1 = Ok tt →
  ∃ ns0 c, namespaces w !! ns_name ns = Some ns0
           ∧ trace (updateManagedResources ns managed w).2 = trace w ++ c
           ∧ UpdateNamespace (with_ledger ns0 managed) ∈ c.
Proof.
  intros Hok. unfold updateManagedResources, DefaultRetrySteps in *.
  pose proof (retry_cases (writeManagedResources ns managed)
                (λ w1, namespaces w1 = namespaces w ∧ ∃ c, trace w1 = trace w ++ c)
                (λ w1, ∃ ns0 c, namespaces w !! ns_name ns = Some ns0
                                ∧ trace w1 = trace w ++ c
                                ∧ UpdateNamespace (with_ledger ns0 managed) ∈ c)) as H.
  cbv beta in H. specialize (H ltac:(intros w1 [Hn [c Ht]];
                                     apply (writeManagedResources_update ns managed w w1 c Hn Ht))
                               4%nat w).
  rewrite Hok in H. apply H. split; [reflexivity|]. exists []. rewrite app_nil_r. reflexivity.
Qed.

(** Calls of the apply loop that write no object are fetches. *)
Lemma apply_calls_read (calls : list Call) :
  Forall (λ c, is_apply_call c = true) calls → object_writes calls = [] →
  filter is_write calls = [].
Proof.
  induction 1 as [|c l Hc _ IH]; [reflexivity|]. unfold object_writes.
  rewrite !filter_cons. destruct c; simpl in *; try discriminate; exact IH.
Qed.

(** The apply loop does not read or move the clock. *)
Section Clock.
Context (t0 : Time).

Lemma clock_Get (namespace name : string) (existing : Unstructured) :
  keeps (λ w, now w = t0) (client.Get namespace name existing).
Proof.
  unfold client.Get. cbv zeta.
  apply keeps_call; [intros w H; exact H|]. intros w H.
  destruct (client.typed _ _); [|exact H]. destruct (objects w !! _); exact H.
Qed.

Lemma clock_Create (u : Unstructured) : keeps (λ w, now w = t0) (client.Create u).
Proof.
  apply keeps_call; [intros w H; exact H|]. intros w H.
  destruct (client.typed _ _); [|exact H].
  destruct (objects w !! client.obj_key u); exact H.
Qed.

Lemma clock_Update (u : Unstructured) : keeps (λ w, now w = t0) (client.Update u).
Proof.
  apply keeps_call; [intros w H; exact H|]. intros w H.
  destruct (client.typed _ _); [|exact H].
  destruct (objects w !! client.obj_key u); exact H.
Qed.

Lemma clock_createOrUpdateResource (d : Unstructured) :
  keeps (λ w, now w = t0) (createOrUpdateResource d).
Proof.
  unfold createOrUpdateResource. cbv zeta.
  apply keeps_bind; [apply keeps_attempt, clock_Get|].
  intros [existing|e].
  - destruct (decide _); [|apply keeps_ret].
    apply keeps_bind; [apply clock_Update | intros _; apply keeps_ret].
  - destruct (IsNotFound e); [|apply keeps_fail].
    apply keeps_bind; [apply clock_Create | intros _; apply keeps_ret].
Qed.

Lemma clock_applyDesired (namespace className : string) (ds : list Unstructured) :
  ∀ acc, keeps (λ w, now w = t0) (applyDesired namespace className ds acc).
Proof.
  induction ds as [|t ds IH]; intros acc; [apply keeps_ret|].
  rewrite applyDesired_cons.
  apply keeps_bind; [apply clock_createOrUpdateResource | intros d'; apply IH].
Qed.
End Clock.

(** A pass over a converged namespace that ends without error has updated
    the namespace, with the ledger of the templates. *)
Lemma converged_ok_updates
    (w : World) (req className : string) (ns : Namespace) (nsc : NamespaceClass)
    (desired : list Unstructured) (r : Result) :
  namespaces w !! req = Some ns → ns_name ns = req →
  IsZero (ns_deletionTimestamp ns) = true →
  ns_labels ns !! LabelKey = Some className →
  containsString (ns_finalizers ns) NamespaceFinalizer = true →
  classes w !! className = Some nsc →
  parseResources (nsc_resources nsc) className = Ok desired →
  getManagedResources ns = Ok (descriptor <$> desired) →
  (∀ t, t ∈ desired →
     ∃ e, objects w !! template_key req t = Some e
          ∧ Unstr.index (Unstr.GetAnnotations e) ResourceHashAnnotation
            = calculateResourceHash t) →
  (Reconcile req w).1 = Ok r →
  ∃ calls, trace (Reconcile req w).2 = trace w ++ calls
           ∧ UpdateNamespace (with_ledger ns (descriptor <$> desired)) ∈ calls.
Proof.
  intros Hns Hname Hdel Hlab Hfin Hcls Hparse Hled Hlive.
  destruct (fault_at w 0) as [f0|] eqn:F0.
  { unfold Reconcile. rewrite bind_run, attempt_run, GetNamespace_run, F0. simpl.
    destruct (IsNotFound (fault_error f0)) eqn:N; simpl; [|discriminate].
    rewrite fault_error_not_NotFound in N. discriminate. }
  destruct (fault_at w 1) as [f1|] eqn:F1.
  { unfold Reconcile. rewrite bind_run, attempt_run, GetNamespace_run, F0, Hns. simpl.
    rewrite Hdel. simpl. rewrite bind_run. unfold lift. rewrite Hled, Hlab, Hfin. simpl.
    rewrite bind_run, attempt_run, GetClass_run, fault_at_advance, F1. simpl.
    destruct (IsNotFound (fault_error f1)) eqn:N; simpl; [|discriminate].
    rewrite fault_error_not_NotFound in N. discriminate. }
  rewrite (Reconcile_reaches_apply w req className ns nsc (descriptor <$> desired) desired)
    by assumption.
  rewrite Hname, bind_run.
  set (w2 := advance (GetClass className) (advance (GetNamespace req) w)).
  destruct (applyDesired_converged req className desired [] w2
              (parseResources_valid _ _ _ Hparse) Hlive)
    as (_ & Hn3 & _ & (c1 & T1 & _) & Hm).
  assert (T2 : trace w2 = trace w ++ [GetNamespace req; GetClass className]).
  { unfold w2. rewrite !trace_advance, <- app_assoc. reflexivity. }
  destruct (applyDesired req className desired [] w2) as [[managed|e] w3] eqn:A;
    simpl in *; [|discriminate].
  rewrite (Hm managed eq_refl). simpl. rewrite bind_run.
  rewrite cleanUpUndesired_nothing by (apply desiredKeysOf_elem).
  rewrite bind_run.
  pose proof (updateManagedResources_update ns (descriptor <$> desired) w3) as U.
  destruct (updateManagedResources ns (descriptor <$> desired) w3) as [[[]|e] w4];
    simpl in *; [|discriminate].
  destruct (U eq_refl) as (ns0 & c2 & L & T3 & Hin). clear U.
  rewrite Hn3, Hname in L. change (namespaces w2) with (namespaces w) in L.
  rewrite Hns in L. injection L as <-.
  intros Hok.
  destruct (quiet_bind (updateNamespaceClassStatus nsc req) (λ _, mret NoResult)
              (quiet_updateNamespaceClassStatus nsc req) (λ _, quiet_ret NoResult) w4)
    as (c3 & T4 & _).
  exists ([GetNamespace req; GetClass className] ++ c1 ++ c2 ++ c3).
  split.
  - rewrite T4, T3, T1, T2, <- !app_assoc. reflexivity.
  - apply elem_of_app. right. apply elem_of_app. right. apply elem_of_app. left. exact Hin.
Qed.

(** The writes of a pass over a converged namespace when no call fails: the
    update of the namespace, then the update of the status of the class
    when it does not list the namespace yet. *)
Lemma converged_calm_writes
    (w : World) (req className : string) (ns : Namespace) (nsc : NamespaceClass)
    (desired : list Unstructured) :
  namespaces w !! req = Some ns → ns_name ns = req →
  IsZero (ns_deletionTimestamp ns) = true →
  ns_labels ns !! LabelKey = Some className →
  containsString (ns_finalizers ns) NamespaceFinalizer = true →
  classes w !! className = Some nsc →
  parseResources (nsc_resources nsc) className = Ok desired →
  getManagedResources ns = Ok (descriptor <$> desired) →
  (∀ t, t ∈ desired →
     ∃ e, objects w !! template_key req t = Some e
          ∧ Unstr.index (Unstr.GetAnnotations e) ResourceHashAnnotation
            = calculateResourceHash t) →
  faults w = [] → nsc_name nsc = className →
  (Reconcile req w).1 = Ok NoResult
  ∧ ∃ calls, trace (Reconcile req w).2 = trace w ++ calls
             ∧ filter is_write calls
               = UpdateNamespace (with_ledger ns (descriptor <$> desired))
                 :: (if containsString (nsc_managedNamespaces nsc) req then []
                     else [UpdateClassStatus
                             (set_status nsc (nsc_managedNamespaces nsc ++ [req]) (now w))]).
Proof.
  intros Hns Hname Hdel Hlab Hfin Hcls Hparse Hled Hlive Hc Hcname.
  rewrite (Reconcile_reaches_apply w req className ns nsc (descriptor <$> desired) desired)
    by (try assumption; apply calm_fault_at; assumption).
  rewrite Hname, bind_run.
  set (w2 := advance (GetClass className) (advance (GetNamespace req) w)).
  assert (Hc2 : faults w2 = []) by (unfold w2; do 2 apply calm_advance; exact Hc).
  pose proof (parseResources_valid _ _ _ Hparse) as Hvalid.
  destruct (applyDesired_converged req className desired [] w2 Hvalid Hlive)
    as (_ & Hn3 & Hk3 & (c1 & T1 & W1) & Hm).
  assert (H2 : applying w2 w2).
  { split; [reflexivity|]. split; [reflexivity|]. exists []. rewrite app_nil_r. auto. }
  pose proof (applying_applyDesired w2 req className desired [] w2 H2) as (_ & _ & c1' & T1' & A1).
  destruct (applyDesired_calm req className desired [] w2 Hvalid Hc2)
    as (managed & w3 & Hrun & Hc3).
  pose proof (clock_applyDesired (now w) req className desired [] w2 eq_refl) as N3.
  rewrite Hrun in Hn3, Hk3, T1, Hm, T1', N3 |- *.
  cbn [fst snd] in Hn3, Hk3, T1, Hm, T1', N3 |- *.
  rewrite T1 in T1'. apply app_inv_head in T1'. subst c1'.
  rewrite (Hm managed eq_refl). cbv beta iota. rewrite bind_run.
  rewrite cleanUpUndesired_nothing by (apply desiredKeysOf_elem).
  cbv beta iota. change ([] ++ (descriptor <$> desired)) with (descriptor <$> desired).
  assert (Hns3 : namespaces w3 !! ns_name ns = Some ns).
  { rewrite Hn3, Hname. exact Hns. }
  rewrite bind_run,
    (updateManagedResources_calm ns ns (descriptor <$> desired) w3 Hc3 Hns3 eq_refl).
  set (w4 := with_namespaces _ _).
  assert (Hc4 : faults w4 = []).
  { unfold w4. change (faults (with_namespaces ?x ?m)) with (faults x).
    do 2 apply calm_advance. exact Hc3. }
  assert (Hcls4 : classes w4 !! nsc_name nsc = Some nsc).
  { change (classes w4) with (classes w3). rewrite Hk3, Hcname. exact Hcls. }
  rewrite bind_run. unfold updateNamespaceClassStatus, DefaultRetrySteps.
  pose proof (writeNamespaceClassStatus_calm nsc nsc req w4 Hc4 Hcls4 eq_refl) as E.
  assert (T2 : trace w2 = trace w ++ [GetNamespace req; GetClass className]).
  { unfold w2. rewrite !trace_advance, <- app_assoc. reflexivity. }
  assert (T4 : trace w4 = trace w ++ [GetNamespace req; GetClass className] ++ c1
                            ++ [GetNamespace req;
                                UpdateNamespace (with_ledger ns (descriptor <$> desired))]).
  { unfold w4. change (trace (with_namespaces ?x ?m)) with (trace x).
    rewrite !trace_advance, T1, T2, Hname, <- !app_assoc. reflexivity. }
  assert (N4 : now w4 = now w) by exact N3.
  clearbody w4.
  rewrite retry_first_ok; rewrite E;
    destruct (containsString (nsc_managedNamespaces nsc) req); try reflexivity.
  - split; [reflexivity|]. simpl. eexists.
    rewrite T4, <- !app_assoc.
    split; [reflexivity|].
    rewrite !filter_app, (apply_calls_read c1 A1 W1). reflexivity.
  - split; [reflexivity|]. simpl. eexists.
    rewrite T4, <- !app_assoc.
    split; [reflexivity|].
    rewrite !filter_app, (apply_calls_read c1 A1 W1), N4. reflexivity.
Qed.

(** A conflict on the update of the namespace makes the pass fetch and
    update the namespace a second time: team-a is as its class wants it, the
    sixth call of the pass (the update of the namespace) ends in a conflict,
    and the pass ends without error after two update calls. *)
Lemma conflict_repeats_namespace_update :
  let out := Reconcile "team-a"
               (with_faults Ex.w_converged [None; None; None; None; None; Some FaultConflict]) in
  out.1 = Ok NoResult
  ∧ updated_namespace <$> filter is_update (trace out.2) = [Some "team-a"; Some "team-a"]
  ∧ object_writes (trace out.2) = [].
Proof.
  cbv zeta. split_and!; vm_compute; reflexivity.
Qed.

(** C3, amended. A namespace whose resources already match its class (every
    template has its object, with the hash of the template; the ledger lists
    the descriptors of the templates; the finalizer is set).  Whatever the
    fault plan, the pass makes no create, update or delete call on a
    resource and leaves all objects as they are.  The pass does write to the
    store: when it ends without error, it has made the update call of the
    namespace that writes the ledger annotation again.  When no call fails
    and the class is stored under its name, the pass ends without error and
    its write calls are exactly that one update of the namespace, followed
    by one update of the status of the class if the status does not list
    the namespace yet. *)
Theorem converged_pass_writes_no_resource
    (w : World) (req className : string) (ns : Namespace) (nsc : NamespaceClass)
    (desired : list Unstructured) :
  namespaces w !! req = Some ns → ns_name ns = req →
  IsZero (ns_deletionTimestamp ns) = true →
  ns_labels ns !! LabelKey = Some className →
  containsString (ns_finalizers ns) NamespaceFinalizer = true →
  classes w !! className = Some nsc →
  parseResources (nsc_resources nsc) className = Ok desired →
  getManagedResources ns = Ok (descriptor <$> desired) →
  (∀ t, t ∈ desired →
     ∃ e, objects w !! template_key req t = Some e
          ∧ Unstr.index (Unstr.GetAnnotations e) ResourceHashAnnotation
            = calculateResourceHash t) →
  let out := Reconcile req w in
  objects out.2 = objects w
  ∧ ∃ calls,
      trace out.2 = trace w ++ calls
      ∧ object_writes calls = []
      ∧ (∀ r, out.1 = Ok r →
           UpdateNamespace (with_ledger ns (descriptor <$> desired)) ∈ calls)
      ∧ (faults w = [] → nsc_name nsc = className →
           out.1 = Ok NoResult
           ∧ filter is_write calls
             = UpdateNamespace (with_ledger ns (descriptor <$> desired))
               :: (if containsString (nsc_managedNamespaces nsc) req then []
                   else [UpdateClassStatus
                           (set_status nsc (nsc_managedNamespaces nsc ++ [req]) (now w))])).
Proof.
  intros Hns Hname Hdel Hlab Hfin Hcls Hparse Hled Hlive. cbv zeta.
  destruct (converged_quiet w req className ns nsc desired
              Hns Hname Hdel Hlab Hfin Hcls Hparse Hled Hlive) as (Ho & calls & Ht & Hw).
  split; [exact Ho|]. exists calls. split; [exact Ht|]. split; [exact Hw|]. split.
  - intros r Hr.
    destruct (converged_ok_updates w req className ns nsc desired r
                Hns Hname Hdel Hlab Hfin Hcls Hparse Hled Hlive Hr) as (c & Ht' & Hin).
    rewrite Ht in Ht'. apply app_inv_head in Ht'. subst c. exact Hin.
  - intros Hc Hcname.
    destruct (converged_calm_writes w req className ns nsc desired
                Hns Hname Hdel Hlab Hfin Hcls Hparse Hled Hlive Hc Hcname)
      as (Hr & c & Ht' & Hf).
    rewrite Ht in Ht'. apply app_inv_head in Ht'. subst c. split; [exact Hr | exact Hf].
Qed.

Lemma converged_pass_writes_no_resource_witness :
  (Reconcile "team-a" Ex.w_converged).1 = Ok NoResult
  ∧ objects (Reconcile "team-a" Ex.w_converged).2 = objects Ex.w_converged
  ∧ ∃ calls, trace (Reconcile "team-a" Ex.w_converged).2 = trace Ex.w_converged ++ calls
             ∧ object_writes calls = []
             ∧ filter is_write calls
               = [UpdateNamespace
                    (with_ledger Ex.ns_bound
                       (descriptor <$> [Ex.decoded Ex.settings; Ex.decoded Ex.token]))].
Proof.
  assert (Hlive : ∀ t, t ∈ [Ex.decoded Ex.settings; Ex.decoded Ex.token] →
            ∃ e, objects Ex.w_converged !! template_key "team-a" t = Some e
                 ∧ Unstr.index (Unstr.GetAnnotations e) ResourceHashAnnotation
                   = calculateResourceHash t).
  { intros t Ht.
    apply elem_of_cons in Ht as [->|Ht]; [|apply list_elem_of_singleton in Ht as ->].
    - exists (Ex.live "standard" Ex.settings). split; vm_compute; reflexivity.
    - exists (Ex.live "standard" Ex.token). split; vm_compute; reflexivity. }
  pose proof (converged_pass_writes_no_resource Ex.w_converged "team-a" "standard"
                Ex.ns_bound Ex.standard [Ex.decoded Ex.settings; Ex.decoded Ex.token]
                ltac:(vm_compute; reflexivity) ltac:(vm_compute; reflexivity)
                ltac:(vm_compute; reflexivity) ltac:(vm_compute; reflexivity)
                ltac:(vm_compute; reflexivity) ltac:(vm_compute; reflexivity)
                ltac:(vm_compute; reflexivity) ltac:(vm_compute; reflexivity)
                Hlive) as H.
  cbv zeta in H. destruct H as (Ho & calls & Ht & Hw & _ & Hcalm).
  destruct (Hcalm ltac:(reflexivity) ltac:(reflexivity)) as (Hr & Hf).
  split; [exact Hr|]. split; [exact Ho|]. exists calls.
  split; [exact Ht|]. split; [exact Hw|]. exact Hf.
Defined.

(** ** Examples of decoding *)

(** A number of a manifest is decoded to an int64 or a float64 and printed
    from there; a literal neither of them holds makes the decoder fail. *)
Lemma numbers_are_decoded :
  Num.canon "16" = Some "16" ∧ Num.canon "1.0" = Some "1" ∧ Num.canon "1e2" = Some "100"
  ∧ Num.canon "-0" = Some "0" ∧ Num.canon "-0.0" = Some "-0"
  ∧ Num.canon "0.1" = Some "0.1" ∧ Num.canon "1E-7" = Some "1e-7"
  ∧ Num.canon "1e21" = Some "1e+21"
  ∧ Num.canon "9223372036854775807" = Some "9223372036854775807"
  ∧ Num.canon "9223372036854775808" = Some "9223372036854776000"
  ∧ Num.canon "1e400" = None.
Proof. split_and!; vm_compute; reflexivity. Qed.

(** The hash is taken of the decoded numbers: two spellings of a number
    give one hash. *)
Lemma number_spelling_leaves_hash :
  calculateResourceHash
    (Ex.decoded (Ex.manifest "v1" "Secret" "token" (Ex.obj [("bytes", JNum "1.60e1")])))
  = calculateResourceHash (Ex.decoded Ex.token).
Proof. vm_compute. reflexivity. Qed.

(** A manifest whose apiVersion has two slashes, or whose kind is empty, has
    no type for the decoder, and a number out of range is an error of the
    JSON text; [parseResources] fails on such a manifest. *)
Lemma manifest_without_type_is_refused :
  UnmarshalUnstructured (Ex.manifest "a/b/c" "ConfigMap" "settings" (Ex.obj [])) = Err NoType
  ∧ UnmarshalUnstructured (Ex.manifest "apps/v1" "" "settings" (Ex.obj [])) = Err NoType
  ∧ UnmarshalUnstructured
      (Ex.manifest "apps/v1" "Deployment" "api" (Ex.obj [("replicas", JNum "1e400")]))
    = Err JsonError
  ∧ parseResources [Ex.manifest "a/b/c" "ConfigMap" "settings" (Ex.obj [])] "standard"
    = Err NoType.
Proof. split_and!; vm_compute; reflexivity. Qed.

(** The members of a descriptor are matched to the fields whatever the case
    of their letters, the Kelvin sign standing for a k. *)
Lemma ledger_member_names_fold :
  Ledger.Unmarshal (Json.encode (JArr [Ex.obj [("KIND", JStr "ConfigMap")]]))
  = Some [{| APIVersion := ""; Kind := "ConfigMap"; Name := ""; Hash := "" |}]
  ∧ Ledger.Unmarshal (Json.encode (JArr [Ex.obj [(kelvin_ind, JStr "ConfigMap")]]))
    = Some [{| APIVersion := ""; Kind := "ConfigMap"; Name := ""; Hash := "" |}].
Proof. split; vm_compute; reflexivity. Qed.
